(** * The SSH app: a shallow embedding of its five blocks

    The blocks of the app (Execute Command, Execute Script, Upload File,
    Download File, Host Metadata) are asynchronous JavaScript handlers that
    talk to a remote host through the [node-ssh] client and to the local disk
    through [node:fs/promises].  They are embedded here as computations in a
    state-and-exception monad over an explicit machine state; the remote host,
    the local disk faults, the clock and the random generator are an
    environment record the handlers are run against. *)

From Stdlib Require Import ZArith NArith Lia List Ascii String DecimalString.
From Stdlib.Strings Require Import Byte.
From stdpp Require Import gmap strings.

Local Open Scope Z_scope.
Local Open Scope string_scope.
Local Open Scope list_scope.

(* ===================================================================== *)
(** * JavaScript values the handlers look at                              *)
(* ===================================================================== *)

(** An optional configuration string is [undefined] or a string.  Its
    truthiness is what [!x] and [x || y] test: [undefined] and the empty
    string are falsy. *)
Definition truthy (x : option string) : bool :=
  match x with
  | Some s => negb (String.eqb s "")
  | None => false
  end.

(** [x || y] on optional strings. *)
Definition js_or (x y : option string) : option string :=
  if truthy x then x else y.

(** The string held by an optional value already known to be truthy. *)
Definition str (x : option string) : string :=
  match x with Some s => s | None => "" end.

(** The text of a file travels as a JavaScript string, that is, as a
    sequence of UTF-16 code units; it is kept apart from the names, paths and
    commands, which are only ever compared and concatenated. *)
Definition jsstring := list N.

(** A thrown [Error] object. *)
Record JsError := mkError { message : string }.

(** What [ssh.execCommand] resolves to; [code] is [null] when the remote
    process was ended by a signal. *)
Record ExecResult := mkExec {
  stdout : string;
  stderr : string;
  code : option Z
}.

(** The options object handed to [ssh.connect].  [hostVerifier] is the
    client's hook for checking the key the server presents; a connection
    opened without it accepts any key. *)
Record ConnectConfig := mkConnect {
  cc_host : string;
  cc_username : string;
  cc_port : Z;
  cc_privateKey : string;
  cc_hostVerifier : option (string -> bool)
}.

(** The payloads handed to [events.emit]. *)
Inductive Output :=
| CommandOutput (out err : string) (exitCode : option Z) (duration : Z)
| UploadOutput (path : string) (size : Z)
| DownloadOutput (content : jsstring) (path : string) (size : Z)
    (permissions : string) (modifiedTime : string).

(** The calls that leave the handler, to the network ([EvConnect], [EvExec],
    [EvPutFile], [EvGetFile]), to the client ([EvDispose]) and to the local
    disk. *)
Inductive Event :=
| EvConnect (cfg : ConnectConfig)
| EvExec (cmd : string) (cwd : option string)
| EvPutFile (localFile remoteFile : string)
| EvGetFile (localFile remoteFile : string)
| EvDispose
| EvWriteFile (path : string)
| EvReadFile (path : string)
| EvStat (path : string)
| EvUnlink (path : string).

(* ===================================================================== *)
(** * Machine state                                                       *)
(* ===================================================================== *)

(** The state a handler runs in: the clock read by [Date.now()], whether the
    [NodeSSH] instance holds an open connection, the local and the remote
    disk, the calls made so far, the lines written by [console.warn], the
    payloads emitted, and the one mutable local of the file blocks,
    [tempFilePath]. *)
Record State := mkState {
  clock : Z;
  session : bool;
  localFs : gmap string (list byte);
  remoteFs : gmap string (list byte);
  trace : list Event;
  console : list string;
  emitted : list Output;
  tempFilePath : option string
}.

Definition set_clock (t : Z) (s : State) : State :=
  mkState t (session s) (localFs s) (remoteFs s) (trace s) (console s)
    (emitted s) (tempFilePath s).
Definition set_session (b : bool) (s : State) : State :=
  mkState (clock s) b (localFs s) (remoteFs s) (trace s) (console s)
    (emitted s) (tempFilePath s).
Definition set_localFs (m : gmap string (list byte)) (s : State) : State :=
  mkState (clock s) (session s) m (remoteFs s) (trace s) (console s)
    (emitted s) (tempFilePath s).
Definition set_remoteFs (m : gmap string (list byte)) (s : State) : State :=
  mkState (clock s) (session s) (localFs s) m (trace s) (console s)
    (emitted s) (tempFilePath s).
Definition set_trace (t : list Event) (s : State) : State :=
  mkState (clock s) (session s) (localFs s) (remoteFs s) t (console s)
    (emitted s) (tempFilePath s).
Definition set_console (c : list string) (s : State) : State :=
  mkState (clock s) (session s) (localFs s) (remoteFs s) (trace s) c
    (emitted s) (tempFilePath s).
Definition set_emitted (o : list Output) (s : State) : State :=
  mkState (clock s) (session s) (localFs s) (remoteFs s) (trace s) (console s)
    o (tempFilePath s).
Definition set_tempFilePath (p : option string) (s : State) : State :=
  mkState (clock s) (session s) (localFs s) (remoteFs s) (trace s) (console s)
    (emitted s) p.

(** The server found at a host and port: the host key it presents and the
    users and keys it lets in. *)
Record Server := mkServer {
  hostKey : string;
  authorizes : string -> string -> bool
}.

(** The environment of a run.  Every answer may depend on the state at the
    time of the call, so on everything that happened before.
    - [tmpdir] is [os.tmpdir()], [random36] the digits of
      [Math.random().toString(36)], [isoString] is [Date.prototype.toISOString]
      on a time value in range;
    - [latency] is the time a call takes;
    - [resolve] finds the server, or fails as DNS and TCP do;
    - [remoteExec] is the remote shell: it answers a command with a result or
      a transport failure, and leaves the remote disk in a new state;
    - [sftpFault] makes a transfer fail, with what the transfer has written
      at its destination by then, if anything; [fsFault] makes a local file
      call fail. *)
Record Env := mkEnv {
  tmpdir : string;
  random36 : State -> string;
  isoString : Z -> string;
  latency : Event -> State -> Z;
  resolve : string -> Z -> State -> JsError + Server;
  remoteExec : string -> option string -> State ->
               (JsError + ExecResult) * gmap string (list byte);
  sftpFault : Event -> State -> option (JsError * option (list byte));
  fsFault : Event -> State -> option JsError
}.

(* ===================================================================== *)
(** * The monad of handlers                                               *)
(* ===================================================================== *)

Inductive Completion (A : Type) :=
| Normal (a : A)
| Throws (e : JsError).
Arguments Normal {A} a.
Arguments Throws {A} e.

Definition M (A : Type) : Type := State -> Completion A * State.

Definition ret {A} (a : A) : M A := fun s => (Normal a, s).

Definition throw {A} (e : JsError) : M A := fun s => (Throws e, s).

Definition bind {A B} (m : M A) (k : A -> M B) : M B :=
  fun s =>
    match m s with
    | (Normal a, s1) => k a s1
    | (Throws e, s1) => (Throws e, s1)
    end.

Notation "x <- m ;; k" := (bind m (fun x => k))
  (at level 100, m at next level, right associativity).
Notation "m ;;; k" := (bind m (fun _ => k))
  (at level 100, right associativity).

(** [try { body } finally { fin }]: the finaliser runs on both completions;
    it replaces the completion of the body only when it throws itself. *)
Definition try_finally {A} (body : M A) (fin : M unit) : M A :=
  fun s =>
    match body s with
    | (c, s1) =>
        match fin s1 with
        | (Normal _, s2) => (c, s2)
        | (Throws e, s2) => (Throws e, s2)
        end
    end.

(** [try { body } catch (e) { handler e }]. *)
Definition try_catch {A} (body : M A) (handler : JsError -> M A) : M A :=
  fun s =>
    match body s with
    | (Normal a, s1) => (Normal a, s1)
    | (Throws e, s1) => handler e s1
    end.

(** A call leaves its mark on the trace and takes its time. *)
Definition record (env : Env) (e : Event) (s : State) : State :=
  set_clock (clock s + latency env e s) (set_trace (trace s ++ [e]) s).

Definition Date_now : M Z := fun s => (Normal (clock s), s).

Definition console_warn (line : string) : M unit :=
  fun s => (Normal tt, set_console (console s ++ [line]) s).

Definition events_emit (o : Output) : M unit :=
  fun s => (Normal tt, set_emitted (emitted s ++ [o]) s).

(* ===================================================================== *)
(** * The [node-ssh] client                                               *)
(* ===================================================================== *)

Definition new_NodeSSH : M unit :=
  fun s => (Normal tt, set_session false s).

(** [ssh.connect]: reach the server, check its host key when a verifier was
    given, then authenticate.  The host key is checked during key exchange,
    before the user is authenticated. *)
Definition ssh_connect (env : Env) (cfg : ConnectConfig) : M unit :=
  fun s =>
    let s1 := record env (EvConnect cfg) s in
    match resolve env (cc_host cfg) (cc_port cfg) s with
    | inl e => (Throws e, s1)
    | inr srv =>
        let accepted :=
          match cc_hostVerifier cfg with
          | Some verify => verify (hostKey srv)
          | None => true
          end in
        if accepted then
          if authorizes srv (cc_username cfg) (cc_privateKey cfg)
          then (Normal tt, set_session true s1)
          else (Throws (mkError "All configured authentication methods failed"), s1)
        else (Throws (mkError "Host denied (verification failed)"), s1)
    end.

(** [ssh.execCommand]: refused by the client without a connection, which in
    the handlers is after a connection attempt that failed; otherwise the
    remote shell answers. *)
Definition ssh_execCommand (env : Env) (cmd : string) (cwd : option string)
  : M ExecResult :=
  fun s =>
    if session s then
      let s1 := record env (EvExec cmd cwd) s in
      match remoteExec env cmd cwd s with
      | (inl e, fs) => (Throws e, set_remoteFs fs s1)
      | (inr r, fs) => (Normal r, set_remoteFs fs s1)
      end
    else (Throws (mkError "Not connected"), s).

(** [ssh.putFile(localFile, remoteFile)]: a transfer that fails may leave
    a part of the file at the destination. *)
Definition ssh_putFile (env : Env) (localFile remoteFile : string) : M unit :=
  fun s =>
    if session s then
      let s1 := record env (EvPutFile localFile remoteFile) s in
      match sftpFault env (EvPutFile localFile remoteFile) s with
      | Some (e, written) =>
          (Throws e,
           match written with
           | Some data =>
               set_remoteFs (<[remoteFile := data]> (remoteFs s)) s1
           | None => s1
           end)
      | None =>
          match localFs s !! localFile with
          | None => (Throws (mkError "ENOENT: no such file or directory"), s1)
          | Some data =>
              (Normal tt, set_remoteFs (<[remoteFile := data]> (remoteFs s)) s1)
          end
      end
    else (Throws (mkError "Not connected"), s).

(** [ssh.getFile(localFile, remoteFile)]: likewise for the local file. *)
Definition ssh_getFile (env : Env) (localFile remoteFile : string) : M unit :=
  fun s =>
    if session s then
      let s1 := record env (EvGetFile localFile remoteFile) s in
      match sftpFault env (EvGetFile localFile remoteFile) s with
      | Some (e, written) =>
          (Throws e,
           match written with
           | Some data => set_localFs (<[localFile := data]> (localFs s)) s1
           | None => s1
           end)
      | None =>
          match remoteFs s !! remoteFile with
          | None => (Throws (mkError "No such file"), s1)
          | Some data =>
              (Normal tt, set_localFs (<[localFile := data]> (localFs s)) s1)
          end
      end
    else (Throws (mkError "Not connected"), s).

(** [ssh.dispose()] closes the connection, if any; it does not throw. *)
Definition ssh_dispose (env : Env) : M unit :=
  fun s => (Normal tt, set_session false (record env EvDispose s)).

(* ===================================================================== *)
(** * [node:fs/promises], [node:path], template literals                  *)
(* ===================================================================== *)

(** [fs.writeFile(path, data)] with the bytes [data] stands for. *)
Definition fs_writeFile (env : Env) (path : string) (data : list byte) : M unit :=
  fun s =>
    let s1 := record env (EvWriteFile path) s in
    match fsFault env (EvWriteFile path) s with
    | Some e => (Throws e, s1)
    | None => (Normal tt, set_localFs (<[path := data]> (localFs s)) s1)
    end.

Definition fs_readFile (env : Env) (path : string) : M (list byte) :=
  fun s =>
    let s1 := record env (EvReadFile path) s in
    match fsFault env (EvReadFile path) s with
    | Some e => (Throws e, s1)
    | None =>
        match localFs s !! path with
        | Some data => (Normal data, s1)
        | None => (Throws (mkError "ENOENT: no such file or directory"), s1)
        end
    end.

(** [fs.stat(path)], of which only [size] is read. *)
Definition fs_stat (env : Env) (path : string) : M Z :=
  fun s =>
    let s1 := record env (EvStat path) s in
    match fsFault env (EvStat path) s with
    | Some e => (Throws e, s1)
    | None =>
        match localFs s !! path with
        | Some data => (Normal (Z.of_nat (length data)), s1)
        | None => (Throws (mkError "ENOENT: no such file or directory"), s1)
        end
    end.

Definition fs_unlink (env : Env) (path : string) : M unit :=
  fun s =>
    let s1 := record env (EvUnlink path) s in
    match fsFault env (EvUnlink path) s with
    | Some e => (Throws e, s1)
    | None =>
        match localFs s !! path with
        | Some _ => (Normal tt, set_localFs (delete path (localFs s)) s1)
        | None => (Throws (mkError "ENOENT: no such file or directory"), s1)
        end
    end.

(** [path.join(dir, name)] for a directory without a trailing separator. *)
Definition path_join (dir name : string) : string := dir +:+ "/" +:+ name.

(** A number inside a template literal. *)
Definition show (z : Z) : string := NilZero.string_of_int (Z.to_int z).

(** [s.substr(start, len)] and [s.substring(start, stop)]. *)
Definition substr (start len : nat) (s : string) : string :=
  String.substring start len s.
Definition substring (start stop : nat) (s : string) : string :=
  String.substring start (stop - start) s.

(** White space among the ASCII characters.  Names, commands and outputs
    are byte strings; [trim], [split], [toLowerCase] and [parseInt] below are
    those of JavaScript on ASCII text, which is where the theorems that
    depend on what they return read them ([ascii_only]). *)
Definition is_space (c : ascii) : bool :=
  let n := N_of_ascii c in
  ((9 <=? n) && (n <=? 13) || (n =? 32))%N.

Fixpoint trimStart (s : string) : string :=
  match s with
  | String c r => if is_space c then trimStart r else s
  | EmptyString => EmptyString
  end.

Fixpoint trimEnd (s : string) : string :=
  match s with
  | String c r =>
      match trimEnd r with
      | EmptyString => if is_space c then EmptyString else String c EmptyString
      | r' => String c r'
      end
  | EmptyString => EmptyString
  end.

(** [s.trim()]. *)
Definition trim (s : string) : string := trimEnd (trimStart s).

(** [s.split(" ")]: the pieces between single spaces, never an empty list. *)
Fixpoint split_space (s : string) : list string :=
  match s with
  | EmptyString => [EmptyString]
  | String c r =>
      if Ascii.eqb c " "%char then EmptyString :: split_space r
      else
        match split_space r with
        | p :: ps => String c p :: ps
        | [] => [String c EmptyString]
        end
  end.

(** [s.toLowerCase()] on ASCII text: the letters A to Z are lowered. *)
Definition lower (c : ascii) : ascii :=
  let n := N_of_ascii c in
  if ((65 <=? n) && (n <=? 90))%N then ascii_of_N (n + 32) else c.

Fixpoint toLowerCase (s : string) : string :=
  match s with
  | String c r => String (lower c) (toLowerCase r)
  | EmptyString => EmptyString
  end.

(** The value of a digit in a radix, for [parseInt]. *)
Definition digit_value (radix : Z) (c : ascii) : option Z :=
  let n := Z.of_N (N_of_ascii c) in
  let v :=
    if ((48 <=? n) && (n <=? 57))%Z then Some (n - 48)
    else if ((97 <=? n) && (n <=? 122))%Z then Some (n - 87)
    else if ((65 <=? n) && (n <=? 90))%Z then Some (n - 55)
    else None in
  match v with
  | Some d => if (d <? radix)%Z then Some d else None
  | None => None
  end.

(** The longest prefix of digits, read in the radix; [None] without a digit. *)
Fixpoint read_digits (radix : Z) (acc : option Z) (s : string) : option Z :=
  match s with
  | String c r =>
      match digit_value radix c with
      | Some d =>
          read_digits radix
            (Some (match acc with Some a => a * radix + d | None => d end)) r
      | None => acc
      end
  | EmptyString => acc
  end.

Definition read_unsigned (s : string) : option Z :=
  match s with
  | String "0" (String x r) =>
      if Ascii.eqb x "x" || Ascii.eqb x "X" then read_digits 16 None r
      else read_digits 10 None s
  | _ => read_digits 10 None s
  end.

(** [parseInt(s)] without a radix; [None] is [NaN], which is also the value
    at [undefined]. *)
Definition parseInt (x : option string) : option Z :=
  match x with
  | None => None
  | Some s =>
      match trimStart s with
      | String "-" r => option_map Z.opp (read_unsigned r)
      | String "+" r => read_unsigned r
      | r => read_unsigned r
      end
  end.

(** A text of ASCII characters only. *)
Fixpoint ascii_only (s : string) : bool :=
  match s with
  | String c r => (N_of_ascii c <? 128)%N && ascii_only r
  | EmptyString => true
  end.

(** [new Date(t).toISOString()]: a [RangeError] outside the range of time
    values, among them [NaN]. *)
Definition Date_toISOString (env : Env) (t : option Z) : M string :=
  match t with
  | Some ms =>
      if (Z.abs ms <=? 8640000000000000)%Z then ret (isoString env ms)
      else throw (mkError "Invalid time value")
  | None => throw (mkError "Invalid time value")
  end.


(* ===================================================================== *)
(** * [Buffer]: the UTF-8 and base64 codecs                               *)
(* ===================================================================== *)

Local Open Scope N_scope.

(** The byte with a given value below 256. *)
Definition byte_of (n : N) : byte :=
  match Byte.of_N n with Some b => b | None => x00 end.

Definition is_high (c : N) : bool := (0xD800 <=? c) && (c <=? 0xDBFF).
Definition is_low (c : N) : bool := (0xDC00 <=? c) && (c <=? 0xDFFF).

(** The UTF-8 bytes of a code point. *)
Definition utf8_of_codepoint (cp : N) : list N :=
  if cp <? 0x80 then [cp]
  else if cp <? 0x800 then [0xC0 + cp / 64; 0x80 + cp mod 64]
  else if cp <? 0x10000 then
    [0xE0 + cp / 4096; 0x80 + (cp / 64) mod 64; 0x80 + cp mod 64]
  else
    [0xF0 + cp / 262144; 0x80 + (cp / 4096) mod 64;
     0x80 + (cp / 64) mod 64; 0x80 + cp mod 64].

(** Writing a string as UTF-8: a surrogate pair is one code point of four
    bytes; a surrogate without its partner is written as U+FFFD. *)
Fixpoint utf8_bytes (s : jsstring) : list N :=
  match s with
  | [] => []
  | c :: rest =>
      if is_high c then
        match rest with
        | d :: rest' =>
            if is_low d then
              utf8_of_codepoint (0x10000 + (c - 0xD800) * 1024 + (d - 0xDC00))
                ++ utf8_bytes rest'
            else utf8_of_codepoint 0xFFFD ++ utf8_bytes rest
        | [] => utf8_of_codepoint 0xFFFD
        end
      else if is_low c then utf8_of_codepoint 0xFFFD ++ utf8_bytes rest
      else utf8_of_codepoint c ++ utf8_bytes rest
  end.

(** [Buffer.from(s, "utf8")], which is also what [fs.writeFile] does to a
    string. *)
Definition utf8_encode (s : jsstring) : list byte := map byte_of (utf8_bytes s).

Definition is_cont (b : N) : bool := (0x80 <=? b) && (b <=? 0xBF).

(** The range of the second byte after a three-byte and a four-byte lead. *)
Definition second_ok3 (b0 b1 : N) : bool :=
  if b0 =? 0xE0 then (0xA0 <=? b1) && (b1 <=? 0xBF)
  else if b0 =? 0xED then (0x80 <=? b1) && (b1 <=? 0x9F)
  else is_cont b1.
Definition second_ok4 (b0 b1 : N) : bool :=
  if b0 =? 0xF0 then (0x90 <=? b1) && (b1 <=? 0xBF)
  else if b0 =? 0xF4 then (0x80 <=? b1) && (b1 <=? 0x8F)
  else is_cont b1.

(** The code units of a code point. *)
Definition units_of_codepoint (cp : N) : jsstring :=
  if cp <? 0x10000 then [cp]
  else [0xD800 + (cp - 0x10000) / 1024; 0xDC00 + (cp - 0x10000) mod 1024].

(** Reading UTF-8: every maximal ill-formed part becomes one U+FFFD. *)
Fixpoint utf8_units (bs : list N) : jsstring :=
  match bs with
  | [] => []
  | b0 :: t0 =>
      if b0 <? 0x80 then b0 :: utf8_units t0
      else if (0xC2 <=? b0) && (b0 <=? 0xDF) then
        match t0 with
        | b1 :: t1 =>
            if is_cont b1
            then ((b0 - 0xC0) * 64 + (b1 - 0x80)) :: utf8_units t1
            else 0xFFFD :: utf8_units t0
        | [] => [0xFFFD]
        end
      else if (0xE0 <=? b0) && (b0 <=? 0xEF) then
        match t0 with
        | b1 :: t1 =>
            if second_ok3 b0 b1 then
              match t1 with
              | b2 :: t2 =>
                  if is_cont b2
                  then ((b0 - 0xE0) * 4096 + (b1 - 0x80) * 64 + (b2 - 0x80))
                         :: utf8_units t2
                  else 0xFFFD :: utf8_units t1
              | [] => [0xFFFD]
              end
            else 0xFFFD :: utf8_units t0
        | [] => [0xFFFD]
        end
      else if (0xF0 <=? b0) && (b0 <=? 0xF4) then
        match t0 with
        | b1 :: t1 =>
            if second_ok4 b0 b1 then
              match t1 with
              | b2 :: t2 =>
                  if is_cont b2 then
                    match t2 with
                    | b3 :: t3 =>
                        if is_cont b3 then
                          units_of_codepoint
                            ((b0 - 0xF0) * 262144 + (b1 - 0x80) * 4096
                             + (b2 - 0x80) * 64 + (b3 - 0x80))
                            ++ utf8_units t3
                        else 0xFFFD :: utf8_units t2
                    | [] => [0xFFFD]
                    end
                  else 0xFFFD :: utf8_units t1
              | [] => [0xFFFD]
              end
            else 0xFFFD :: utf8_units t0
        | [] => [0xFFFD]
        end
      else 0xFFFD :: utf8_units t0
  end.

(** [buffer.toString("utf8")]. *)
Definition utf8_decode (bs : list byte) : jsstring :=
  utf8_units (map Byte.to_N bs).

(** A string in which every surrogate is half of a pair. *)
Fixpoint well_formed (s : jsstring) : bool :=
  match s with
  | [] => true
  | c :: rest =>
      if is_high c then
        match rest with
        | d :: rest' => is_low d && well_formed rest'
        | [] => false
        end
      else negb (is_low c) && (c <? 0x10000) && well_formed rest
  end.

(** The letter of a six-bit value in the base64 alphabet. *)
Definition b64_char (v : N) : N :=
  if v <? 26 then 65 + v
  else if v <? 52 then 97 + (v - 26)
  else if v <? 62 then 48 + (v - 52)
  else if v =? 62 then 43
  else 47.

(** The three-to-four grouping, padded with [=] (61). *)
Fixpoint base64_chars (bs : list N) : jsstring :=
  match bs with
  | [] => []
  | [a] => [b64_char (a / 4); b64_char ((a mod 4) * 16); 61; 61]
  | [a; b] =>
      [b64_char (a / 4); b64_char ((a mod 4) * 16 + b / 16);
       b64_char ((b mod 16) * 4); 61]
  | a :: b :: c :: rest =>
      [b64_char (a / 4); b64_char ((a mod 4) * 16 + b / 16);
       b64_char ((b mod 16) * 4 + c / 64); b64_char (c mod 64)]
        ++ base64_chars rest
  end.

(** [buffer.toString("base64")]. *)
Definition base64_encode (bs : list byte) : jsstring :=
  base64_chars (map Byte.to_N bs).

(** The value of a letter; both the standard and the URL-safe alphabet are
    read.  The decoder looks at the low byte of a code unit only. *)
Definition b64_value (u : N) : option N :=
  let c := u mod 256 in
  if (65 <=? c) && (c <=? 90) then Some (c - 65)
  else if (97 <=? c) && (c <=? 122) then Some (c - 97 + 26)
  else if (48 <=? c) && (c <=? 57) then Some (c - 48 + 52)
  else if (c =? 43) || (c =? 45) then Some 62
  else if (c =? 47) || (c =? 95) then Some 63
  else None.

(** The six-bit values of a text: letters outside the alphabet are skipped,
    reading stops at the first [=]. *)
Fixpoint b64_sextets (s : jsstring) : list N :=
  match s with
  | [] => []
  | c :: rest =>
      if c mod 256 =? 61 then []
      else
        match b64_value c with
        | Some v => v :: b64_sextets rest
        | None => b64_sextets rest
        end
  end.

Fixpoint b64_bytes (vs : list N) : list N :=
  match vs with
  | a :: b :: c :: d :: rest =>
      [a * 4 + b / 16; (b mod 16) * 16 + c / 4; (c mod 4) * 64 + d]
        ++ b64_bytes rest
  | [a; b; c] => [a * 4 + b / 16; (b mod 16) * 16 + c / 4]
  | [a; b] => [a * 4 + b / 16]
  | _ => []
  end.

(** [Buffer.from(s, "base64")]. *)
Definition base64_decode (s : jsstring) : list byte :=
  map byte_of (b64_bytes (b64_sextets s)).

Local Close Scope N_scope.


(* ===================================================================== *)
(** * The app and its blocks                                              *)
(* ===================================================================== *)

(** The double quote and the line feed of the command templates. *)
Definition dq : string := String (ascii_of_nat 34) EmptyString.
Definition nl : string := String (ascii_of_nat 10) EmptyString.
Definition quoted (s : string) : string := dq +:+ s +:+ dq.

Definition Math_random36 (env : Env) : M string :=
  fun s => (Normal (random36 env s), s).

Definition assign_tempFilePath (p : option string) : M unit :=
  fun s => (Normal tt, set_tempFilePath p s).
Definition read_tempFilePath : M (option string) :=
  fun s => (Normal (tempFilePath s), s).

(** [encoding === "base64"]. *)
Definition is_base64 (encoding : option string) : bool :=
  match encoding with
  | Some e => String.eqb e "base64"
  | None => false
  end.

Definition msg_no_key : string := "SSH private key not configured in the app.".
Definition msg_no_user_input : string :=
  "Username must be specified either in app config or input config.".
Definition msg_no_user_block : string :=
  "Username must be specified either in app config or block config.".

(** A field of a configuration schema, as far as defaults go, and the value
    the platform hands to the handler for it: the one the caller gave, else
    the declared default. *)
Record Field := mkField { required : bool; default_value : option string }.

Definition resolve_field (f : Field) (given : option string) : option string :=
  match given with
  | Some v => Some v
  | None => default_value f
  end.

(** The configuration of the app, shared by all blocks. *)
Module App.
Record Config := mkConfig {
  privateKey : option string;
  username : option string;
  port : option Z;
  knownHosts : option (gmap string string)
}.

Inductive Status :=
| ready
| failed (customStatusDescription : string).

(** The sync of the app itself. *)
Definition onSync (config : Config) : Status :=
  if negb (truthy (privateKey config)) then failed "SSH Private Key is required"
  else ready.
End App.

Module ExecuteCommand.
Record Input := mkInput {
  host : string;
  port : Z;
  command : string;
  username : option string;
  workingDirectory : option string
}.

Definition body (env : Env) (app : App.Config) (inp : Input)
    (finalUsername : option string) (startTime : Z) : M unit :=
  ssh_connect env
    (mkConnect (host inp) (str finalUsername) (port inp)
       (str (App.privateKey app)) None) ;;;
  result <- ssh_execCommand env (command inp) (workingDirectory inp) ;;
  t <- Date_now ;;
  let duration := t - startTime in
  events_emit
    (CommandOutput (stdout result) (stderr result) (code result) duration).

Definition onEvent (env : Env) (app : App.Config) (inp : Input) : M unit :=
  let privateKey := App.privateKey app in
  let defaultUsername := App.username app in
  if negb (truthy privateKey) then throw (mkError msg_no_key)
  else
    let finalUsername := js_or (username inp) defaultUsername in
    if negb (truthy finalUsername) then throw (mkError msg_no_user_input)
    else
      new_NodeSSH ;;;
      startTime <- Date_now ;;
      try_finally (body env app inp finalUsername startTime)
        (ssh_dispose env).

(** The options of the connection, and the states in which the block
    connects and, once connected, sends the command. *)
Definition options (app : App.Config) (inp : Input) : ConnectConfig :=
  mkConnect (host inp) (str (js_or (username inp) (App.username app)))
    (port inp) (str (App.privateKey app)) None.

Definition at_connect (s : State) : State := set_session false s.

Definition at_command (env : Env) (app : App.Config) (inp : Input)
    (s : State) : State :=
  snd (ssh_connect env (options app inp) (at_connect s)).
End ExecuteCommand.

Module UploadFile.
Record Input := mkInput {
  host : string;
  port : Z;
  content : jsstring;
  destinationPath : string;
  username : option string;
  encoding : option string;
  permissions : option string
}.

Definition encoding_field : Field := mkField true (Some "text").

Definition tempName (env : Env) (now : Z) (random : string) : string :=
  path_join (tmpdir env)
    ("ssh-upload-" +:+ show now +:+ "-" +:+ substr 2 9 random).

(** The bytes written to the staging file: [Buffer.from(content, "base64")]
    for base64, else the string itself, which [fs.writeFile] writes as
    UTF-8. *)
Definition fileContent (inp : Input) : list byte :=
  if is_base64 (encoding inp) then base64_decode (content inp)
  else utf8_encode (content inp).

Definition chmodCommand (permissions destinationPath : string) : string :=
  "chmod " +:+ permissions +:+ " " +:+ quoted destinationPath.

Definition body (env : Env) (app : App.Config) (inp : Input)
    (finalUsername : option string) : M unit :=
  ssh_connect env
    (mkConnect (host inp) (str finalUsername) (port inp)
       (str (App.privateKey app)) None) ;;;
  t <- Date_now ;;
  rnd <- Math_random36 env ;;
  let path := tempName env t rnd in
  assign_tempFilePath (Some path) ;;;
  fs_writeFile env path (fileContent inp) ;;;
  ssh_putFile env path (destinationPath inp) ;;;
  (if truthy (permissions inp) then
     _ <- ssh_execCommand env
            (chmodCommand (str (permissions inp)) (destinationPath inp))
            None ;;
     ret tt
   else ret tt) ;;;
  size <- fs_stat env path ;;
  events_emit (UploadOutput (destinationPath inp) size).

Definition cleanup (env : Env) : M unit :=
  ssh_dispose env ;;;
  p <- read_tempFilePath ;;
  if truthy p then try_catch (fs_unlink env (str p)) (fun _ => ret tt)
  else ret tt.

Definition onEvent (env : Env) (app : App.Config) (inp : Input) : M unit :=
  let privateKey := App.privateKey app in
  let defaultUsername := App.username app in
  if negb (truthy privateKey) then throw (mkError msg_no_key)
  else
    let finalUsername := js_or (username inp) defaultUsername in
    if negb (truthy finalUsername) then throw (mkError msg_no_user_input)
    else
      new_NodeSSH ;;;
      assign_tempFilePath None ;;;
      try_finally (body env app inp finalUsername) (cleanup env).
End UploadFile.

Module DownloadFile.
Record Input := mkInput {
  host : string;
  port : Z;
  sourcePath : string;
  username : option string;
  encoding : option string
}.

Definition encoding_field : Field := mkField true (Some "text").

Definition tempName (env : Env) (now : Z) (random : string) : string :=
  path_join (tmpdir env)
    ("ssh-download-" +:+ show now +:+ "-" +:+ substr 2 9 random).

Definition statCommand (sourcePath : string) : string :=
  "stat -c " +:+ quoted "%a %Y" +:+ " " +:+ quoted sourcePath.

Definition body (env : Env) (app : App.Config) (inp : Input)
    (finalUsername : option string) : M unit :=
  ssh_connect env
    (mkConnect (host inp) (str finalUsername) (port inp)
       (str (App.privateKey app)) None) ;;;
  t <- Date_now ;;
  rnd <- Math_random36 env ;;
  let path := tempName env t rnd in
  assign_tempFilePath (Some path) ;;;
  ssh_getFile env path (sourcePath inp) ;;;
  buffer <- fs_readFile env path ;;
  let content :=
    if is_base64 (encoding inp) then base64_encode buffer
    else utf8_decode buffer in
  size <- fs_stat env path ;;
  statResult <- ssh_execCommand env (statCommand (sourcePath inp)) None ;;
  let parts := split_space (trim (stdout statResult)) in
  let permissions := str (parts !! 0%nat) in
  let modifiedTimestamp := parts !! 1%nat in
  modifiedTime <- Date_toISOString env
                    (option_map (fun n => n * 1000)
                       (parseInt modifiedTimestamp)) ;;
  events_emit
    (DownloadOutput content (sourcePath inp) size permissions modifiedTime).

Definition cleanup (env : Env) : M unit :=
  ssh_dispose env ;;;
  p <- read_tempFilePath ;;
  if truthy p then try_catch (fs_unlink env (str p)) (fun _ => ret tt)
  else ret tt.

Definition onEvent (env : Env) (app : App.Config) (inp : Input) : M unit :=
  let privateKey := App.privateKey app in
  let defaultUsername := App.username app in
  if negb (truthy privateKey) then throw (mkError msg_no_key)
  else
    let finalUsername := js_or (username inp) defaultUsername in
    if negb (truthy finalUsername) then throw (mkError msg_no_user_input)
    else
      new_NodeSSH ;;;
      assign_tempFilePath None ;;;
      try_finally (body env app inp finalUsername) (cleanup env).

(** An invocation: the platform fills in the declared default of
    [encoding] before the handler runs. *)
Definition withDefaults (inp : Input) : Input :=
  mkInput (host inp) (port inp) (sourcePath inp) (username inp)
    (resolve_field encoding_field (encoding inp)).

Definition invoke (env : Env) (app : App.Config) (inp : Input) : M unit :=
  onEvent env app (withDefaults inp).
End DownloadFile.

Module ExecuteScript.
Record Input := mkInput {
  host : string;
  port : Z;
  script : string;
  username : option string;
  interpreter : option string;
  workingDirectory : option string
}.

Definition createScriptCommand (tempFile script : string) : string :=
  "cat > " +:+ quoted tempFile +:+ " << 'SPACELIFT_SCRIPT_EOF'" +:+ nl
    +:+ script +:+ nl +:+ "SPACELIFT_SCRIPT_EOF".

Definition tempFileName (timestamp : Z) (random : string) : string :=
  "/tmp/spacelift_script_" +:+ show timestamp +:+ "_"
    +:+ substring 2 8 random +:+ ".sh".

Definition chmodCommand (tempFile : string) : string :=
  "chmod +x " +:+ quoted tempFile.

Definition executeCommand (finalInterpreter tempFile : string) : string :=
  finalInterpreter +:+ " " +:+ quoted tempFile.

Definition removeCommand (tempFile : string) : string :=
  "rm -f " +:+ quoted tempFile.

Definition body (env : Env) (app : App.Config) (inp : Input)
    (finalUsername : option string) (finalInterpreter : string)
    (startTime : Z) (tempFile : string) : M unit :=
  ssh_connect env
    (mkConnect (host inp) (str finalUsername) (port inp)
       (str (App.privateKey app)) None) ;;;
  _ <- ssh_execCommand env (createScriptCommand tempFile (script inp)) None ;;
  _ <- ssh_execCommand env (chmodCommand tempFile) None ;;
  result <- ssh_execCommand env (executeCommand finalInterpreter tempFile)
              (workingDirectory inp) ;;
  t <- Date_now ;;
  let duration := t - startTime in
  events_emit
    (CommandOutput (stdout result) (stderr result) (code result) duration).

Definition cleanup (env : Env) (tempFile : string) : M unit :=
  try_catch
    (_ <- ssh_execCommand env (removeCommand tempFile) None ;; ret tt)
    (fun cleanupError =>
       console_warn
         ("Failed to clean up temporary script file " +:+ tempFile +:+ ": "
            +:+ message cleanupError)) ;;;
  ssh_dispose env.

Definition onEvent (env : Env) (app : App.Config) (inp : Input) : M unit :=
  let privateKey := App.privateKey app in
  let defaultUsername := App.username app in
  if negb (truthy privateKey) then throw (mkError msg_no_key)
  else
    let finalUsername := js_or (username inp) defaultUsername in
    if negb (truthy finalUsername) then throw (mkError msg_no_user_input)
    else
      let finalInterpreter := str (js_or (interpreter inp) (Some "sh")) in
      new_NodeSSH ;;;
      startTime <- Date_now ;;
      timestamp <- Date_now ;;
      random <- Math_random36 env ;;
      let tempFile := tempFileName timestamp random in
      try_finally
        (body env app inp finalUsername finalInterpreter startTime tempFile)
        (cleanup env tempFile).

(** The options of the connection, the name of the script file, the
    commands sent, and the states in which the block connects, stages the
    script, marks it executable and runs it, each once the call before has
    returned. *)
Definition options (app : App.Config) (inp : Input) : ConnectConfig :=
  mkConnect (host inp) (str (js_or (username inp) (App.username app)))
    (port inp) (str (App.privateKey app)) None.

Definition at_connect (s : State) : State := set_session false s.

Definition tempFile (env : Env) (s : State) : string :=
  tempFileName (clock (at_connect s)) (random36 env (at_connect s)).

Definition create (env : Env) (inp : Input) (s : State) : string :=
  createScriptCommand (tempFile env s) (script inp).

Definition chmod (env : Env) (s : State) : string :=
  chmodCommand (tempFile env s).

Definition run (env : Env) (inp : Input) (s : State) : string :=
  executeCommand (str (js_or (interpreter inp) (Some "sh"))) (tempFile env s).

Definition at_create (env : Env) (app : App.Config) (inp : Input)
    (s : State) : State :=
  snd (ssh_connect env (options app inp) (at_connect s)).

Definition at_chmod (env : Env) (app : App.Config) (inp : Input)
    (s : State) : State :=
  snd (ssh_execCommand env (create env inp s) None (at_create env app inp s)).

Definition at_run (env : Env) (app : App.Config) (inp : Input)
    (s : State) : State :=
  snd (ssh_execCommand env (chmod env s) None (at_chmod env app inp s)).
End ExecuteScript.

Module HostMetadata.
Record Config := mkConfig {
  host : string;
  port : Z;
  username : option string
}.

(** The number type of the signals and the pure string helpers of
    [onSync], none of which throws:
    - [parseLoads] is [stdout.trim().split(/[, ]+/).map(parseFloat)];
    - [falsy] tells the numbers that [x || 0] replaces (zero and [NaN]);
    - [matchKB key] is [stdout.match(/key:\s+(\d+)\s+kB/)] with [parseInt]
      of its group;
    - [matchProcUptime] is [stdout.match(/^(\d+\.\d+)/)] with [parseFloat]
      of its group;
    - [matchUptime] is the match of the [uptime] pattern, with the days,
      hours and minutes it found, each [0] when its group is missing. *)
Record Parsers := mkParsers {
  number : Type;
  ofZ : Z -> number;
  falsy : number -> bool;
  parseLoads : string -> list number;
  matchKB : string -> string -> option Z;
  matchProcUptime : string -> option number;
  matchUptime : string -> option (Z * Z * Z)
}.

Record LoadAverage (P : Parsers) := mkLoad {
  load1 : number P;
  load5 : number P;
  load15 : number P
}.
Arguments mkLoad {P}.

Record Signals (P : Parsers) := mkSignals {
  hostname : string;
  osType : string;
  osRelease : string;
  architecture : string;
  uptime : number P;
  loadAverage : LoadAverage P;
  memoryTotal : Z;
  memoryFree : Z
}.
Arguments mkSignals {P}.

Inductive SyncResult (P : Parsers) :=
| Ready (signalUpdates : Signals P)
| Failed (customStatusDescription : string).
Arguments Ready {P}.
Arguments Failed {P}.

(** [x || 0]. *)
Definition or_zero (P : Parsers) (x : option (number P)) : number P :=
  match x with
  | Some v => if falsy P v then ofZ P 0 else v
  | None => ofZ P 0
  end.

(** [r.code === 0 && r.stdout]. *)
Definition usable (r : ExecResult) : bool :=
  match code r with
  | Some 0 => negb (String.eqb (stdout r) "")
  | _ => false
  end.

(** [r.code === 0]. *)
Definition succeeded (r : ExecResult) : bool :=
  match code r with
  | Some 0 => true
  | _ => false
  end.

Definition zeroLoad (P : Parsers) : LoadAverage P :=
  mkLoad (ofZ P 0) (ofZ P 0) (ofZ P 0).

Definition probeLoadAverage (P : Parsers) (env : Env) : M (LoadAverage P) :=
  try_catch
    (loadResult <- ssh_execCommand env
       "cat /proc/loadavg 2>/dev/null || uptime | grep -o 'load average[s]*: [0-9.]*[, ]*[0-9.]*[, ]*[0-9.]*' | sed 's/load average[s]*: //'"
       None ;;
     if usable loadResult then
       let loads := parseLoads P (stdout loadResult) in
       if (3 <=? length loads)%nat then
         ret (mkLoad (or_zero P (loads !! 0%nat)) (or_zero P (loads !! 1%nat))
                (or_zero P (loads !! 2%nat)))
       else ret (zeroLoad P)
     else ret (zeroLoad P))
    (fun e =>
       console_warn ("Failed to get load average: " +:+ message e) ;;;
       ret (zeroLoad P)).

Definition probeMemory (P : Parsers) (env : Env) : M (Z * Z) :=
  try_catch
    (memResult <- ssh_execCommand env
       "cat /proc/meminfo 2>/dev/null || vm_stat" None ;;
     if usable memResult then
       let memTotalMatch := matchKB P "MemTotal" (stdout memResult) in
       let memFreeMatch := matchKB P "MemFree" (stdout memResult) in
       let memAvailMatch := matchKB P "MemAvailable" (stdout memResult) in
       let memoryTotal :=
         match memTotalMatch with Some kb => kb * 1024 | None => 0 end in
       let memoryFree :=
         match memAvailMatch with
         | Some kb => kb * 1024
         | None =>
             match memFreeMatch with Some kb => kb * 1024 | None => 0 end
         end in
       ret (memoryTotal, memoryFree)
     else ret (0, 0))
    (fun e =>
       console_warn ("Failed to get memory info: " +:+ message e) ;;;
       ret (0, 0)).

Definition parseUptime (P : Parsers) (uptime : ExecResult) : M (number P) :=
  try_catch
    (if usable uptime then
       match matchProcUptime P (stdout uptime) with
       | Some v => ret v
       | None =>
           match matchUptime P (stdout uptime) with
           | Some (days, hours, minutes) =>
               ret (ofZ P (days * 86400 + hours * 3600 + minutes * 60))
           | None => ret (ofZ P 0)
           end
       end
     else ret (ofZ P 0))
    (fun e =>
       console_warn ("Failed to parse uptime: " +:+ message e) ;;;
       ret (ofZ P 0)).

Definition body (P : Parsers) (env : Env) (app : App.Config) (cfg : Config)
    (finalUsername : option string) : M (SyncResult P) :=
  ssh_connect env
    (mkConnect (host cfg) (str finalUsername) (port cfg)
       (str (App.privateKey app)) None) ;;;
  hostname <- ssh_execCommand env "hostname" None ;;
  osType <- ssh_execCommand env "uname -s" None ;;
  osRelease <- ssh_execCommand env "uname -r" None ;;
  architecture <- ssh_execCommand env "uname -m" None ;;
  uptime <- ssh_execCommand env "cat /proc/uptime 2>/dev/null || uptime" None ;;
  loadAverage <- probeLoadAverage P env ;;
  mem <- probeMemory P env ;;
  uptimeSeconds <- parseUptime P uptime ;;
  ret (Ready
         (mkSignals
            (if succeeded hostname then trim (stdout hostname) else "")
            (if succeeded osType then toLowerCase (trim (stdout osType))
             else "")
            (if succeeded osRelease then trim (stdout osRelease) else "")
            (if succeeded architecture then trim (stdout architecture)
             else "")
            uptimeSeconds loadAverage (fst mem) (snd mem))).

Definition onSync (P : Parsers) (env : Env) (app : App.Config) (cfg : Config)
  : M (SyncResult P) :=
  let privateKey := App.privateKey app in
  let defaultUsername := App.username app in
  if negb (truthy privateKey) then ret (Failed msg_no_key)
  else
    let finalUsername := js_or (username cfg) defaultUsername in
    if negb (truthy finalUsername) then ret (Failed msg_no_user_block)
    else
      new_NodeSSH ;;;
      try_finally
        (try_catch (body P env app cfg finalUsername)
           (fun error =>
              ret (Failed ("Failed to connect to host: " +:+ message error))))
        (ssh_dispose env).
End HostMetadata.

(* ===================================================================== *)
(** * Sample environments                                                 *)
(* ===================================================================== *)

Module Sample.
(** A server that lets the user [deploy] in with the key [KEY] and
    presents the host key [server-key]. *)
Definition server : Server :=
  mkServer "server-key"
    (fun user key => String.eqb user "deploy" && String.eqb key "KEY").

(** An environment in which every call takes [ms] milliseconds, the
    server is reached, the remote shell answers every command with
    [reply] and leaves the disk alone, and no transfer or file call
    fails, except that removing a local file fails when [unlinkFails]. *)
Definition env (ms : Z) (reply : string -> JsError + ExecResult)
    (unlinkFails : bool) : Env :=
  mkEnv "/tmp" (fun _ => "0.4fzyo82mvyrz") (fun _ => "2023-11-14T22:13:20.000Z")
    (fun _ _ => ms)
    (fun _ _ _ => inr server)
    (fun cmd _ s => (reply cmd, remoteFs s))
    (fun _ _ => None)
    (fun e _ =>
       match e with
       | EvUnlink _ => if unlinkFails then Some (mkError "EPERM") else None
       | _ => None
       end).

Definition ok (out : string) (c : Z) : string -> JsError + ExecResult :=
  fun _ => inr (mkExec out "" (Some c)).

Definition app : App.Config :=
  App.mkConfig (Some "KEY") (Some "deploy") None None.

Definition start : State :=
  mkState 1700000000000 false ∅ ∅ [] [] [] None.

Definition script : ExecuteScript.Input :=
  ExecuteScript.mkInput "h" 22 "exit 7" None None None.

Definition command : ExecuteCommand.Input :=
  ExecuteCommand.mkInput "h" 22 "exit 7" None None.

(** An upload of the text [hi] with permissions. *)
Definition upload : UploadFile.Input :=
  UploadFile.mkInput "h" 22 [104; 105]%N "/srv/a.txt" None (Some "text")
    (Some "0644").

(** A remote shell whose channel breaks on one command and that answers
    every other command with [out] and exit code 0. *)
Definition breaks_on (bad out : string) : string -> JsError + ExecResult :=
  fun cmd =>
    if String.eqb cmd bad then inl (mkError "Channel open failure")
    else inr (mkExec out "" (Some 0)).

Definition loadavgCommand : string :=
  "cat /proc/loadavg 2>/dev/null || uptime | grep -o 'load average[s]*: [0-9.]*[, ]*[0-9.]*[, ]*[0-9.]*' | sed 's/load average[s]*: //'".

Definition target : HostMetadata.Config :=
  HostMetadata.mkConfig "h" 22 None.

(** Numbers as integers, with parsers that find nothing. *)
Definition parsers : HostMetadata.Parsers :=
  HostMetadata.mkParsers Z id (Z.eqb 0) (fun _ => [])
    (fun _ _ => None) (fun _ => None) (fun _ => None).

(** An app that pins a host key for the host [h], other than the one the
    server presents. *)
Definition pinned : App.Config :=
  App.mkConfig (Some "KEY") (Some "deploy") None
    (Some {[ "h" := "expected-key" ]}).

(** A machine whose remote disk holds one file, the single byte [0xFF]. *)
Definition binary : State :=
  mkState 1700000000000 false ∅ {[ "/srv/blob" := [xff] ]} [] [] [] None.

(** The answer of [stat -c "%a %Y"] for a file. *)
Definition statLine : string := "644 1700000000".

(** An app without a private key. *)
Definition keyless : App.Config :=
  App.mkConfig None (Some "deploy") None None.
End Sample.


(* ===================================================================== *)
(** * The table of blocks                                                 *)
(* ===================================================================== *)

(** An invocation names one of the five blocks the app registers and
    carries its configuration. *)
Inductive Request :=
| executeCommand (inp : ExecuteCommand.Input)
| executeScript (inp : ExecuteScript.Input)
| uploadFile (inp : UploadFile.Input)
| downloadFile (inp : DownloadFile.Input)
| hostMetadata (cfg : HostMetadata.Config).

Definition handle (P : HostMetadata.Parsers) (env : Env) (app : App.Config)
    (r : Request) : M (option (HostMetadata.SyncResult P)) :=
  match r with
  | executeCommand inp => ExecuteCommand.onEvent env app inp ;;; ret None
  | executeScript inp => ExecuteScript.onEvent env app inp ;;; ret None
  | uploadFile inp => UploadFile.onEvent env app inp ;;; ret None
  | downloadFile inp => DownloadFile.onEvent env app inp ;;; ret None
  | hostMetadata cfg =>
      r <- HostMetadata.onSync P env app cfg ;; ret (Some r)
  end.

Definition request_host (r : Request) : string :=
  match r with
  | executeCommand inp => ExecuteCommand.host inp
  | executeScript inp => ExecuteScript.host inp
  | uploadFile inp => UploadFile.host inp
  | downloadFile inp => DownloadFile.host inp
  | hostMetadata cfg => HostMetadata.host cfg
  end.

Definition request_port (r : Request) : Z :=
  match r with
  | executeCommand inp => ExecuteCommand.port inp
  | executeScript inp => ExecuteScript.port inp
  | uploadFile inp => UploadFile.port inp
  | downloadFile inp => DownloadFile.port inp
  | hostMetadata cfg => HostMetadata.port cfg
  end.

Definition request_username (r : Request) : option string :=
  match r with
  | executeCommand inp => ExecuteCommand.username inp
  | executeScript inp => ExecuteScript.username inp
  | uploadFile inp => UploadFile.username inp
  | downloadFile inp => DownloadFile.username inp
  | hostMetadata cfg => HostMetadata.username cfg
  end.

(** The description of the failure an invocation reports, if it reports
    one: the message of the error an event handler throws, or the
    description next to the status [failed] of a sync. *)
Definition failure {P : HostMetadata.Parsers}
    (c : Completion (option (HostMetadata.SyncResult P))) : option string :=
  match c with
  | Throws e => Some (message e)
  | Normal (Some (HostMetadata.Failed d)) => Some d
  | Normal _ => None
  end.

(** The failures of the two configuration checks. *)
Definition ConfigurationFault (d : string) : Prop :=
  d = msg_no_key \/ d = msg_no_user_input \/ d = msg_no_user_block.

(** The username of the claim's wording: the per-call one when it is a
    non-empty string, else the default of the app. *)
Definition effective_username (perCall appDefault : option string)
  : option string :=
  match perCall with
  | Some u => if String.eqb u "" then appDefault else Some u
  | None => appDefault
  end.

(** The duration of Execute Script read as the time of the interpreter
    call alone: whenever the block emits, the duration is the latency of
    that one call. *)
Definition duration_is_interpreter_step : Prop :=
  forall env app inp s s' out err c d,
    ExecuteScript.onEvent env app inp s = (Normal tt, s') ->
    emitted s' = emitted s ++ [CommandOutput out err c d] ->
    exists tempFile s1,
      d = latency env
            (EvExec
               (ExecuteScript.executeCommand
                  (str (js_or (ExecuteScript.interpreter inp) (Some "sh")))
                  tempFile)
               (ExecuteScript.workingDirectory inp)) s1.

(** The failures of the transport: the server is not reached, refuses the
    user, presents a key the verifier refuses, or the channel of a command
    breaks. *)
Definition TransportFault (env : Env) (e : JsError) : Prop :=
  (exists h p s, resolve env h p s = inl e) \/
  e = mkError "All configured authentication methods failed" \/
  e = mkError "Host denied (verification failed)" \/
  (exists cmd cwd s, fst (remoteExec env cmd cwd s) = inl e).

(** The server at a host and port is reached at any time and lets the user
    in with the key. *)
Definition reachable (env : Env) (host : string) (port : Z)
    (user key : string) : Prop :=
  forall s, exists srv,
    resolve env host port s = inr srv /\ authorizes srv user key = true.

(** No transfer fails. *)
Definition transfers_succeed (env : Env) : Prop :=
  forall e s, sftpFault env e s = None.

Definition is_unlink (e : Event) : bool :=
  match e with EvUnlink _ => true | _ => false end.

(** No local file call fails, the removal of a file aside. *)
Definition files_succeed (env : Env) : Prop :=
  forall e s, is_unlink e = false -> fsFault env e s = None.

(** The remote shell answers a command at any time, with some result. *)
Definition answered (env : Env) (cmd : string) : Prop :=
  forall s, exists r, fst (remoteExec env cmd None s) = inr r.

(** The channel of a command breaks at any time, with the same error. *)
Definition breaks (env : Env) (cmd : string) (e : JsError) : Prop :=
  forall s, fst (remoteExec env cmd None s) = inl e.

(** The remote shell leaves the file at a path as it is when it runs a
    command. *)
Definition leaves_alone (env : Env) (cmd path : string) : Prop :=
  forall s, snd (remoteExec env cmd None s) !! path = remoteFs s !! path.


(** The upload read as succeeding whatever becomes of the permission
    change: with permissions given, the server reached and neither the
    staging file nor the transfer failing, the block completes normally and
    emits its result. *)
Definition upload_succeeds_whatever_chmod_does : Prop :=
  forall env app inp s,
    truthy (App.privateKey app) = true ->
    truthy (js_or (UploadFile.username inp) (App.username app)) = true ->
    truthy (UploadFile.permissions inp) = true ->
    reachable env (UploadFile.host inp) (UploadFile.port inp)
      (str (js_or (UploadFile.username inp) (App.username app)))
      (str (App.privateKey app)) ->
    transfers_succeed env ->
    files_succeed env ->
    exists s' size,
      UploadFile.onEvent env app inp s = (Normal tt, s') /\
      emitted s' = emitted s
                     ++ [UploadOutput (UploadFile.destinationPath inp) size].


(** The remote shell answers [stat] for a path at any time, with a line
    whose second field is a time in seconds within the range of dates. *)
Definition stat_answered (env : Env) (path : string) : Prop :=
  forall s, exists r t,
    fst (remoteExec env (DownloadFile.statCommand path) None s) = inr r /\
    parseInt (split_space (trim (stdout r)) !! 1%nat) = Some t /\
    Z.abs (t * 1000) <= 8640000000000000.

(** The round trip of the claim for text: whatever string is uploaded as
    text comes back from a download as text of the same path. *)
Definition text_roundtrip_for_all_strings : Prop :=
  forall env app host port user path perms s C s1 s2 C' size p m,
    UploadFile.onEvent env app
      (UploadFile.mkInput host port C path user (Some "text") perms) s
    = (Normal tt, s1) ->
    DownloadFile.onEvent env app
      (DownloadFile.mkInput host port path user (Some "text")) s1
    = (Normal tt, s2) ->
    emitted s2 = emitted s1 ++ [DownloadOutput C' path size p m] ->
    C' = C.

(** A code point that is a scalar value: in range and not a surrogate. *)
Definition scalar (cp : N) : Prop :=
  (cp < 0x110000)%N /\ (cp < 0xD800 \/ 0xDFFF < cp)%N.


(** A configuration value that was not given, or given empty. *)
Definition absent (x : option string) : Prop := truthy x = false.

(** The options a block connects with. *)
Definition connect_options (app : App.Config) (r : Request) : ConnectConfig :=
  mkConnect (request_host r)
    (str (effective_username (request_username r) (App.username app)))
    (request_port r) (str (App.privateKey app)) None.

(* ===================================================================== *)
(** * Properties of computations                                          *)
(* ===================================================================== *)

(** A computation only ever appends to the trace. *)
Definition grows {A} (m : M A) : Prop :=
  forall s, exists l, trace (snd (m s)) = trace s ++ l.

(** A computation completes normally without a call. *)
Definition silent {A} (m : M A) : Prop :=
  forall s, exists a s', m s = (Normal a, s') /\ trace s' = trace s.

(** A computation leaves a component of the state as it was. *)
Definition keeps {X A} (f : State -> X) (m : M A) : Prop :=
  forall s, f (snd (m s)) = f s.

(** A computation takes every state to one related to it, on either
    completion. *)
Definition respects {A} (R : State -> State -> Prop) (m : M A) : Prop :=
  forall s, R s (snd (m s)).

(** The local disk changes at one path at most, and [tempFilePath] not at
    all. *)
Definition stages (path : string) (s s' : State) : Prop :=
  tempFilePath s' = tempFilePath s /\
  (localFs s' = localFs s \/ exists d, localFs s' = <[path := d]> (localFs s)).


(** A computation always completes normally. *)
Definition never_throws {A} (m : M A) : Prop :=
  forall s, exists a, fst (m s) = Normal a.

(** The first call a computation makes is [e]. *)
Definition starts_with {A} (e : Event) (m : M A) : Prop :=
  forall s, exists l, trace (snd (m s)) = trace s ++ e :: l.


(* ===================================================================== *)
(** * Further properties of computations                                  *)
(* ===================================================================== *)

(** The calls a computation adds to the trace all pass a test. *)
Definition only (Q : Event -> Prop) (s s' : State) : Prop :=
  exists l, trace s' = trace s ++ l /\ Forall Q l.

(** A computation that completes normally has emitted one payload, and one
    that throws has emitted none. *)
Definition emits_once {A} (m : M A) : Prop :=
  forall s,
    match fst (m s) with
    | Normal _ => exists o, emitted (snd (m s)) = emitted s ++ [o]
    | Throws _ => emitted (snd (m s)) = emitted s
    end.

(** The calls that open and close a session. *)
Definition is_session_event (e : Event) : bool :=
  match e with
  | EvConnect _ | EvDispose => true
  | _ => false
  end.

(** The commands Host Metadata sends. *)
Definition metadataCommands : list string :=
  [ "hostname"; "uname -s"; "uname -r"; "uname -m";
    "cat /proc/uptime 2>/dev/null || uptime";
    "cat /proc/loadavg 2>/dev/null || uptime | grep -o 'load average[s]*: [0-9.]*[, ]*[0-9.]*[, ]*[0-9.]*' | sed 's/load average[s]*: //'";
    "cat /proc/meminfo 2>/dev/null || vm_stat" ].

(** A path of a staging file of Upload File, and of Download File. *)
Definition upload_staging (env : Env) (p : string) : Prop :=
  exists now random, p = UploadFile.tempName env now random.
Definition download_staging (env : Env) (p : string) : Prop :=
  exists now random, p = DownloadFile.tempName env now random.

(** The calls a block may make, for a request handled from a state: the
    connection with the options of the request, the closing of the session,
    and
    - Execute Command: the command of the caller in its working directory;
    - Execute Script: the four commands on its script file;
    - Upload File: writing, sending, measuring and removing a staging file,
      sending it to the destination, and [chmod] when permissions are given;
    - Download File: fetching the source into a staging file, reading,
      measuring and removing it, and [stat] on the source;
    - Host Metadata: its seven fixed commands. *)
Definition allowed (env : Env) (app : App.Config) (r : Request) (s : State)
    (e : Event) : Prop :=
  match e with
  | EvDispose => True
  | EvConnect c =>
      c = mkConnect (request_host r)
            (str (js_or (request_username r) (App.username app)))
            (request_port r) (str (App.privateKey app)) None
  | EvExec c w =>
      match r with
      | executeCommand inp =>
          c = ExecuteCommand.command inp /\
          w = ExecuteCommand.workingDirectory inp
      | executeScript inp =>
          (c = ExecuteScript.create env inp s /\ w = None) \/
          (c = ExecuteScript.chmod env s /\ w = None) \/
          (c = ExecuteScript.run env inp s /\
           w = ExecuteScript.workingDirectory inp) \/
          (c = ExecuteScript.removeCommand (ExecuteScript.tempFile env s) /\
           w = None)
      | uploadFile inp =>
          truthy (UploadFile.permissions inp) = true /\
          c = UploadFile.chmodCommand (str (UploadFile.permissions inp))
                (UploadFile.destinationPath inp) /\
          w = None
      | downloadFile inp =>
          c = DownloadFile.statCommand (DownloadFile.sourcePath inp) /\ w = None
      | hostMetadata _ => In c metadataCommands /\ w = None
      end
  | EvPutFile l d =>
      match r with
      | uploadFile inp =>
          upload_staging env l /\ d = UploadFile.destinationPath inp
      | _ => False
      end
  | EvGetFile l d =>
      match r with
      | downloadFile inp =>
          download_staging env l /\ d = DownloadFile.sourcePath inp
      | _ => False
      end
  | EvWriteFile p =>
      match r with
      | uploadFile _ => upload_staging env p
      | _ => False
      end
  | EvReadFile p =>
      match r with
      | downloadFile _ => download_staging env p
      | _ => False
      end
  | EvStat p | EvUnlink p =>
      match r with
      | uploadFile _ => upload_staging env p
      | downloadFile _ => download_staging env p
      | _ => False
      end
  end.

(** A call that neither opens nor closes the session. *)
Definition no_session_call (e : Event) : Prop := is_session_event e = false.

(** The calls a computation adds close the session exactly once and never
    open one. *)
Definition closes (s s' : State) : Prop :=
  exists l, trace s' = trace s ++ l /\
            List.filter is_session_event l = [EvDispose].

(** The calls a run adds start with [ssh.connect] with the given options;
    the only other call on the session is one [ssh.dispose]. *)
Definition one_session (c : ConnectConfig) (s s' : State) : Prop :=
  exists l, trace s' = trace s ++ EvConnect c :: l /\
            List.filter is_session_event l = [EvDispose].

(** The five commands of Host Metadata that are sent outside a [try] of
    their own. *)
Definition unguardedCommands : list string :=
  [ "hostname"; "uname -s"; "uname -r"; "uname -m";
    "cat /proc/uptime 2>/dev/null || uptime" ].

(** What makes a connection without a host verifier fail: the server is
    not reached, or it refuses the user. *)
Definition ConnectFault (env : Env) (host : string) (port : Z) (e : JsError)
  : Prop :=
  (exists s, resolve env host port s = inl e) \/
  e = mkError "All configured authentication methods failed".

(** The channel of one of the given commands breaks. *)
Definition ChannelFault (env : Env) (cmds : list string) (e : JsError)
  : Prop :=
  exists cmd s, In cmd cmds /\ fst (remoteExec env cmd None s) = inl e.

(** The remote shell answers a command with the same result at any time. *)
Definition replies (env : Env) (cmd : string) (r : ExecResult) : Prop :=
  forall s, fst (remoteExec env cmd None s) = inr r.

Definition memoryCommand : string := "cat /proc/meminfo 2>/dev/null || vm_stat".

Module Probes.
(** A host on which [uname -r] is not found and every other command
    prints a padded [Linux]. *)
Definition reply : string -> JsError + ExecResult :=
  fun cmd =>
    if String.eqb cmd "uname -r" then inr (mkExec "" "not found" (Some 127))
    else inr (mkExec " Linux " "" (Some 0)).

(** A host on which the channel of the load average and of the memory
    command breaks. *)
Definition guarded_break : string -> JsError + ExecResult :=
  fun cmd =>
    if String.eqb cmd Sample.loadavgCommand || String.eqb cmd memoryCommand
    then inl (mkError "Channel open failure")
    else inr (mkExec " Linux " "" (Some 0)).
End Probes.

Module Faults.
(** An app whose key the sample server does not accept. *)
Definition wrongKey : App.Config :=
  App.mkConfig (Some "OTHER") (Some "deploy") None None.

(** A remote shell without [stat -c]: it prints nothing on the standard
    output and exits with 1. *)
Definition noStat : string -> JsError + ExecResult :=
  fun _ => inr (mkExec "" "stat: illegal option -- c" (Some 1)).

(** A download of the file of [Sample.binary]. *)
Definition download : DownloadFile.Input :=
  DownloadFile.mkInput "h" 22 "/srv/blob" None (Some "base64").
End Faults.

(** A string with every surrogate that is not half of a pair replaced by
    U+FFFD ([String.prototype.toWellFormed]). *)
Fixpoint toWellFormed (s : jsstring) : jsstring :=
  match s with
  | [] => []
  | c :: rest =>
      if is_high c then
        match rest with
        | d :: rest' =>
            if is_low d then c :: d :: toWellFormed rest'
            else 0xFFFD%N :: toWellFormed rest
        | [] => [0xFFFD%N]
        end
      else if is_low c then 0xFFFD%N :: toWellFormed rest
      else c :: toWellFormed rest
  end.

(** The code units of a JavaScript string are 16-bit numbers. *)
Definition code_units (s : jsstring) : Prop :=
  Forall (fun c => (c < 0x10000)%N) s.

(** A call of a protocol: the mark it leaves on the trace and, from a
    state, the error it is rejected with, if it is, and the state after
    it. *)
Definition Call : Type := (Event * (State -> option JsError * State))%type.

Definition call {A} (ev : Event) (m : M A) : Call :=
  (ev,
   fun s =>
     (match fst (m s) with Normal _ => None | Throws e => Some e end,
      snd (m s))).

(** The calls of a list attempted in order from a state, up to and
    including the first that is rejected: the marks of the calls made, and
    the error of the one rejected, if one was. *)
Fixpoint attempt (calls : list Call) (s : State)
  : list Event * option JsError :=
  match calls with
  | [] => ([], None)
  | (ev, run) :: rest =>
      match run s with
      | (Some e, _) => ([ev], Some e)
      | (None, s1) => let (l, o) := attempt rest s1 in (ev :: l, o)
      end
  end.

(** A computation run on an open session makes the calls of a list as
    [attempt] does: when one is rejected it throws the error of that call,
    having made no call after it; when none is, it goes on to make the
    calls of [tail] and completes as [Q] says.  The session stays open and
    [tempFilePath] as it was. *)
Definition performs {A} (Q : Completion A -> Prop) (tail : list Event)
    (calls : list Call) (m : M A) : Prop :=
  forall s,
    session s = true ->
    session (snd (m s)) = true /\
    tempFilePath (snd (m s)) = tempFilePath s /\
    match attempt calls s with
    | (l, Some e) => trace (snd (m s)) = trace s ++ l /\ fst (m s) = Throws e
    | (l, None) => trace (snd (m s)) = trace s ++ l ++ tail /\ Q (fst (m s))
    end.

(** The three commands of Execute Script between the opening and the
    closing of the session. *)
Definition scriptCalls (env : Env) (inp : ExecuteScript.Input) (s : State)
  : list Call :=
  [ call (EvExec (ExecuteScript.create env inp s) None)
      (ssh_execCommand env (ExecuteScript.create env inp s) None);
    call (EvExec (ExecuteScript.chmod env s) None)
      (ssh_execCommand env (ExecuteScript.chmod env s) None);
    call (EvExec (ExecuteScript.run env inp s)
            (ExecuteScript.workingDirectory inp))
      (ssh_execCommand env (ExecuteScript.run env inp s)
         (ExecuteScript.workingDirectory inp)) ].

(** Upload File once the server is reached: the state after the
    connection, the name of the staging file, the state in which the
    staging file is written, and the calls from there to the closing of
    the session. *)
Definition uploadConnected (env : Env) (app : App.Config)
    (inp : UploadFile.Input) (s : State) : State :=
  set_session true
    (record env
       (EvConnect
          (mkConnect (UploadFile.host inp)
             (str (js_or (UploadFile.username inp) (App.username app)))
             (UploadFile.port inp) (str (App.privateKey app)) None))
       (set_tempFilePath None (set_session false s))).

Definition uploadPath (env : Env) (app : App.Config) (inp : UploadFile.Input)
    (s : State) : string :=
  UploadFile.tempName env (clock (uploadConnected env app inp s))
    (random36 env (uploadConnected env app inp s)).

Definition uploadStart (env : Env) (app : App.Config)
    (inp : UploadFile.Input) (s : State) : State :=
  set_tempFilePath (Some (uploadPath env app inp s))
    (uploadConnected env app inp s).

Definition uploadCalls (env : Env) (inp : UploadFile.Input) (path : string)
  : list Call :=
  [ call (EvWriteFile path)
      (fs_writeFile env path (UploadFile.fileContent inp));
    call (EvPutFile path (UploadFile.destinationPath inp))
      (ssh_putFile env path (UploadFile.destinationPath inp)) ]
    ++ (if truthy (UploadFile.permissions inp)
        then
          [ call
              (EvExec (UploadFile.chmodCommand (str (UploadFile.permissions inp))
                         (UploadFile.destinationPath inp)) None)
              (ssh_execCommand env
                 (UploadFile.chmodCommand (str (UploadFile.permissions inp))
                    (UploadFile.destinationPath inp)) None) ]
        else [])
    ++ [ call (EvStat path) (fs_stat env path) ].

(** The same for Download File. *)
Definition downloadConnected (env : Env) (app : App.Config)
    (inp : DownloadFile.Input) (s : State) : State :=
  set_session true
    (record env
       (EvConnect
          (mkConnect (DownloadFile.host inp)
             (str (js_or (DownloadFile.username inp) (App.username app)))
             (DownloadFile.port inp) (str (App.privateKey app)) None))
       (set_tempFilePath None (set_session false s))).

Definition downloadPath (env : Env) (app : App.Config)
    (inp : DownloadFile.Input) (s : State) : string :=
  DownloadFile.tempName env (clock (downloadConnected env app inp s))
    (random36 env (downloadConnected env app inp s)).

Definition downloadStart (env : Env) (app : App.Config)
    (inp : DownloadFile.Input) (s : State) : State :=
  set_tempFilePath (Some (downloadPath env app inp s))
    (downloadConnected env app inp s).

Definition downloadCalls (env : Env) (inp : DownloadFile.Input)
    (path : string) : list Call :=
  [ call (EvGetFile path (DownloadFile.sourcePath inp))
      (ssh_getFile env path (DownloadFile.sourcePath inp));
    call (EvReadFile path) (fs_readFile env path);
    call (EvStat path) (fs_stat env path);
    call (EvExec (DownloadFile.statCommand (DownloadFile.sourcePath inp)) None)
      (ssh_execCommand env
         (DownloadFile.statCommand (DownloadFile.sourcePath inp)) None) ].

(** Host Metadata once the server is reached: the state after the
    connection, and the five commands sent outside a [try] of their own. *)
Definition metadataConnected (env : Env) (app : App.Config)
    (cfg : HostMetadata.Config) (s : State) : State :=
  set_session true
    (record env
       (EvConnect
          (mkConnect (HostMetadata.host cfg)
             (str (js_or (HostMetadata.username cfg) (App.username app)))
             (HostMetadata.port cfg) (str (App.privateKey app)) None))
       (set_session false s)).

Definition unguardedCalls (env : Env) : list Call :=
  map (fun c => call (EvExec c None) (ssh_execCommand env c None))
    unguardedCommands.

Module Breaks.
(** The sample server with a remote shell on which the channel of the
    [chmod +x] of Execute Script breaks, and one on which every command is
    answered but no transfer gets through. *)
Definition onChmod : Env :=
  Sample.env 1
    (Sample.breaks_on
       (ExecuteScript.chmod (Sample.env 1 (Sample.ok "" 0) false) Sample.start)
       "")
    false.

Definition onTransfer : Env :=
  mkEnv "/tmp" (fun _ => "0.4fzyo82mvyrz") (fun _ => "2023-11-14T22:13:20.000Z")
    (fun _ _ => 1)
    (fun _ _ _ => inr Sample.server)
    (fun cmd _ s => (Sample.ok Sample.statLine 0 cmd, remoteFs s))
    (fun _ _ => Some (mkError "Connection lost", None))
    (fun _ _ => None).
End Breaks.
(* ===================================================================== *)
(** * The monad: how calls add to the trace                               *)
(* ===================================================================== *)

Lemma grows_ret {A} (a : A) : grows (ret a).
Proof. intros s. exists []. simpl. now rewrite app_nil_r. Qed.

Lemma grows_throw {A} (e : JsError) : grows (@throw A e).
Proof. intros s. exists []. simpl. now rewrite app_nil_r. Qed.

Lemma grows_bind {A B} (m : M A) (k : A -> M B) :
  grows m -> (forall a, grows (k a)) -> grows (bind m k).
Proof.
  intros Hm Hk s. unfold bind. destruct (Hm s) as [l Hl].
  destruct (m s) as [[a|e] s1]; simpl in *.
  - destruct (Hk a s1) as [l' Hl']. exists (l ++ l').
    now rewrite Hl', Hl, app_assoc.
  - now exists l.
Qed.

Lemma grows_try_finally {A} (body : M A) (fin : M unit) :
  grows body -> grows fin -> grows (try_finally body fin).
Proof.
  intros Hb Hf s. unfold try_finally. destruct (Hb s) as [l Hl].
  destruct (body s) as [c s1]; simpl in *.
  destruct (Hf s1) as [l' Hl'].
  exists (l ++ l'). destruct (fin s1) as [[[]|e] s2]; simpl in *;
    now rewrite Hl', Hl, app_assoc.
Qed.

Lemma grows_try_catch {A} (body : M A) (handler : JsError -> M A) :
  grows body -> (forall e, grows (handler e)) -> grows (try_catch body handler).
Proof.
  intros Hb Hh s. unfold try_catch. destruct (Hb s) as [l Hl].
  destruct (body s) as [[a|e] s1]; simpl in *.
  - now exists l.
  - destruct (Hh e s1) as [l' Hl']. exists (l ++ l').
    now rewrite Hl', Hl, app_assoc.
Qed.

Lemma grows_if {A} (b : bool) (m1 m2 : M A) :
  grows m1 -> grows m2 -> grows (if b then m1 else m2).
Proof. now destruct b. Qed.

Lemma silent_grows {A} (m : M A) : silent m -> grows m.
Proof.
  intros H s. destruct (H s) as (a & s' & E & T). exists [].
  rewrite E. simpl. now rewrite T, app_nil_r.
Qed.

Lemma starts_bind {A B} (e : Event) (m : M A) (k : A -> M B) :
  starts_with e m -> (forall a, grows (k a)) -> starts_with e (bind m k).
Proof.
  intros Hm Hk s. unfold bind. destruct (Hm s) as [l Hl].
  destruct (m s) as [[a|er] s1]; simpl in *.
  - destruct (Hk a s1) as [l' Hl']. exists (l ++ l').
    rewrite Hl', Hl, <- app_assoc. reflexivity.
  - now exists l.
Qed.

Lemma starts_after_silent {A B} (e : Event) (m : M A) (k : A -> M B) :
  silent m -> (forall a, starts_with e (k a)) -> starts_with e (bind m k).
Proof.
  intros Hm Hk s. unfold bind. destruct (Hm s) as (a & s1 & E & T).
  rewrite E. destruct (Hk a s1) as [l Hl]. exists l. now rewrite Hl, T.
Qed.

Lemma starts_try_finally {A} (e : Event) (body : M A) (fin : M unit) :
  starts_with e body -> grows fin -> starts_with e (try_finally body fin).
Proof.
  intros Hb Hf s. unfold try_finally. destruct (Hb s) as [l Hl].
  destruct (body s) as [c s1]; simpl in *.
  destruct (Hf s1) as [l' Hl'].
  exists (l ++ l'). destruct (fin s1) as [[[]|er] s2]; simpl in *;
    rewrite Hl', Hl, <- app_assoc; reflexivity.
Qed.

Lemma starts_try_catch {A} (e : Event) (body : M A) (handler : JsError -> M A) :
  starts_with e body -> (forall er, grows (handler er)) ->
  starts_with e (try_catch body handler).
Proof.
  intros Hb Hh s. unfold try_catch. destruct (Hb s) as [l Hl].
  destruct (body s) as [[a|er] s1]; simpl in *.
  - now exists l.
  - destruct (Hh er s1) as [l' Hl']. exists (l ++ l').
    rewrite Hl', Hl, <- app_assoc. reflexivity.
Qed.

(** ** The primitives *)

Lemma silent_new_NodeSSH : silent new_NodeSSH.
Proof. intros s. now eexists _, _. Qed.

Lemma silent_Date_now : silent Date_now.
Proof. intros s. now eexists _, _. Qed.

Lemma silent_Math_random36 env : silent (Math_random36 env).
Proof. intros s. now eexists _, _. Qed.

Lemma silent_assign_tempFilePath p : silent (assign_tempFilePath p).
Proof. intros s. now eexists _, _. Qed.

Lemma silent_read_tempFilePath : silent read_tempFilePath.
Proof. intros s. now eexists _, _. Qed.

Lemma silent_console_warn line : silent (console_warn line).
Proof. intros s. now eexists _, _. Qed.

Lemma silent_events_emit o : silent (events_emit o).
Proof. intros s. now eexists _, _. Qed.

Lemma silent_ret {A} (a : A) : silent (ret a).
Proof. intros s. now eexists _, _. Qed.

Lemma starts_ssh_connect env cfg : starts_with (EvConnect cfg) (ssh_connect env cfg).
Proof.
  intros s. exists []. unfold ssh_connect.
  destruct (resolve env _ _ s) as [e|srv]; [reflexivity|].
  destruct (match cc_hostVerifier cfg with Some v => v (hostKey srv) | None => true end);
    [destruct (authorizes srv _ _)|]; reflexivity.
Qed.

Lemma starts_grows {A} e (m : M A) : starts_with e m -> grows m.
Proof. intros H s. destruct (H s) as [l Hl]. now exists (e :: l). Qed.

Lemma grows_ssh_execCommand env cmd cwd : grows (ssh_execCommand env cmd cwd).
Proof.
  intros s. unfold ssh_execCommand. destruct (session s).
  - exists [EvExec cmd cwd]. now destruct (remoteExec env cmd cwd s) as [[e|r] fs].
  - exists []. simpl. now rewrite app_nil_r.
Qed.

Lemma grows_ssh_putFile env l r : grows (ssh_putFile env l r).
Proof.
  intros s. unfold ssh_putFile. destruct (session s).
  - exists [EvPutFile l r].
    destruct (sftpFault env _ s) as [[e [d|]]|]; [reflexivity|reflexivity|].
    now destruct (localFs s !! l).
  - exists []. simpl. now rewrite app_nil_r.
Qed.

Lemma grows_ssh_getFile env l r : grows (ssh_getFile env l r).
Proof.
  intros s. unfold ssh_getFile. destruct (session s).
  - exists [EvGetFile l r].
    destruct (sftpFault env _ s) as [[e [d|]]|]; [reflexivity|reflexivity|].
    now destruct (remoteFs s !! r).
  - exists []. simpl. now rewrite app_nil_r.
Qed.

Lemma grows_ssh_dispose env : grows (ssh_dispose env).
Proof. intros s. now exists [EvDispose]. Qed.

Lemma grows_fs_writeFile env p d : grows (fs_writeFile env p d).
Proof.
  intros s. exists [EvWriteFile p]. unfold fs_writeFile.
  now destruct (fsFault env _ s).
Qed.

Lemma grows_fs_readFile env p : grows (fs_readFile env p).
Proof.
  intros s. exists [EvReadFile p]. unfold fs_readFile.
  destruct (fsFault env _ s); [reflexivity|]. now destruct (localFs s !! p).
Qed.

Lemma grows_fs_stat env p : grows (fs_stat env p).
Proof.
  intros s. exists [EvStat p]. unfold fs_stat.
  destruct (fsFault env _ s); [reflexivity|]. now destruct (localFs s !! p).
Qed.

Lemma grows_fs_unlink env p : grows (fs_unlink env p).
Proof.
  intros s. exists [EvUnlink p]. unfold fs_unlink.
  destruct (fsFault env _ s); [reflexivity|]. now destruct (localFs s !! p).
Qed.

Lemma grows_Date_toISOString env t : grows (Date_toISOString env t).
Proof.
  unfold Date_toISOString. destruct t as [ms|]; [|apply grows_throw].
  destruct (Z.abs ms <=? _)%Z; [apply grows_ret|apply grows_throw].
Qed.

Create HintDb trace_db.
#[local] Hint Resolve grows_ret grows_throw grows_bind grows_try_finally
  grows_try_catch grows_if grows_ssh_execCommand grows_ssh_putFile
  grows_ssh_getFile grows_ssh_dispose grows_fs_writeFile grows_fs_readFile
  grows_fs_stat grows_fs_unlink grows_Date_toISOString : trace_db.
#[local] Hint Resolve silent_new_NodeSSH silent_Date_now silent_Math_random36
  silent_assign_tempFilePath silent_read_tempFilePath silent_console_warn
  silent_events_emit silent_ret : trace_db.
#[local] Hint Extern 2 (grows _) => (apply silent_grows) : trace_db.

Create HintDb blocks.
#[local] Hint Unfold
  ExecuteCommand.onEvent ExecuteCommand.body
  ExecuteScript.onEvent ExecuteScript.body ExecuteScript.cleanup
  UploadFile.onEvent UploadFile.body UploadFile.cleanup
  DownloadFile.onEvent DownloadFile.body DownloadFile.cleanup
  HostMetadata.onSync HostMetadata.body HostMetadata.probeLoadAverage
  HostMetadata.probeMemory HostMetadata.parseUptime : blocks.

(** Writes the trace-growth proof of a handler from its syntax. *)
Ltac grow :=
  repeat
    match goal with
    | |- forall _, _ => intro
    | |- grows (bind _ _) => apply grows_bind
    | |- grows (try_finally _ _) => apply grows_try_finally
    | |- grows (try_catch _ _) => apply grows_try_catch
    | |- grows (if _ then _ else _) => apply grows_if
    | |- grows (match ?x with _ => _ end) => destruct x
    | |- grows (let _ := _ in _) => cbv zeta
    | |- grows (ssh_connect _ _) => eapply starts_grows; apply starts_ssh_connect
    | |- grows _ => solve [ auto with trace_db ]
    end.


(** Finds the first call of a handler from its syntax. *)
Ltac start :=
  repeat
    match goal with
    | |- forall _, _ => intro
    | |- starts_with _ (ssh_connect _ _) => apply starts_ssh_connect
    | |- starts_with _ (try_finally _ _) =>
        apply starts_try_finally; [| solve [grow] ]
    | |- starts_with _ (try_catch _ _) =>
        apply starts_try_catch; [| solve [grow] ]
    | |- starts_with _ (bind _ _) =>
        first [ apply starts_after_silent; [ solve [auto with trace_db] |]
              | apply starts_bind; [| solve [grow] ] ]
    | |- starts_with _ (let _ := _ in _) => cbv zeta
    end.

(** ** The merge of the two usernames *)

Lemma js_or_effective (perCall appDefault : option string) :
  js_or perCall appDefault = effective_username perCall appDefault.
Proof.
  unfold js_or, effective_username, truthy.
  destruct perCall as [u|]; [|reflexivity]. now destruct (String.eqb u "").
Qed.

Lemma truthy_js_or_false (u d : option string) :
  truthy (js_or u d) = false <-> absent u /\ absent d.
Proof.
  unfold js_or, absent. destruct (truthy u) eqn:E.
  - rewrite E. split; [discriminate | intros [? _]; discriminate].
  - tauto.
Qed.

(** C2. For each of the five blocks: when the private key of the app is
    absent, or when neither the per-call nor the app-level username is
    given, the invocation reports a configuration fault and leaves the
    machine state as it found it: no call was made, on the network or
    elsewhere. *)
Theorem configuration_fault_before_network
    (P : HostMetadata.Parsers) (env : Env) (app : App.Config) (r : Request)
    (s : State) :
  absent (App.privateKey app) \/
  (absent (request_username r) /\ absent (App.username app)) ->
  exists d,
    ConfigurationFault d /\
    failure (fst (handle P env app r s)) = Some d /\
    snd (handle P env app r s) = s.
Proof.
  intros H.
  assert (Hc : truthy (App.privateKey app) = false \/
               (truthy (App.privateKey app) = true /\
                truthy (js_or (request_username r) (App.username app)) = false)).
  { destruct (truthy (App.privateKey app)) eqn:E; [right|now left].
    split; [reflexivity|]. apply truthy_js_or_false.
    destruct H as [H|H]; [unfold absent in H; congruence|exact H]. }
  unfold ConfigurationFault.
  destruct r; cbn [handle request_username] in *; unfold bind;
    [ unfold ExecuteCommand.onEvent | unfold ExecuteScript.onEvent
    | unfold UploadFile.onEvent | unfold DownloadFile.onEvent
    | unfold HostMetadata.onSync ];
    destruct Hc as [-> | [-> ->]]; cbn; eauto 6.
Qed.

Lemma configuration_fault_before_network_witness :
  (absent (App.privateKey Sample.keyless) \/
   (absent (request_username
              (uploadFile (UploadFile.mkInput "h" 22 [] "/srv/a" None None None))) /\
    absent (App.username Sample.keyless))) /\
  exists d,
    ConfigurationFault d /\
    failure (fst (handle Sample.parsers (Sample.env 1 (Sample.ok "" 0) false)
                    Sample.keyless
                    (uploadFile (UploadFile.mkInput "h" 22 [] "/srv/a" None None None))
                    Sample.start)) = Some d /\
    snd (handle Sample.parsers (Sample.env 1 (Sample.ok "" 0) false)
           Sample.keyless
           (uploadFile (UploadFile.mkInput "h" 22 [] "/srv/a" None None None))
           Sample.start) = Sample.start.
Proof.
  split.
  - left. reflexivity.
  - apply configuration_fault_before_network. left. reflexivity.
Defined.

(** C10. In each of the five blocks the username the connection is opened
    with is the per-call username when that is a non-empty string, and the
    default of the app otherwise; an empty per-call username does not
    override the default.  The merge [username || defaultUsername] of the
    handlers is [effective_username], and the first call of a block with a
    private key and a username is [ssh.connect] with that username. *)
Theorem effective_username_connects
    (P : HostMetadata.Parsers) (env : Env) (app : App.Config) (r : Request)
    (s : State) :
  truthy (App.privateKey app) = true ->
  truthy (effective_username (request_username r) (App.username app)) = true ->
  js_or (request_username r) (App.username app)
    = effective_username (request_username r) (App.username app) /\
  effective_username (Some "") (App.username app) = App.username app /\
  exists rest,
    trace (snd (handle P env app r s))
      = trace s ++ EvConnect (connect_options app r) :: rest.
Proof.
  intros Hk Hu. split; [apply js_or_effective|]. split; [reflexivity|].
  rewrite <- js_or_effective in Hu.
  assert (St : starts_with (EvConnect (connect_options app r)) (handle P env app r)).
  { unfold connect_options. rewrite <- js_or_effective.
    destruct r; cbn [handle request_username request_host request_port] in *;
      autounfold with blocks; rewrite Hk, Hu; cbn [negb]; start. }
  apply St.
Qed.

Lemma effective_username_connects_witness :
  truthy (App.privateKey Sample.app) = true /\
  truthy (effective_username
            (request_username
               (executeCommand (ExecuteCommand.mkInput "h" 22 "id" (Some "") None)))
            (App.username Sample.app)) = true /\
  exists rest,
    trace (snd (handle Sample.parsers (Sample.env 1 (Sample.ok "" 0) false)
                  Sample.app
                  (executeCommand (ExecuteCommand.mkInput "h" 22 "id" (Some "") None))
                  Sample.start))
      = trace Sample.start
          ++ EvConnect (mkConnect "h" "deploy" 22 "KEY" None) :: rest.
Proof.
  split; [reflexivity|]. split; [reflexivity|].
  apply (effective_username_connects Sample.parsers
           (Sample.env 1 (Sample.ok "" 0) false) Sample.app
           (executeCommand (ExecuteCommand.mkInput "h" 22 "id" (Some "") None))
           Sample.start); reflexivity.
Defined.

(** ** Host keys *)

(** The client does reject a server whose key the verifier refuses, and
    it does so before the user is authenticated: nothing is asked of
    [authorizes]. *)
Lemma ssh_connect_enforces env cfg verify srv s :
  cc_hostVerifier cfg = Some verify ->
  resolve env (cc_host cfg) (cc_port cfg) s = inr srv ->
  verify (hostKey srv) = false ->
  fst (ssh_connect env cfg s) = Throws (mkError "Host denied (verification failed)") /\
  session (snd (ssh_connect env cfg s)) = session s.
Proof.
  intros Hv Hr Hk. unfold ssh_connect. rewrite Hr, Hv, Hk. split; reflexivity.
Qed.

(** No block reads [knownHosts]: two configurations of the app that differ
    only there are handled alike. *)
Lemma knownHosts_ignored P env key user port kh1 kh2 r :
  handle P env (App.mkConfig key user port kh1) r
  = handle P env (App.mkConfig key user port kh2) r.
Proof. destruct r; reflexivity. Qed.

(** C1. With the host key [expected-key] on record for the host [h] and a
    server at [h] that presents [server-key], Execute Command connects
    without a host key verifier, runs the command and emits its result:
    the mismatch does not fail the connection. *)
Theorem known_hosts_mismatch_still_connects :
  (App.knownHosts Sample.pinned ≫= (fun kh => kh !! "h")) = Some "expected-key" /\
  hostKey Sample.server <> "expected-key" /\
  fst (ExecuteCommand.onEvent (Sample.env 1 (Sample.ok "uid=1000" 0) false)
         Sample.pinned (ExecuteCommand.mkInput "h" 22 "id" None None)
         Sample.start) = Normal tt /\
  emitted (snd (ExecuteCommand.onEvent
                  (Sample.env 1 (Sample.ok "uid=1000" 0) false)
                  Sample.pinned (ExecuteCommand.mkInput "h" 22 "id" None None)
                  Sample.start))
    = [CommandOutput "uid=1000" "" (Some 0) 2] /\
  trace (snd (ExecuteCommand.onEvent
                (Sample.env 1 (Sample.ok "uid=1000" 0) false)
                Sample.pinned (ExecuteCommand.mkInput "h" 22 "id" None None)
                Sample.start))
    = [EvConnect (mkConnect "h" "deploy" 22 "KEY" None); EvExec "id" None;
       EvDispose].
Proof.
  split; [reflexivity|]. split; [discriminate|].
  split; [vm_compute; reflexivity|]. split; vm_compute; reflexivity.
Qed.

(** ** The default encoding of Download File *)

Lemma download_default_is_text inp :
  DownloadFile.encoding inp = None ->
  DownloadFile.encoding (DownloadFile.withDefaults inp) = Some "text" /\
  is_base64 (DownloadFile.encoding (DownloadFile.withDefaults inp)) = false.
Proof. intros H. unfold DownloadFile.withDefaults. cbn. rewrite H. now split. Qed.

(** C8. A download invoked without [encoding], of a file that holds the
    single byte [0xFF]: the content emitted is the file read as UTF-8 text
    (one replacement character), not its base64 text [/w==]. *)
Theorem download_without_encoding_is_text :
  emitted (snd (DownloadFile.invoke
                  (Sample.env 1 (Sample.ok Sample.statLine 0) false) Sample.app
                  (DownloadFile.mkInput "h" 22 "/srv/blob" None None)
                  Sample.binary))
    = [DownloadOutput [0xFFFD%N] "/srv/blob" 1 "644" "2023-11-14T22:13:20.000Z"] /\
  base64_encode [xff] = [47; 119; 61; 61]%N /\
  utf8_decode [xff] <> base64_encode [xff].
Proof.
  split; [vm_compute; reflexivity|]. split; [reflexivity|]. discriminate.
Qed.

(* ===================================================================== *)
(** * The monad: running a handler step by step                           *)
(* ===================================================================== *)

Lemma pairing {A} (m : M A) (s : State) : m s = (fst (m s), snd (m s)).
Proof. now destruct (m s). Qed.

Lemma bind_normal {A B} (m : M A) (k : A -> M B) s a s1 :
  m s = (Normal a, s1) -> bind m k s = k a s1.
Proof. intros E. unfold bind. now rewrite E. Qed.

Lemma bind_throws {A B} (m : M A) (k : A -> M B) s e s1 :
  m s = (Throws e, s1) -> bind m k s = (Throws e, s1).
Proof. intros E. unfold bind. now rewrite E. Qed.

Lemma try_finally_run {A} (body : M A) (fin : M unit) s c s1 s2 :
  body s = (c, s1) -> fin s1 = (Normal tt, s2) ->
  try_finally body fin s = (c, s2).
Proof. intros E1 E2. unfold try_finally. now rewrite E1, E2. Qed.

(** A finaliser that never throws leaves the completion of the body in
    place. *)
Lemma try_finally_completion {A} (body : M A) (fin : M unit) s :
  never_throws fin -> fst (try_finally body fin s) = fst (body s).
Proof.
  intros Hf. unfold try_finally. destruct (body s) as [c s1].
  destruct (Hf s1) as [[] E]. now destruct (fin s1) as [[[]|e] s2].
Qed.

(** ** What a computation leaves alone *)

Lemma keeps_ret {X A} (f : State -> X) (a : A) : keeps f (ret a).
Proof. now intros s. Qed.

Lemma keeps_throw {X A} (f : State -> X) e : keeps f (@throw A e).
Proof. now intros s. Qed.

Lemma keeps_bind {X A B} (f : State -> X) (m : M A) (k : A -> M B) :
  keeps f m -> (forall a, keeps f (k a)) -> keeps f (bind m k).
Proof.
  intros Hm Hk s. unfold bind. specialize (Hm s).
  destruct (m s) as [[a|e] s1]; simpl in *; [|assumption].
  now rewrite Hk.
Qed.

Lemma keeps_try_finally {X A} (f : State -> X) (body : M A) (fin : M unit) :
  keeps f body -> keeps f fin -> keeps f (try_finally body fin).
Proof.
  intros Hb Hf s. unfold try_finally. specialize (Hb s).
  destruct (body s) as [c s1]. specialize (Hf s1).
  destruct (fin s1) as [[[]|e] s2]; simpl in *; congruence.
Qed.

Lemma keeps_try_catch {X A} (f : State -> X) (body : M A) handler :
  keeps f body -> (forall e, keeps f (handler e)) ->
  keeps f (try_catch body handler).
Proof.
  intros Hb Hh s. unfold try_catch. specialize (Hb s).
  destruct (body s) as [[a|e] s1]; simpl in *; [assumption|].
  now rewrite Hh.
Qed.

Lemma keeps_if {X A} (f : State -> X) (b : bool) (m1 m2 : M A) :
  keeps f m1 -> keeps f m2 -> keeps f (if b then m1 else m2).
Proof. now destruct b. Qed.

(** Settles [keeps] for a primitive by running it on every answer of the
    environment. *)
Ltac keep_primitive :=
  let s := fresh "s" in
  intros s;
  unfold new_NodeSSH, Date_now, Math_random36, assign_tempFilePath,
    read_tempFilePath, console_warn, events_emit, ssh_connect,
    ssh_execCommand, ssh_putFile, ssh_getFile, ssh_dispose, fs_writeFile,
    fs_readFile, fs_stat, fs_unlink, Date_toISOString, ret, throw;
  repeat match goal with
         | |- context [match ?x with _ => _ end] =>
             lazymatch x with
             | context [match _ with _ => _ end] => fail
             | _ => destruct x
             end
         end;
  reflexivity.

(** Settles [keeps] for a handler from its syntax. *)
Ltac keep :=
  autounfold with blocks;
  repeat
    match goal with
    | |- forall _, _ => intro
    | |- keeps _ (bind _ _) => apply keeps_bind
    | |- keeps _ (try_finally _ _) => apply keeps_try_finally
    | |- keeps _ (try_catch _ _) => apply keeps_try_catch
    | |- keeps _ (if _ then _ else _) => apply keeps_if
    | |- keeps _ (match ?x with _ => _ end) => destruct x
    | |- keeps _ (let _ := _ in _) => cbv zeta
    | |- keeps _ _ => solve [ keep_primitive ]
    end.

(** ** The calls that succeed *)

Lemma ssh_connect_normal env cfg s :
  fst (ssh_connect env cfg s) = Normal tt ->
  ssh_connect env cfg s
  = (Normal tt, set_session true (record env (EvConnect cfg) s)).
Proof.
  unfold ssh_connect. destruct (resolve env _ _ s) as [e|srv]; [discriminate|].
  destruct (match cc_hostVerifier cfg with Some v => v (hostKey srv) | None => true end);
    [destruct (authorizes srv _ _)|]; simpl; intros; congruence.
Qed.

Lemma ssh_execCommand_normal env cmd cwd s r :
  fst (ssh_execCommand env cmd cwd s) = Normal r ->
  session s = true /\
  fst (remoteExec env cmd cwd s) = inr r /\
  ssh_execCommand env cmd cwd s
  = (Normal r, set_remoteFs (snd (remoteExec env cmd cwd s))
                 (record env (EvExec cmd cwd) s)).
Proof.
  unfold ssh_execCommand. destruct (session s); [|discriminate].
  destruct (remoteExec env cmd cwd s) as [[e|r'] fs]; simpl; [discriminate|].
  intros [= ->]. auto.
Qed.

Lemma ssh_execCommand_answered env cmd cwd s r :
  session s = true -> fst (remoteExec env cmd cwd s) = inr r ->
  ssh_execCommand env cmd cwd s
  = (Normal r, set_remoteFs (snd (remoteExec env cmd cwd s))
                 (record env (EvExec cmd cwd) s)).
Proof.
  intros Hs Hr. unfold ssh_execCommand. rewrite Hs.
  destruct (remoteExec env cmd cwd s) as [[e|r'] fs]; simpl in *; congruence.
Qed.

(** ** The finalisers *)

Lemma ExecuteScript_cleanup_never_throws env tempFile :
  never_throws (ExecuteScript.cleanup env tempFile).
Proof.
  intros s. exists tt.
  unfold ExecuteScript.cleanup, bind, try_catch, ssh_execCommand, console_warn,
    ssh_dispose, ret.
  destruct (session s); [|reflexivity].
  now destruct (remoteExec env _ _ s) as [[e|r] fs].
Qed.

Lemma UploadFile_cleanup_never_throws env : never_throws (UploadFile.cleanup env).
Proof.
  intros s. exists tt.
  unfold UploadFile.cleanup, bind, try_catch, ssh_dispose, read_tempFilePath,
    fs_unlink, ret. cbn.
  destruct (truthy (tempFilePath s)); [|reflexivity].
  unfold record; cbn.
  destruct (fsFault env (EvUnlink (str (tempFilePath s))) _); [reflexivity|].
  now destruct (localFs s !! str (tempFilePath s)).
Qed.

Lemma DownloadFile_cleanup_never_throws env :
  never_throws (DownloadFile.cleanup env).
Proof. exact (UploadFile_cleanup_never_throws env). Qed.

Lemma ssh_dispose_never_throws env : never_throws (ssh_dispose env).
Proof. intros s. now exists tt. Qed.

Lemma never_throws_run (m : M unit) s :
  never_throws m -> m s = (Normal tt, snd (m s)).
Proof.
  intros H. destruct (H s) as [[] E]. rewrite (pairing m s) at 1. now rewrite E.
Qed.

Lemma keeps_emitted_script_cleanup env tempFile :
  keeps emitted (ExecuteScript.cleanup env tempFile).
Proof. keep. Qed.

(** ** Execute Script *)

Lemma normal_run {A} (m : M A) s a :
  fst (m s) = Normal a -> m s = (Normal a, snd (m s)).
Proof. intros E. rewrite (pairing m s) at 1. now rewrite E. Qed.

Lemma ssh_connect_clock env cfg s :
  clock (snd (ssh_connect env cfg s)) = clock s + latency env (EvConnect cfg) s.
Proof.
  unfold ssh_connect. destruct (resolve env _ _ s) as [e|srv]; [reflexivity|].
  destruct (match cc_hostVerifier cfg with Some v => v (hostKey srv) | None => true end);
    [destruct (authorizes srv _ _)|]; reflexivity.
Qed.

Lemma ssh_execCommand_clock env cmd cwd s r :
  fst (ssh_execCommand env cmd cwd s) = Normal r ->
  clock (snd (ssh_execCommand env cmd cwd s))
  = clock s + latency env (EvExec cmd cwd) s.
Proof.
  intros H. destruct (ssh_execCommand_normal _ _ _ _ _ H) as (_ & _ & E).
  now rewrite E.
Qed.

Lemma keeps_emitted_ssh_connect env cfg : keeps emitted (ssh_connect env cfg).
Proof. keep. Qed.

Lemma keeps_emitted_ssh_execCommand env cmd cwd :
  keeps emitted (ssh_execCommand env cmd cwd).
Proof. keep. Qed.

Lemma ExecuteScript_run env app inp s r1 r2 r :
  truthy (App.privateKey app) = true ->
  truthy (js_or (ExecuteScript.username inp) (App.username app)) = true ->
  fst (ssh_connect env (ExecuteScript.options app inp)
         (ExecuteScript.at_connect s)) = Normal tt ->
  fst (ssh_execCommand env (ExecuteScript.create env inp s) None
         (ExecuteScript.at_create env app inp s)) = Normal r1 ->
  fst (ssh_execCommand env (ExecuteScript.chmod env s) None
         (ExecuteScript.at_chmod env app inp s)) = Normal r2 ->
  fst (ssh_execCommand env (ExecuteScript.run env inp s)
         (ExecuteScript.workingDirectory inp)
         (ExecuteScript.at_run env app inp s)) = Normal r ->
  exists s',
    ExecuteScript.onEvent env app inp s = (Normal tt, s') /\
    emitted s' = emitted s ++
      [CommandOutput (stdout r) (stderr r) (code r)
         (latency env (EvConnect (ExecuteScript.options app inp))
            (ExecuteScript.at_connect s)
          + latency env (EvExec (ExecuteScript.create env inp s) None)
              (ExecuteScript.at_create env app inp s)
          + latency env (EvExec (ExecuteScript.chmod env s) None)
              (ExecuteScript.at_chmod env app inp s)
          + latency env
              (EvExec (ExecuteScript.run env inp s)
                 (ExecuteScript.workingDirectory inp))
              (ExecuteScript.at_run env app inp s))].
Proof.
  intros Hk Hu H0 H1 H2 H3.
  eexists. split.
  - unfold ExecuteScript.onEvent. rewrite Hk, Hu. cbn [negb].
    cbn [bind new_NodeSSH Date_now Math_random36].
    eapply try_finally_run;
      [|apply never_throws_run, ExecuteScript_cleanup_never_throws].
    unfold ExecuteScript.body.
    rewrite (bind_normal _ _ _ _ _ (normal_run _ _ _ H0)).
    rewrite (bind_normal _ _ _ _ _ (normal_run _ _ _ H1)).
    rewrite (bind_normal _ _ _ _ _ (normal_run _ _ _ H2)).
    rewrite (bind_normal _ _ _ _ _ (normal_run _ _ _ H3)).
    cbn [bind Date_now events_emit]. reflexivity.
  - rewrite keeps_emitted_script_cleanup. cbn [emitted set_emitted].
    set (s4 := snd (ssh_execCommand env (ExecuteScript.run env inp s)
                      (ExecuteScript.workingDirectory inp)
                      (ExecuteScript.at_run env app inp s))).
    assert (Em : emitted s4 = emitted s).
    { unfold s4, ExecuteScript.at_run, ExecuteScript.at_chmod,
        ExecuteScript.at_create.
      now rewrite !keeps_emitted_ssh_execCommand, keeps_emitted_ssh_connect. }
    assert (Ck : clock s4 - clock (ExecuteScript.at_connect s)
                 = latency env (EvConnect (ExecuteScript.options app inp))
                     (ExecuteScript.at_connect s)
                   + latency env (EvExec (ExecuteScript.create env inp s) None)
                       (ExecuteScript.at_create env app inp s)
                   + latency env (EvExec (ExecuteScript.chmod env s) None)
                       (ExecuteScript.at_chmod env app inp s)
                   + latency env
                       (EvExec (ExecuteScript.run env inp s)
                          (ExecuteScript.workingDirectory inp))
                       (ExecuteScript.at_run env app inp s)).
    { unfold s4. rewrite (ssh_execCommand_clock _ _ _ _ _ H3).
      unfold ExecuteScript.at_run at 1.
      rewrite (ssh_execCommand_clock _ _ _ _ _ H2).
      unfold ExecuteScript.at_chmod at 1.
      rewrite (ssh_execCommand_clock _ _ _ _ _ H1).
      unfold ExecuteScript.at_create at 1. rewrite ssh_connect_clock. lia. }
    rewrite Em. change (clock (set_session false s))
      with (clock (ExecuteScript.at_connect s)).
    now rewrite Ck.
Qed.

(** C7, as stated, fails: where every call takes one millisecond, Execute
    Script reports four milliseconds, the time of connecting, staging,
    marking executable and running together, while the interpreter call
    took one. *)
Lemma duration_includes_staging : ~ duration_is_interpreter_step.
Proof.
  intros H.
  assert (E1 : ExecuteScript.onEvent (Sample.env 1 (Sample.ok "" 7) false)
                 Sample.app Sample.script Sample.start
               = (Normal tt,
                  snd (ExecuteScript.onEvent
                         (Sample.env 1 (Sample.ok "" 7) false)
                         Sample.app Sample.script Sample.start)))
    by (vm_compute; reflexivity).
  assert (E2 : emitted (snd (ExecuteScript.onEvent
                               (Sample.env 1 (Sample.ok "" 7) false)
                               Sample.app Sample.script Sample.start))
               = emitted Sample.start ++ [CommandOutput "" "" (Some 7) 4])
    by (vm_compute; reflexivity).
  destruct (H _ _ _ _ _ _ _ _ _ E1 E2) as (tempFile & s1 & E).
  discriminate E.
Qed.

(** C7, amended. When Execute Script gets through (the connection is
    opened, the script is staged, marked executable and run, each call
    returning), the duration it emits is the time from just before the
    connection is opened to the return of the interpreter call: the
    latencies of connecting, staging, marking executable and running,
    added up.  Only the removal of the script file falls outside. *)
Theorem script_duration_spans_connect_to_run
    (env : Env) (app : App.Config) (inp : ExecuteScript.Input) (s : State)
    (r1 r2 r : ExecResult) :
  truthy (App.privateKey app) = true ->
  truthy (js_or (ExecuteScript.username inp) (App.username app)) = true ->
  fst (ssh_connect env (ExecuteScript.options app inp)
         (ExecuteScript.at_connect s)) = Normal tt ->
  fst (ssh_execCommand env (ExecuteScript.create env inp s) None
         (ExecuteScript.at_create env app inp s)) = Normal r1 ->
  fst (ssh_execCommand env (ExecuteScript.chmod env s) None
         (ExecuteScript.at_chmod env app inp s)) = Normal r2 ->
  fst (ssh_execCommand env (ExecuteScript.run env inp s)
         (ExecuteScript.workingDirectory inp)
         (ExecuteScript.at_run env app inp s)) = Normal r ->
  exists s' out err c,
    ExecuteScript.onEvent env app inp s = (Normal tt, s') /\
    emitted s' = emitted s ++
      [CommandOutput out err c
         (latency env (EvConnect (ExecuteScript.options app inp))
            (ExecuteScript.at_connect s)
          + latency env (EvExec (ExecuteScript.create env inp s) None)
              (ExecuteScript.at_create env app inp s)
          + latency env (EvExec (ExecuteScript.chmod env s) None)
              (ExecuteScript.at_chmod env app inp s)
          + latency env
              (EvExec (ExecuteScript.run env inp s)
                 (ExecuteScript.workingDirectory inp))
              (ExecuteScript.at_run env app inp s))].
Proof.
  intros Hk Hu H0 H1 H2 H3.
  destruct (ExecuteScript_run env app inp s r1 r2 r Hk Hu H0 H1 H2 H3)
    as (s' & E & Em).
  exists s', (stdout r), (stderr r), (code r). split; assumption.
Qed.

Lemma script_duration_spans_connect_to_run_witness :
  exists s',
    ExecuteScript.onEvent (Sample.env 1 (Sample.ok "" 7) false) Sample.app
      Sample.script Sample.start = (Normal tt, s') /\
    emitted s' = [CommandOutput "" "" (Some 7) (1 + 1 + 1 + 1)].
Proof.
  destruct (script_duration_spans_connect_to_run
              (Sample.env 1 (Sample.ok "" 7) false) Sample.app Sample.script
              Sample.start (mkExec "" "" (Some 7)) (mkExec "" "" (Some 7))
              (mkExec "" "" (Some 7)))
    as (s' & out & err & c & E & Em); try (vm_compute; reflexivity).
  exists s'. split; [exact E|].
  assert (Hs : s' = snd (ExecuteScript.onEvent
                            (Sample.env 1 (Sample.ok "" 7) false) Sample.app
                            Sample.script Sample.start)) by now rewrite E.
  rewrite Hs. vm_compute. reflexivity.
Defined.

(** ** Where the errors of the command blocks come from *)

Lemma ssh_connect_throws env cfg s e :
  fst (ssh_connect env cfg s) = Throws e -> TransportFault env e.
Proof.
  unfold ssh_connect, TransportFault.
  destruct (resolve env _ _ s) as [e0|srv] eqn:R; simpl.
  - intros [= <-]. left. eauto.
  - destruct (match cc_hostVerifier cfg with Some v => v (hostKey srv) | None => true end);
      [destruct (authorizes srv _ _)|]; simpl; intros [= <-]; auto.
Qed.

Lemma ssh_connect_cases env cfg s :
  (exists e, ssh_connect env cfg s = (Throws e, record env (EvConnect cfg) s)
             /\ TransportFault env e) \/
  ssh_connect env cfg s
  = (Normal tt, set_session true (record env (EvConnect cfg) s)).
Proof.
  destruct (fst (ssh_connect env cfg s)) as [[]|e] eqn:E.
  - right. now apply ssh_connect_normal.
  - left. exists e. split; [|now apply (ssh_connect_throws env cfg s)].
    revert E. unfold ssh_connect.
    destruct (resolve env _ _ s) as [e0|srv]; simpl; [congruence|].
    destruct (match cc_hostVerifier cfg with Some v => v (hostKey srv) | None => true end);
      [destruct (authorizes srv _ _)|]; simpl; congruence.
Qed.

Lemma ssh_execCommand_cases env cmd cwd s :
  session s = true ->
  let s' := set_remoteFs (snd (remoteExec env cmd cwd s))
              (record env (EvExec cmd cwd) s) in
  (exists e, ssh_execCommand env cmd cwd s = (Throws e, s')
             /\ TransportFault env e) \/
  (exists r, ssh_execCommand env cmd cwd s = (Normal r, s')
             /\ fst (remoteExec env cmd cwd s) = inr r).
Proof.
  intros Hs. unfold ssh_execCommand, TransportFault. rewrite Hs.
  destruct (remoteExec env cmd cwd s) as [[e|r] fs] eqn:R; simpl.
  - left. exists e. split; [reflexivity|]. right. right. right.
    exists cmd, cwd, s. now rewrite R.
  - right. now exists r.
Qed.

Lemma ExecuteCommand_throws env app inp s e :
  fst (ExecuteCommand.onEvent env app inp s) = Throws e ->
  ConfigurationFault (message e) \/ TransportFault env e.
Proof.
  unfold ExecuteCommand.onEvent, ConfigurationFault.
  destruct (truthy (App.privateKey app)); cbn [negb];
    [|intros [= <-]; left; auto].
  destruct (truthy (js_or _ _)); cbn [negb]; [|intros [= <-]; left; auto].
  cbn [bind new_NodeSSH Date_now].
  rewrite try_finally_completion by apply ssh_dispose_never_throws.
  unfold ExecuteCommand.body.
  match goal with |- context [bind (ssh_connect ?e ?c) _ ?s0] =>
    destruct (ssh_connect_cases e c s0) as [(e0 & E & T)|E] end.
  - rewrite (bind_throws _ _ _ _ _ E). intros [= <-]. now right.
  - rewrite (bind_normal _ _ _ _ _ E).
    match goal with |- context [bind (ssh_execCommand ?e ?c ?w) _ ?s0] =>
      destruct (ssh_execCommand_cases e c w s0 eq_refl) as [(e0 & E1 & T)|(r & E1 & _)] end.
    + rewrite (bind_throws _ _ _ _ _ E1). intros [= <-]. now right.
    + rewrite (bind_normal _ _ _ _ _ E1). discriminate.
Qed.

(** Runs the next call of a command block on both of its completions. *)
Ltac step_connect :=
  match goal with
  | |- context [bind (ssh_connect ?e ?c) _ ?s0] =>
      let E := fresh "E" in
      let T := fresh "T" in
      let e0 := fresh "e" in
      destruct (ssh_connect_cases e c s0) as [(e0 & E & T)|E];
      [ rewrite (bind_throws _ _ _ _ _ E)
      | rewrite (bind_normal _ _ _ _ _ E) ]
  end.

Ltac step_exec :=
  match goal with
  | |- context [bind (ssh_execCommand ?e ?c ?w) _ ?s0] =>
      let E := fresh "E" in
      let T := fresh "T" in
      let e0 := fresh "e" in
      let r := fresh "r" in
      destruct (ssh_execCommand_cases e c w s0 eq_refl)
        as [(e0 & E & T)|(r & E & _)];
      [ rewrite (bind_throws _ _ _ _ _ E)
      | rewrite (bind_normal _ _ _ _ _ E) ]
  end.

Lemma ExecuteScript_throws env app inp s e :
  fst (ExecuteScript.onEvent env app inp s) = Throws e ->
  ConfigurationFault (message e) \/ TransportFault env e.
Proof.
  unfold ExecuteScript.onEvent, ConfigurationFault.
  destruct (truthy (App.privateKey app)); cbn [negb];
    [|intros [= <-]; left; auto].
  destruct (truthy (js_or _ _)); cbn [negb]; [|intros [= <-]; left; auto].
  cbn [bind new_NodeSSH Date_now Math_random36].
  rewrite try_finally_completion by apply ExecuteScript_cleanup_never_throws.
  unfold ExecuteScript.body.
  step_connect; [intros [= <-]; now right|].
  step_exec; [intros [= <-]; now right|].
  step_exec; [intros [= <-]; now right|].
  step_exec; [intros [= <-]; now right|].
  discriminate.
Qed.

Lemma ExecuteCommand_run env app inp s r :
  truthy (App.privateKey app) = true ->
  truthy (js_or (ExecuteCommand.username inp) (App.username app)) = true ->
  fst (ssh_connect env (ExecuteCommand.options app inp)
         (ExecuteCommand.at_connect s)) = Normal tt ->
  fst (ssh_execCommand env (ExecuteCommand.command inp)
         (ExecuteCommand.workingDirectory inp)
         (ExecuteCommand.at_command env app inp s)) = Normal r ->
  exists s',
    ExecuteCommand.onEvent env app inp s = (Normal tt, s') /\
    emitted s' = emitted s ++
      [CommandOutput (stdout r) (stderr r) (code r)
         (latency env (EvConnect (ExecuteCommand.options app inp))
            (ExecuteCommand.at_connect s)
          + latency env (EvExec (ExecuteCommand.command inp)
                           (ExecuteCommand.workingDirectory inp))
              (ExecuteCommand.at_command env app inp s))].
Proof.
  intros Hk Hu H0 H1.
  eexists. split.
  - unfold ExecuteCommand.onEvent. rewrite Hk, Hu. cbn [negb].
    cbn [bind new_NodeSSH Date_now].
    eapply try_finally_run; [|apply never_throws_run, ssh_dispose_never_throws].
    unfold ExecuteCommand.body.
    rewrite (bind_normal _ _ _ _ _ (normal_run _ _ _ H0)).
    rewrite (bind_normal _ _ _ _ _ (normal_run _ _ _ H1)).
    cbn [bind Date_now events_emit]. reflexivity.
  - cbn [ssh_dispose snd emitted set_session record set_clock set_trace set_emitted].
    rewrite keeps_emitted_ssh_execCommand.
    rewrite (ssh_execCommand_clock _ _ _ _ _ H1).
    unfold ExecuteCommand.at_command.
    rewrite keeps_emitted_ssh_connect, ssh_connect_clock.
    cbn [emitted clock ExecuteCommand.at_connect set_session].
    do 3 f_equal. lia.
Qed.

(** C4. Execute Command: once the connection is open and the remote shell
    has answered the command with a result [r], the block completes
    normally and emits [r], its exit code as [exitCode], whatever that code
    is.  Execute Script: the same for the result of the interpreter call,
    once the script is staged and marked executable.  And when either block
    does throw, the error is a configuration fault or a fault of the
    transport; no exit code makes a block throw. *)
Theorem exit_code_is_a_result
    (env : Env) (app : App.Config) (s : State)
    (cmd : ExecuteCommand.Input) (scr : ExecuteScript.Input) :
  (forall r,
     truthy (App.privateKey app) = true ->
     truthy (js_or (ExecuteCommand.username cmd) (App.username app)) = true ->
     fst (ssh_connect env (ExecuteCommand.options app cmd)
            (ExecuteCommand.at_connect s)) = Normal tt ->
     fst (ssh_execCommand env (ExecuteCommand.command cmd)
            (ExecuteCommand.workingDirectory cmd)
            (ExecuteCommand.at_command env app cmd s)) = Normal r ->
     exists s' d,
       ExecuteCommand.onEvent env app cmd s = (Normal tt, s') /\
       emitted s' = emitted s ++ [CommandOutput (stdout r) (stderr r) (code r) d]) /\
  (forall r1 r2 r,
     truthy (App.privateKey app) = true ->
     truthy (js_or (ExecuteScript.username scr) (App.username app)) = true ->
     fst (ssh_connect env (ExecuteScript.options app scr)
            (ExecuteScript.at_connect s)) = Normal tt ->
     fst (ssh_execCommand env (ExecuteScript.create env scr s) None
            (ExecuteScript.at_create env app scr s)) = Normal r1 ->
     fst (ssh_execCommand env (ExecuteScript.chmod env s) None
            (ExecuteScript.at_chmod env app scr s)) = Normal r2 ->
     fst (ssh_execCommand env (ExecuteScript.run env scr s)
            (ExecuteScript.workingDirectory scr)
            (ExecuteScript.at_run env app scr s)) = Normal r ->
     exists s' d,
       ExecuteScript.onEvent env app scr s = (Normal tt, s') /\
       emitted s' = emitted s ++ [CommandOutput (stdout r) (stderr r) (code r) d]) /\
  (forall e,
     fst (ExecuteCommand.onEvent env app cmd s) = Throws e ->
     ConfigurationFault (message e) \/ TransportFault env e) /\
  (forall e,
     fst (ExecuteScript.onEvent env app scr s) = Throws e ->
     ConfigurationFault (message e) \/ TransportFault env e).
Proof.
  split; [|split; [|split]].
  - intros r Hk Hu H0 H1.
    destruct (ExecuteCommand_run env app cmd s r Hk Hu H0 H1) as (s' & E & Em).
    eauto.
  - intros r1 r2 r Hk Hu H0 H1 H2 H3.
    destruct (ExecuteScript_run env app scr s r1 r2 r Hk Hu H0 H1 H2 H3)
      as (s' & E & Em).
    eauto.
  - apply ExecuteCommand_throws.
  - apply ExecuteScript_throws.
Qed.

Lemma exit_code_is_a_result_witness :
  exists s' d,
    ExecuteCommand.onEvent (Sample.env 1 (Sample.ok "" 7) false) Sample.app
      Sample.command Sample.start = (Normal tt, s') /\
    emitted s' = emitted Sample.start ++ [CommandOutput "" "" (Some 7) d].
Proof.
  apply (proj1 (exit_code_is_a_result (Sample.env 1 (Sample.ok "" 7) false)
                  Sample.app Sample.start Sample.command Sample.script)
           (mkExec "" "" (Some 7))); vm_compute; reflexivity.
Defined.

(* ===================================================================== *)
(** * The file blocks                                                     *)
(* ===================================================================== *)

(** Computes the components of a state written with the setters. *)
Ltac projections :=
  cbn [clock session localFs remoteFs trace console emitted tempFilePath
       set_clock set_session set_localFs set_remoteFs set_trace set_console
       set_emitted set_tempFilePath record].

(** ** Calls in an environment that does not fail them *)

Lemma ssh_connect_reachable env h u p k s :
  reachable env h p u k ->
  ssh_connect env (mkConnect h u p k None) s
  = (Normal tt,
     set_session true (record env (EvConnect (mkConnect h u p k None)) s)).
Proof.
  intros Hr. destruct (Hr s) as (srv & R & A).
  unfold ssh_connect. cbn [cc_host cc_port cc_username cc_privateKey cc_hostVerifier].
  now rewrite R, A.
Qed.

Lemma fs_writeFile_run env p d s :
  files_succeed env ->
  fs_writeFile env p d s
  = (Normal tt, set_localFs (<[p := d]> (localFs s)) (record env (EvWriteFile p) s)).
Proof. intros H. unfold fs_writeFile. now rewrite H. Qed.

Lemma fs_readFile_run env p d s :
  files_succeed env -> localFs s !! p = Some d ->
  fs_readFile env p s = (Normal d, record env (EvReadFile p) s).
Proof. intros H L. unfold fs_readFile. now rewrite H, L. Qed.

Lemma fs_stat_run env p d s :
  files_succeed env -> localFs s !! p = Some d ->
  fs_stat env p s = (Normal (Z.of_nat (length d)), record env (EvStat p) s).
Proof. intros H L. unfold fs_stat. now rewrite H, L. Qed.

Lemma ssh_putFile_run env l r d s :
  transfers_succeed env -> session s = true -> localFs s !! l = Some d ->
  ssh_putFile env l r s
  = (Normal tt, set_remoteFs (<[r := d]> (remoteFs s)) (record env (EvPutFile l r) s)).
Proof. intros H S L. unfold ssh_putFile. now rewrite S, H, L. Qed.

Lemma ssh_getFile_run env l r d s :
  transfers_succeed env -> session s = true -> remoteFs s !! r = Some d ->
  ssh_getFile env l r s
  = (Normal tt, set_localFs (<[l := d]> (localFs s)) (record env (EvGetFile l r) s)).
Proof. intros H S L. unfold ssh_getFile. now rewrite S, H, L. Qed.

Lemma ssh_execCommand_run env cmd s :
  answered env cmd -> session s = true ->
  exists r,
    fst (remoteExec env cmd None s) = inr r /\
    ssh_execCommand env cmd None s
    = (Normal r, set_remoteFs (snd (remoteExec env cmd None s))
                   (record env (EvExec cmd None) s)).
Proof.
  intros H S. destruct (H s) as [r R]. exists r. split; [exact R|].
  now apply ssh_execCommand_answered.
Qed.

Lemma keeps_emitted_UploadFile_cleanup env : keeps emitted (UploadFile.cleanup env).
Proof. keep. Qed.

Lemma keeps_remoteFs_UploadFile_cleanup env : keeps remoteFs (UploadFile.cleanup env).
Proof. keep. Qed.

Lemma Upload_run env app inp s :
  truthy (App.privateKey app) = true ->
  truthy (js_or (UploadFile.username inp) (App.username app)) = true ->
  reachable env (UploadFile.host inp) (UploadFile.port inp)
    (str (js_or (UploadFile.username inp) (App.username app)))
    (str (App.privateKey app)) ->
  transfers_succeed env ->
  files_succeed env ->
  (truthy (UploadFile.permissions inp) = true ->
   answered env
     (UploadFile.chmodCommand (str (UploadFile.permissions inp))
        (UploadFile.destinationPath inp))) ->
  exists s',
    UploadFile.onEvent env app inp s = (Normal tt, s') /\
    emitted s' = emitted s ++
      [UploadOutput (UploadFile.destinationPath inp)
         (Z.of_nat (length (UploadFile.fileContent inp)))] /\
    ((truthy (UploadFile.permissions inp) = true ->
      leaves_alone env
        (UploadFile.chmodCommand (str (UploadFile.permissions inp))
           (UploadFile.destinationPath inp))
        (UploadFile.destinationPath inp)) ->
     remoteFs s' !! UploadFile.destinationPath inp
     = Some (UploadFile.fileContent inp)).
Proof.
  intros Hk Hu Hr Ht Hf Hc.
  unfold UploadFile.onEvent. rewrite Hk, Hu. cbn [negb].
  cbn [bind new_NodeSSH assign_tempFilePath].
  match goal with |- context [try_finally ?b ?f ?s0] =>
    assert (B : exists s1, b s0 = (Normal tt, s1) /\
              emitted s1 = emitted s ++
                [UploadOutput (UploadFile.destinationPath inp)
                   (Z.of_nat (length (UploadFile.fileContent inp)))] /\
              ((truthy (UploadFile.permissions inp) = true ->
                leaves_alone env
                  (UploadFile.chmodCommand (str (UploadFile.permissions inp))
                     (UploadFile.destinationPath inp))
                  (UploadFile.destinationPath inp)) ->
               remoteFs s1 !! UploadFile.destinationPath inp
               = Some (UploadFile.fileContent inp)))
  end.
  { unfold UploadFile.body.
    rewrite (bind_normal _ _ _ _ _ (ssh_connect_reachable _ _ _ _ _ _ Hr)).
    cbn [bind Date_now Math_random36 assign_tempFilePath].
    match goal with |- context [fs_writeFile _ ?p _] => set (path := p) end.
    rewrite (bind_normal _ _ _ _ _ (fs_writeFile_run _ _ _ _ Hf)).
    erewrite bind_normal
      by (apply ssh_putFile_run; [exact Ht|reflexivity|apply lookup_insert_eq]).
    destruct (truthy (UploadFile.permissions inp)) eqn:Hp.
    - match goal with |- context [bind (bind (ssh_execCommand ?e ?c None) _) _ ?s0] =>
        destruct (ssh_execCommand_run e c s0 (Hc eq_refl) eq_refl) as (r & R & E)
      end.
      rewrite (bind_normal _ _ _ _ _ (bind_normal _ _ _ _ _ E)).
      cbn [ret].
      erewrite bind_normal
        by (apply fs_stat_run; [exact Hf|projections; apply lookup_insert_eq]).
      cbn [events_emit]. eexists. split; [reflexivity|].
      projections. split; [reflexivity|].
      intros Hl. rewrite (Hl eq_refl). projections. apply lookup_insert_eq.
    - cbn [bind ret].
      erewrite bind_normal
        by (apply fs_stat_run; [exact Hf|projections; apply lookup_insert_eq]).
      cbn [events_emit]. eexists. split; [reflexivity|].
      projections. split; [reflexivity|].
      intros _. apply lookup_insert_eq. }
  destruct B as (s1 & B & Em & Fs).
  eexists. split; [|split].
  - eapply try_finally_run;
      [exact B|apply never_throws_run, UploadFile_cleanup_never_throws].
  - now rewrite keeps_emitted_UploadFile_cleanup.
  - now rewrite keeps_remoteFs_UploadFile_cleanup.
Qed.

(** ** The sample environment does not fail *)

Lemma Sample_reachable ms reply unlinkFails host port :
  reachable (Sample.env ms reply unlinkFails) host port "deploy" "KEY".
Proof. intros s. exists Sample.server. now split. Qed.

Lemma Sample_transfers_succeed ms reply unlinkFails :
  transfers_succeed (Sample.env ms reply unlinkFails).
Proof. now intros e s. Qed.

Lemma Sample_files_succeed ms reply unlinkFails :
  files_succeed (Sample.env ms reply unlinkFails).
Proof. intros e s H. destruct e; try reflexivity; discriminate. Qed.

Lemma Sample_answered ms out c unlinkFails cmd :
  answered (Sample.env ms (Sample.ok out c) unlinkFails) cmd.
Proof. intros s. now eexists. Qed.

Lemma Sample_leaves_alone ms reply unlinkFails cmd path :
  leaves_alone (Sample.env ms reply unlinkFails) cmd path.
Proof. now intros s. Qed.

Lemma ssh_execCommand_breaks env cmd s e :
  breaks env cmd e -> session s = true ->
  ssh_execCommand env cmd None s
  = (Throws e, set_remoteFs (snd (remoteExec env cmd None s))
                 (record env (EvExec cmd None) s)).
Proof.
  intros H S. specialize (H s). unfold ssh_execCommand. rewrite S.
  destruct (remoteExec env cmd None s) as [[e'|r] fs]; cbn in H;
    [|discriminate].
  now injection H as ->.
Qed.

(** The upload whose [chmod] call is rejected: the error goes to the
    caller, after the file has been put at the destination. *)
Lemma Upload_chmod_rejected env app inp s e :
  truthy (App.privateKey app) = true ->
  truthy (js_or (UploadFile.username inp) (App.username app)) = true ->
  truthy (UploadFile.permissions inp) = true ->
  reachable env (UploadFile.host inp) (UploadFile.port inp)
    (str (js_or (UploadFile.username inp) (App.username app)))
    (str (App.privateKey app)) ->
  transfers_succeed env ->
  files_succeed env ->
  breaks env
    (UploadFile.chmodCommand (str (UploadFile.permissions inp))
       (UploadFile.destinationPath inp)) e ->
  exists s',
    UploadFile.onEvent env app inp s = (Throws e, s') /\
    emitted s' = emitted s /\
    (leaves_alone env
       (UploadFile.chmodCommand (str (UploadFile.permissions inp))
          (UploadFile.destinationPath inp))
       (UploadFile.destinationPath inp) ->
     remoteFs s' !! UploadFile.destinationPath inp
     = Some (UploadFile.fileContent inp)).
Proof.
  intros Hk Hu Hp Hr Ht Hf Hb.
  unfold UploadFile.onEvent. rewrite Hk, Hu. cbn [negb].
  cbn [bind new_NodeSSH assign_tempFilePath].
  match goal with |- context [try_finally ?b ?f ?s0] =>
    assert (B : exists s1, b s0 = (Throws e, s1) /\
              emitted s1 = emitted s /\
              (leaves_alone env
                 (UploadFile.chmodCommand (str (UploadFile.permissions inp))
                    (UploadFile.destinationPath inp))
                 (UploadFile.destinationPath inp) ->
               remoteFs s1 !! UploadFile.destinationPath inp
               = Some (UploadFile.fileContent inp)))
  end.
  { unfold UploadFile.body.
    rewrite (bind_normal _ _ _ _ _ (ssh_connect_reachable _ _ _ _ _ _ Hr)).
    cbn [bind Date_now Math_random36 assign_tempFilePath].
    match goal with |- context [fs_writeFile _ ?p _] => set (path := p) end.
    rewrite (bind_normal _ _ _ _ _ (fs_writeFile_run _ _ _ _ Hf)).
    erewrite bind_normal
      by (apply ssh_putFile_run; [exact Ht|reflexivity|apply lookup_insert_eq]).
    rewrite Hp.
    match goal with |- context [bind (bind (ssh_execCommand ?e0 ?c None) _) _ ?s0] =>
      pose proof (ssh_execCommand_breaks e0 c s0 e Hb eq_refl) as E
    end.
    rewrite (bind_throws _ _ _ _ _ (bind_throws _ _ _ _ _ E)).
    eexists. split; [reflexivity|]. projections. split; [reflexivity|].
    intros Hl. unfold leaves_alone in Hl. rewrite Hl. projections.
    apply lookup_insert_eq. }
  destruct B as (s1 & B & Em & Fs).
  eexists. split; [|split].
  - eapply try_finally_run;
      [exact B|apply never_throws_run, UploadFile_cleanup_never_throws].
  - now rewrite keeps_emitted_UploadFile_cleanup.
  - now rewrite keeps_remoteFs_UploadFile_cleanup.
Qed.

(** C9, as stated, fails: the [chmod] call is awaited outside any [try] of
    its own, so when the call is rejected (the channel breaks) the upload
    throws and emits nothing, with the file already at the destination. *)
Lemma rejected_chmod_fails_upload : ~ upload_succeeds_whatever_chmod_does.
Proof.
  intros H.
  destruct (H (Sample.env 1
                 (Sample.breaks_on
                    (UploadFile.chmodCommand "0644" "/srv/a.txt") "")
                 false)
              Sample.app Sample.upload Sample.start
              eq_refl eq_refl eq_refl
              (Sample_reachable _ _ _ _ _)
              (Sample_transfers_succeed _ _ _)
              (Sample_files_succeed _ _ _))
    as (s' & size & E & _).
  assert (T : fst (UploadFile.onEvent
                     (Sample.env 1
                        (Sample.breaks_on
                           (UploadFile.chmodCommand "0644" "/srv/a.txt") "")
                        false)
                     Sample.app Sample.upload Sample.start)
              = Throws (mkError "Channel open failure"))
    by (vm_compute; reflexivity).
  rewrite E in T. discriminate.
Qed.

(** C9, amended. An upload with permissions, in an environment where the
    server is reached and neither the transfer nor the staging file fails.
    As soon as the remote shell answers the [chmod] command, with whatever
    result and exit code, the block completes normally and emits the path
    and the size of what was written, and nothing about the permissions:
    the exit code is never read.  When the [chmod] call itself is
    rejected, the block throws that error and emits nothing, although the
    file is at the destination by then. *)
Theorem upload_ignores_chmod_exit_code
    (env : Env) (app : App.Config) (inp : UploadFile.Input) (s : State) :
  truthy (App.privateKey app) = true ->
  truthy (js_or (UploadFile.username inp) (App.username app)) = true ->
  truthy (UploadFile.permissions inp) = true ->
  reachable env (UploadFile.host inp) (UploadFile.port inp)
    (str (js_or (UploadFile.username inp) (App.username app)))
    (str (App.privateKey app)) ->
  transfers_succeed env ->
  files_succeed env ->
  (answered env
     (UploadFile.chmodCommand (str (UploadFile.permissions inp))
        (UploadFile.destinationPath inp)) ->
   exists s',
     UploadFile.onEvent env app inp s = (Normal tt, s') /\
     emitted s' = emitted s ++
       [UploadOutput (UploadFile.destinationPath inp)
          (Z.of_nat (length (UploadFile.fileContent inp)))]) /\
  (forall e,
     breaks env
       (UploadFile.chmodCommand (str (UploadFile.permissions inp))
          (UploadFile.destinationPath inp)) e ->
     exists s',
       UploadFile.onEvent env app inp s = (Throws e, s') /\
       emitted s' = emitted s /\
       (leaves_alone env
          (UploadFile.chmodCommand (str (UploadFile.permissions inp))
             (UploadFile.destinationPath inp))
          (UploadFile.destinationPath inp) ->
        remoteFs s' !! UploadFile.destinationPath inp
        = Some (UploadFile.fileContent inp))).
Proof.
  intros Hk Hu Hp Hr Ht Hf. split.
  - intros Hc.
    destruct (Upload_run env app inp s Hk Hu Hr Ht Hf (fun _ => Hc))
      as (s' & E & Em & _).
    exists s'. now split.
  - intros e Hb. now apply Upload_chmod_rejected.
Qed.

Lemma upload_ignores_chmod_exit_code_witness :
  exists s',
    UploadFile.onEvent
      (Sample.env 1 (Sample.ok "chmod: invalid mode" 1) false) Sample.app
      Sample.upload Sample.start = (Normal tt, s') /\
    emitted s' = emitted Sample.start ++ [UploadOutput "/srv/a.txt" 2].
Proof.
  apply (proj1 (upload_ignores_chmod_exit_code
                  (Sample.env 1 (Sample.ok "chmod: invalid mode" 1) false)
                  Sample.app Sample.upload Sample.start
                  eq_refl eq_refl eq_refl
                  (Sample_reachable _ _ _ _ _)
                  (Sample_transfers_succeed _ _ _)
                  (Sample_files_succeed _ _ _))).
  apply Sample_answered.
Defined.

(* ===================================================================== *)
(** * Host Metadata                                                       *)
(* ===================================================================== *)

(** The three guarded steps never throw: their handlers only warn. *)
Lemma never_throws_try_catch {A} (body : M A) (handler : JsError -> M A) :
  (forall e, never_throws (handler e)) -> never_throws (try_catch body handler).
Proof.
  intros Hh s. unfold try_catch. destruct (body s) as [[a|e] s1].
  - now exists a.
  - apply Hh.
Qed.

Lemma never_throws_warn_ret {A} (line : string) (a : A) :
  never_throws (console_warn line ;;; ret a).
Proof. intros s. now exists a. Qed.

Lemma probeLoadAverage_never_throws P env :
  never_throws (HostMetadata.probeLoadAverage P env).
Proof.
  apply never_throws_try_catch. intros e. apply never_throws_warn_ret.
Qed.

Lemma probeMemory_never_throws P env :
  never_throws (HostMetadata.probeMemory P env).
Proof.
  apply never_throws_try_catch. intros e. apply never_throws_warn_ret.
Qed.

Lemma parseUptime_never_throws P r :
  never_throws (HostMetadata.parseUptime P r).
Proof.
  apply never_throws_try_catch. intros e. apply never_throws_warn_ret.
Qed.

(** A break of the channel in the load average probe is caught in the
    probe, which then reports the zero load. *)
Lemma probeLoadAverage_failure_is_local P env s e :
  session s = true ->
  fst (remoteExec env Sample.loadavgCommand None s) = inl e ->
  fst (HostMetadata.probeLoadAverage P env s) = Normal (HostMetadata.zeroLoad P).
Proof.
  intros Hs Hr.
  unfold HostMetadata.probeLoadAverage, try_catch, bind, ssh_execCommand.
  rewrite Hs. fold Sample.loadavgCommand.
  now destruct (remoteExec env Sample.loadavgCommand None s) as [[e'|r] fs].
Qed.

(** The part of the claim that holds: once the session is open and the
    five commands outside a [try] of their own are answered, with whatever
    exit code, the collection is ready, whatever happens in the load
    average and the memory probe. *)
Lemma collect_ready_when_unguarded_probes_answer P env app cfg s :
  truthy (App.privateKey app) = true ->
  truthy (js_or (HostMetadata.username cfg) (App.username app)) = true ->
  reachable env (HostMetadata.host cfg) (HostMetadata.port cfg)
    (str (js_or (HostMetadata.username cfg) (App.username app)))
    (str (App.privateKey app)) ->
  answered env "hostname" -> answered env "uname -s" ->
  answered env "uname -r" -> answered env "uname -m" ->
  answered env "cat /proc/uptime 2>/dev/null || uptime" ->
  exists signals,
    fst (HostMetadata.onSync P env app cfg s) = Normal (HostMetadata.Ready signals).
Proof.
  intros Hk Hu Hr A1 A2 A3 A4 A5.
  unfold HostMetadata.onSync. rewrite Hk, Hu. cbn [negb].
  cbn [bind new_NodeSSH].
  rewrite try_finally_completion by apply ssh_dispose_never_throws.
  unfold try_catch, HostMetadata.body.
  rewrite (bind_normal _ _ _ _ _ (ssh_connect_reachable _ _ _ _ _ _ Hr)).
  repeat
    match goal with
    | |- context [bind (ssh_execCommand ?e ?c None) _ ?s0] =>
        let r := fresh "r" in
        let R := fresh "R" in
        let E := fresh "E" in
        first
          [ destruct (ssh_execCommand_run e c s0 A1 eq_refl) as (r & R & E)
          | destruct (ssh_execCommand_run e c s0 A2 eq_refl) as (r & R & E)
          | destruct (ssh_execCommand_run e c s0 A3 eq_refl) as (r & R & E)
          | destruct (ssh_execCommand_run e c s0 A4 eq_refl) as (r & R & E)
          | destruct (ssh_execCommand_run e c s0 A5 eq_refl) as (r & R & E) ];
        rewrite (bind_normal _ _ _ _ _ E); clear E
    end.
  match goal with |- context [bind (HostMetadata.probeLoadAverage ?P ?e) _ ?s0] =>
    destruct (probeLoadAverage_never_throws P e s0) as [l El];
    rewrite (bind_normal _ _ _ _ _ (normal_run _ _ _ El))
  end.
  match goal with |- context [bind (HostMetadata.probeMemory ?P ?e) _ ?s0] =>
    destruct (probeMemory_never_throws P e s0) as [m Em];
    rewrite (bind_normal _ _ _ _ _ (normal_run _ _ _ Em))
  end.
  match goal with |- context [bind (HostMetadata.parseUptime ?P ?r) _ ?s0] =>
    destruct (parseUptime_never_throws P r s0) as [u Eu];
    rewrite (bind_normal _ _ _ _ _ (normal_run _ _ _ Eu))
  end.
  cbn [ret fst]. eauto.
Qed.

(** C6. On a host that is reached and lets the user in, a [hostname] probe
    whose channel breaks fails the whole collection, with the status
    [failed] and the description of a connection failure; the same break
    in the load average probe is caught where it happens and costs only
    that field. *)
Theorem probe_failure_fails_collect :
  fst (HostMetadata.onSync Sample.parsers
         (Sample.env 1 (Sample.breaks_on "hostname" " Linux ") false)
         Sample.app Sample.target Sample.start)
    = Normal (HostMetadata.Failed
                "Failed to connect to host: Channel open failure") /\
  trace (snd (HostMetadata.onSync Sample.parsers
                (Sample.env 1 (Sample.breaks_on "hostname" " Linux ") false)
                Sample.app Sample.target Sample.start))
    = [EvConnect (mkConnect "h" "deploy" 22 "KEY" None);
       EvExec "hostname" None; EvDispose] /\
  fst (HostMetadata.onSync Sample.parsers
         (Sample.env 1 (Sample.breaks_on Sample.loadavgCommand " Linux ") false)
         Sample.app Sample.target Sample.start)
    = Normal (HostMetadata.Ready
                (HostMetadata.mkSignals (P := Sample.parsers)
                   "Linux" "linux" "Linux" "Linux" 0
                   (HostMetadata.mkLoad (P := Sample.parsers) 0 0 0) 0 0)).
Proof.
  split; [vm_compute; reflexivity|]. split; vm_compute; reflexivity.
Qed.

(* ===================================================================== *)
(** * Release of the session and of the staging file                      *)
(* ===================================================================== *)

Section Respects.
Variable R : State -> State -> Prop.
Hypothesis R_refl : forall s, R s s.
Hypothesis R_trans : forall s1 s2 s3, R s1 s2 -> R s2 s3 -> R s1 s3.

Lemma respects_ret {A} (a : A) : respects R (ret a).
Proof. intros s. apply R_refl. Qed.

Lemma respects_throw {A} e : respects R (@throw A e).
Proof. intros s. apply R_refl. Qed.

Lemma respects_bind {A B} (m : M A) (k : A -> M B) :
  respects R m -> (forall a, respects R (k a)) -> respects R (bind m k).
Proof.
  intros Hm Hk s. unfold bind. specialize (Hm s).
  destruct (m s) as [[a|e] s1]; simpl in *; [|assumption].
  eapply R_trans; [exact Hm|apply Hk].
Qed.

Lemma respects_try_finally {A} (body : M A) (fin : M unit) :
  respects R body -> respects R fin -> respects R (try_finally body fin).
Proof.
  intros Hb Hf s. unfold try_finally. specialize (Hb s).
  destruct (body s) as [c s1]. specialize (Hf s1).
  destruct (fin s1) as [[[]|e] s2]; simpl in *; eapply R_trans; eassumption.
Qed.

Lemma respects_try_catch {A} (body : M A) handler :
  respects R body -> (forall e, respects R (handler e)) ->
  respects R (try_catch body handler).
Proof.
  intros Hb Hh s. unfold try_catch. specialize (Hb s).
  destruct (body s) as [[a|e] s1]; simpl in *; [assumption|].
  eapply R_trans; [exact Hb|apply Hh].
Qed.

Lemma respects_if {A} (b : bool) (m1 m2 : M A) :
  respects R m1 -> respects R m2 -> respects R (if b then m1 else m2).
Proof. now destruct b. Qed.
End Respects.

Lemma stages_refl path s : stages path s s.
Proof. split; auto. Qed.

Lemma stages_trans path s1 s2 s3 :
  stages path s1 s2 -> stages path s2 s3 -> stages path s1 s3.
Proof.
  intros [T1 F1] [T2 F2]. split; [congruence|].
  destruct F2 as [F2|[d F2]]; rewrite F2.
  - exact F1.
  - right. exists d. destruct F1 as [->|[d' ->]]; [reflexivity|].
    apply insert_insert_eq.
Qed.

(** A computation that keeps the local disk and [tempFilePath] stages
    nothing. *)
Lemma keeps_stages {A} path (m : M A) :
  keeps localFs m -> keeps tempFilePath m -> respects (stages path) m.
Proof. intros H1 H2 s. split; [apply H2|left; apply H1]. Qed.

Lemma stages_fs_writeFile env path d : respects (stages path) (fs_writeFile env path d).
Proof.
  intros s. unfold fs_writeFile. destruct (fsFault env _ s); split; cbn; eauto.
Qed.

Lemma stages_ssh_getFile env path r : respects (stages path) (ssh_getFile env path r).
Proof.
  intros s. unfold ssh_getFile. destruct (session s); [|apply stages_refl].
  destruct (sftpFault env _ s) as [[e [d|]]|]; [split; cbn; eauto..|].
  destruct (remoteFs s !! r); split; cbn; eauto.
Qed.

(** Settles [respects (stages path)] for the rest of a file block. *)
Ltac stage :=
  repeat
    match goal with
    | |- forall _ _ _, stages _ _ _ -> stages _ _ _ -> stages _ _ _ =>
        exact (stages_trans _)
    | |- forall _, _ => intro
    | |- respects (stages _) (bind _ _) => apply respects_bind
    | |- respects (stages _) (try_catch _ _) => apply respects_try_catch
    | |- respects (stages _) (if _ then _ else _) => apply respects_if
    | |- respects (stages _) (let _ := _ in _) => cbv zeta
    | |- respects (stages _) (fs_writeFile _ _ _) => apply stages_fs_writeFile
    | |- respects (stages _) (ssh_getFile _ _ _) => apply stages_ssh_getFile
    | |- respects (stages _) _ =>
        apply keeps_stages; solve [ keep_primitive ]
    end.

Lemma tempName_truthy_upload env t rnd :
  truthy (Some (UploadFile.tempName env t rnd)) = true.
Proof.
  unfold UploadFile.tempName, path_join, truthy.
  now destruct (tmpdir env).
Qed.

Lemma tempName_truthy_download env t rnd :
  truthy (Some (DownloadFile.tempName env t rnd)) = true.
Proof.
  unfold DownloadFile.tempName, path_join, truthy.
  now destruct (tmpdir env).
Qed.





(** ** The finalisers close the session *)






Lemma snd_try_finally {A} (body : M A) (fin : M unit) s :
  snd (try_finally body fin s) = snd (fin (snd (body s))).
Proof.
  unfold try_finally. destruct (body s) as [c s1]. cbn [snd].
  now destruct (fin s1) as [[[]|e] s2].
Qed.

Lemma snd_bind_ret {A B} (m : M A) (b : B) s :
  snd (bind m (fun _ => ret b) s) = snd (m s).
Proof. unfold bind, ret. now destruct (m s) as [[a|e] s1]. Qed.

Lemma snd_bind_ret_f {A B} (m : M A) (f : A -> B) s :
  snd (bind m (fun a => ret (f a)) s) = snd (m s).
Proof. unfold bind, ret. now destruct (m s) as [[a|e] s1]. Qed.

Lemma handle_state P env app r s :
  snd (handle P env app r s)
  = match r with
    | executeCommand inp => snd (ExecuteCommand.onEvent env app inp s)
    | executeScript inp => snd (ExecuteScript.onEvent env app inp s)
    | uploadFile inp => snd (UploadFile.onEvent env app inp s)
    | downloadFile inp => snd (DownloadFile.onEvent env app inp s)
    | hostMetadata cfg => snd (HostMetadata.onSync P env app cfg s)
    end.
Proof.
  destruct r; cbn [handle]; first [apply snd_bind_ret | apply snd_bind_ret_f].
Qed.

(** ** Every block closes its session *)


(** ** No block leaves a file on the local disk *)







(** ** What reaches the console *)











(* ===================================================================== *)
(** * The codecs                                                          *)
(* ===================================================================== *)

Ltac Zify.zify_post_hook ::= Z.to_euclidean_division_equations.

Local Open Scope N_scope.

(** ** Bytes and their values *)

Lemma byte_of_to_N (b : byte) : byte_of (Byte.to_N b) = b.
Proof. unfold byte_of. now rewrite Byte.of_to_N. Qed.

Lemma to_N_byte_of (n : N) : n < 256 -> Byte.to_N (byte_of n) = n.
Proof.
  intros H. unfold byte_of. destruct (Byte.of_N n) as [b|] eqn:E.
  - now apply Byte.to_of_N.
  - apply Byte.of_N_None_iff in E. lia.
Qed.

Lemma to_N_below (b : byte) : Byte.to_N b < 256.
Proof. pose proof (Byte.to_N_bounded b). lia. Qed.

Lemma map_byte_of_to_N (bs : list byte) : map byte_of (map Byte.to_N bs) = bs.
Proof.
  induction bs as [|b bs IH]; [reflexivity|].
  cbn [map]. now rewrite byte_of_to_N, IH.
Qed.

Lemma map_to_N_byte_of (l : list N) :
  Forall (fun n => n < 256) l -> map Byte.to_N (map byte_of l) = l.
Proof.
  induction 1 as [|n l Hn _ IH]; [reflexivity|].
  cbn [map]. now rewrite to_N_byte_of, IH.
Qed.

Lemma Forall_to_N_below (bs : list byte) :
  Forall (fun n => n < 256) (map Byte.to_N bs).
Proof.
  induction bs as [|b bs IH]; constructor; [apply to_N_below|exact IH].
Qed.

(** ** Base64 *)

(** The alphabet is read back letter by letter: checked on the sixty-four
    values. *)
Lemma b64_alphabet_checked :
  forallb
    (fun v =>
       negb (b64_char v mod 256 =? 61) &&
       match b64_value (b64_char v) with
       | Some w => w =? v
       | None => false
       end)
    (map N.of_nat (seq 0 64)) = true.
Proof. vm_compute. reflexivity. Qed.

Lemma b64_value_char (v : N) :
  v < 64 -> b64_char v mod 256 <> 61 /\ b64_value (b64_char v) = Some v.
Proof.
  intros Hv.
  assert (Hin : In v (map N.of_nat (seq 0 64))).
  { apply in_map_iff. exists (N.to_nat v). split; [apply N2Nat.id|].
    apply in_seq. lia. }
  pose proof (proj1 (forallb_forall _ _) b64_alphabet_checked v Hin) as H.
  apply andb_true_iff in H. destruct H as [H1 H2].
  split.
  - intros E. rewrite E in H1. discriminate.
  - destruct (b64_value (b64_char v)) as [w|]; [|discriminate].
    apply N.eqb_eq in H2. now subst.
Qed.

Lemma b64_sextets_char (v : N) (rest : jsstring) :
  v < 64 -> b64_sextets (b64_char v :: rest) = v :: b64_sextets rest.
Proof.
  intros Hv. destruct (b64_value_char v Hv) as [H1 H2].
  cbn [b64_sextets]. rewrite H2.
  destruct (N.eqb_spec (b64_char v mod 256) 61); [contradiction|reflexivity].
Qed.

Lemma b64_sextets_padding (rest : jsstring) : b64_sextets (61 :: rest) = [].
Proof. reflexivity. Qed.

(** Decoding the encoding of byte values gives them back, three at a
    time. *)
Lemma b64_roundtrip_values (n : nat) (l : list N) :
  (length l <= n)%nat -> Forall (fun x => x < 256) l ->
  b64_bytes (b64_sextets (base64_chars l)) = l.
Proof.
  revert l. induction n as [|n IH]; intros l Hn Hl.
  - destruct l; [reflexivity|cbn in Hn; lia].
  - destruct l as [|a [|b [|c rest]]]; [reflexivity| | |].
    + inversion_clear Hl as [|? ? Ha _].
      cbn [base64_chars].
      rewrite !b64_sextets_char, b64_sextets_padding by lia.
      cbn [b64_bytes]. f_equal. lia.
    + inversion_clear Hl as [|? ? Ha Hl']. inversion_clear Hl' as [|? ? Hb _].
      cbn [base64_chars].
      rewrite !b64_sextets_char, b64_sextets_padding by lia.
      cbn [b64_bytes]. repeat f_equal; lia.
    + inversion_clear Hl as [|? ? Ha Hl']. inversion_clear Hl' as [|? ? Hb Hl].
      inversion_clear Hl as [|? ? Hc Hrest].
      cbn [base64_chars app].
      rewrite !b64_sextets_char by lia.
      cbn [b64_bytes app]. rewrite IH; [|cbn in Hn; lia|exact Hrest].
      repeat f_equal; lia.
Qed.

(** [Buffer.from(b.toString("base64"), "base64")] is [b]. *)
Lemma base64_roundtrip (bs : list byte) :
  base64_decode (base64_encode bs) = bs.
Proof.
  unfold base64_decode, base64_encode.
  rewrite (b64_roundtrip_values (length (map Byte.to_N bs)));
    [apply map_byte_of_to_N|reflexivity|apply Forall_to_N_below].
Qed.

(** ** UTF-8 *)

(** Settles an equation between a test on numbers and a boolean. *)
Ltac btest :=
  unfold second_ok3, second_ok4, is_cont, is_high, is_low;
  repeat match goal with
         | |- context [?a =? ?b] => destruct (N.eqb_spec a b)
         | |- context [?a <? ?b] => destruct (N.ltb_spec a b)
         | |- context [?a <=? ?b] => destruct (N.leb_spec a b)
         end;
  cbn [andb negb]; first [reflexivity | lia].

Lemma utf8_of_codepoint_below (cp : N) :
  cp < 0x110000 -> Forall (fun b => b < 256) (utf8_of_codepoint cp).
Proof.
  intros H. unfold utf8_of_codepoint.
  destruct (N.ltb_spec cp 0x80); [|destruct (N.ltb_spec cp 0x800);
    [|destruct (N.ltb_spec cp 0x10000)]];
    repeat constructor; lia.
Qed.

(** The decoder on a well-formed sequence of one, two, three and four
    bytes. *)
Lemma utf8_units_one b0 tl :
  (b0 <? 0x80) = true -> utf8_units (b0 :: tl) = b0 :: utf8_units tl.
Proof. intros H1. cbn [utf8_units]. now rewrite H1. Qed.

Lemma utf8_units_two b0 b1 tl :
  (b0 <? 0x80) = false -> (0xC2 <=? b0) && (b0 <=? 0xDF) = true ->
  is_cont b1 = true ->
  utf8_units (b0 :: b1 :: tl) = ((b0 - 0xC0) * 64 + (b1 - 0x80)) :: utf8_units tl.
Proof.
  intros H1 H2 H3. remember (b1 :: tl) as t0 eqn:E0.
  cbn [utf8_units]. rewrite H1, H2. subst t0. cbv beta iota. now rewrite H3.
Qed.

Lemma utf8_units_three b0 b1 b2 tl :
  (b0 <? 0x80) = false -> (0xC2 <=? b0) && (b0 <=? 0xDF) = false ->
  (0xE0 <=? b0) && (b0 <=? 0xEF) = true ->
  second_ok3 b0 b1 = true -> is_cont b2 = true ->
  utf8_units (b0 :: b1 :: b2 :: tl)
  = ((b0 - 0xE0) * 4096 + (b1 - 0x80) * 64 + (b2 - 0x80)) :: utf8_units tl.
Proof.
  intros H1 H2 H3 H4 H5. remember (b1 :: b2 :: tl) as t0 eqn:E0.
  cbn [utf8_units]. rewrite H1, H2, H3. subst t0. cbv beta iota.
  now rewrite H4, H5.
Qed.

Lemma utf8_units_four b0 b1 b2 b3 tl :
  (b0 <? 0x80) = false -> (0xC2 <=? b0) && (b0 <=? 0xDF) = false ->
  (0xE0 <=? b0) && (b0 <=? 0xEF) = false ->
  (0xF0 <=? b0) && (b0 <=? 0xF4) = true ->
  second_ok4 b0 b1 = true -> is_cont b2 = true -> is_cont b3 = true ->
  utf8_units (b0 :: b1 :: b2 :: b3 :: tl)
  = units_of_codepoint
      ((b0 - 0xF0) * 262144 + (b1 - 0x80) * 4096 + (b2 - 0x80) * 64
       + (b3 - 0x80)) ++ utf8_units tl.
Proof.
  intros H1 H2 H3 H4 H5 H6 H7. remember (b1 :: b2 :: b3 :: tl) as t0 eqn:E0.
  cbn [utf8_units]. rewrite H1, H2, H3, H4. subst t0. cbv beta iota.
  now rewrite H5, H6, H7.
Qed.

(** Reading back the bytes of one scalar value. *)
Lemma utf8_units_codepoint (cp : N) (tl : list N) :
  scalar cp ->
  utf8_units (utf8_of_codepoint cp ++ tl) = units_of_codepoint cp ++ utf8_units tl.
Proof.
  intros [Hr Hs]. unfold utf8_of_codepoint.
  destruct (N.ltb_spec cp 0x80) as [H1|H1];
    [|destruct (N.ltb_spec cp 0x800) as [H2|H2];
      [|destruct (N.ltb_spec cp 0x10000) as [H3|H3]]].
  - cbn [app]. rewrite utf8_units_one by btest.
    unfold units_of_codepoint. now replace (cp <? 0x10000) with true by btest.
  - set (b0 := 0xC0 + cp / 64). set (b1 := 0x80 + cp mod 64).
    assert (B0 : 0xC2 <= b0 <= 0xDF) by (unfold b0; lia).
    assert (B1 : 0x80 <= b1 <= 0xBF) by (unfold b1; lia).
    assert (V : (b0 - 0xC0) * 64 + (b1 - 0x80) = cp) by (unfold b0, b1; lia).
    clearbody b0 b1. cbn [app].
    rewrite utf8_units_two, V by btest.
    unfold units_of_codepoint. now replace (cp <? 0x10000) with true by btest.
  - set (b0 := 0xE0 + cp / 4096). set (b1 := 0x80 + (cp / 64) mod 64).
    set (b2 := 0x80 + cp mod 64).
    assert (B0 : 0xE0 <= b0 <= 0xEF) by (unfold b0; lia).
    assert (B1 : 0x80 <= b1 <= 0xBF) by (unfold b1; lia).
    assert (B2 : 0x80 <= b2 <= 0xBF) by (unfold b2; lia).
    assert (L : b0 = 0xE0 -> 0xA0 <= b1) by (unfold b0, b1; lia).
    assert (U : b0 = 0xED -> b1 <= 0x9F) by (unfold b0, b1; lia).
    assert (V : (b0 - 0xE0) * 4096 + (b1 - 0x80) * 64 + (b2 - 0x80) = cp)
      by (unfold b0, b1, b2; lia).
    clearbody b0 b1 b2. clear Hs. cbn [app].
    rewrite utf8_units_three, V by btest.
    unfold units_of_codepoint. now replace (cp <? 0x10000) with true by btest.
  - set (b0 := 0xF0 + cp / 262144). set (b1 := 0x80 + (cp / 4096) mod 64).
    set (b2 := 0x80 + (cp / 64) mod 64). set (b3 := 0x80 + cp mod 64).
    assert (B0 : 0xF0 <= b0 <= 0xF4) by (unfold b0; lia).
    assert (B1 : 0x80 <= b1 <= 0xBF) by (unfold b1; lia).
    assert (B2 : 0x80 <= b2 <= 0xBF) by (unfold b2; lia).
    assert (B3 : 0x80 <= b3 <= 0xBF) by (unfold b3; lia).
    assert (L : b0 = 0xF0 -> 0x90 <= b1) by (unfold b0, b1; lia).
    assert (U : b0 = 0xF4 -> b1 <= 0x8F) by (unfold b0, b1; lia).
    assert (V : (b0 - 0xF0) * 262144 + (b1 - 0x80) * 4096 + (b2 - 0x80) * 64
                + (b3 - 0x80) = cp)
      by (unfold b0, b1, b2, b3; lia).
    clearbody b0 b1 b2 b3. clear Hs. cbn [app].
    now rewrite utf8_units_four, V by btest.
Qed.

Lemma is_high_true c : is_high c = true -> 0xD800 <= c <= 0xDBFF.
Proof.
  unfold is_high. intros H. apply andb_true_iff in H. destruct H as [H1 H2].
  apply N.leb_le in H1. apply N.leb_le in H2. lia.
Qed.

Lemma is_low_true c : is_low c = true -> 0xDC00 <= c <= 0xDFFF.
Proof.
  unfold is_low. intros H. apply andb_true_iff in H. destruct H as [H1 H2].
  apply N.leb_le in H1. apply N.leb_le in H2. lia.
Qed.

Lemma not_surrogate c :
  is_high c = false -> is_low c = false -> c < 0xD800 \/ 0xDFFF < c.
Proof.
  unfold is_high, is_low. intros H1 H2.
  destruct (N.leb_spec 0xD800 c), (N.leb_spec c 0xDBFF),
    (N.leb_spec 0xDC00 c), (N.leb_spec c 0xDFFF); cbn in *;
    try discriminate; lia.
Qed.

Lemma units_of_pair c d :
  0xD800 <= c <= 0xDBFF -> 0xDC00 <= d <= 0xDFFF ->
  units_of_codepoint (0x10000 + (c - 0xD800) * 1024 + (d - 0xDC00)) = [c; d].
Proof.
  intros Hc Hd. unfold units_of_codepoint.
  replace (0x10000 + (c - 0xD800) * 1024 + (d - 0xDC00) <? 0x10000) with false
    by (symmetry; apply N.ltb_ge; lia).
  f_equal; [|f_equal]; lia.
Qed.

Lemma units_of_unit c : c < 0x10000 -> units_of_codepoint c = [c].
Proof.
  intros H. unfold units_of_codepoint.
  now replace (c <? 0x10000) with true by (symmetry; apply N.ltb_lt; lia).
Qed.

(** A well-formed string is read back from its UTF-8 bytes, all of which
    are byte values. *)
Lemma utf8_roundtrip_units (n : nat) (s : jsstring) :
  (length s <= n)%nat -> well_formed s = true ->
  utf8_units (utf8_bytes s) = s /\
  Forall (fun b => b < 256) (utf8_bytes s).
Proof.
  revert s. induction n as [|n IH]; intros s Hn Hw.
  - destruct s; [now split|cbn in Hn; lia].
  - destruct s as [|c rest]; [now split|].
    cbn [utf8_bytes well_formed] in *.
    destruct (is_high c) eqn:Hh.
    + destruct rest as [|d rest']; [discriminate|].
      apply andb_true_iff in Hw. destruct Hw as [Hl Hw]. rewrite Hl.
      apply is_high_true in Hh. apply is_low_true in Hl.
      destruct (IH rest') as [IH1 IH2]; [cbn in Hn; lia|exact Hw|].
      split.
      * rewrite utf8_units_codepoint by (split; lia).
        now rewrite units_of_pair, IH1.
      * apply Forall_app. split; [|exact IH2].
        apply utf8_of_codepoint_below. lia.
    + apply andb_true_iff in Hw. destruct Hw as [Hw Hr].
      apply andb_true_iff in Hw. destruct Hw as [Hl Hc].
      apply negb_true_iff in Hl. apply N.ltb_lt in Hc. rewrite Hl.
      destruct (IH rest) as [IH1 IH2]; [cbn in Hn; lia|exact Hr|].
      split.
      * rewrite utf8_units_codepoint
          by (split; [lia|now apply not_surrogate]).
        now rewrite units_of_unit, IH1.
      * apply Forall_app. split; [|exact IH2].
        apply utf8_of_codepoint_below. lia.
Qed.

(** [Buffer.from(s, "utf8").toString("utf8")] is [s] for a well-formed
    [s]. *)
Lemma utf8_roundtrip (s : jsstring) :
  well_formed s = true -> utf8_decode (utf8_encode s) = s.
Proof.
  intros Hw. unfold utf8_decode, utf8_encode.
  destruct (utf8_roundtrip_units (length s) s (le_n _) Hw) as [H1 H2].
  now rewrite map_to_N_byte_of.
Qed.

(** A surrogate on its own does not come back. *)
Lemma utf8_lone_surrogate :
  utf8_encode [0xD800] = [xef; xbf; xbd] /\
  utf8_decode (utf8_encode [0xD800]) = [0xFFFD].
Proof. split; reflexivity. Qed.

Local Close Scope N_scope.

(* ===================================================================== *)
(** * Upload, then download                                               *)
(* ===================================================================== *)

Lemma keeps_emitted_DownloadFile_cleanup env :
  keeps emitted (DownloadFile.cleanup env).
Proof. keep. Qed.

Lemma Download_run env app inp s bs :
  truthy (App.privateKey app) = true ->
  truthy (js_or (DownloadFile.username inp) (App.username app)) = true ->
  reachable env (DownloadFile.host inp) (DownloadFile.port inp)
    (str (js_or (DownloadFile.username inp) (App.username app)))
    (str (App.privateKey app)) ->
  transfers_succeed env ->
  files_succeed env ->
  stat_answered env (DownloadFile.sourcePath inp) ->
  remoteFs s !! DownloadFile.sourcePath inp = Some bs ->
  exists s' p m,
    DownloadFile.onEvent env app inp s = (Normal tt, s') /\
    emitted s' = emitted s ++
      [DownloadOutput
         (if is_base64 (DownloadFile.encoding inp) then base64_encode bs
          else utf8_decode bs)
         (DownloadFile.sourcePath inp) (Z.of_nat (length bs)) p m].
Proof.
  intros Hk Hu Hr Ht Hf Hst Hfile.
  unfold DownloadFile.onEvent. rewrite Hk, Hu. cbn [negb].
  cbn [bind new_NodeSSH assign_tempFilePath].
  match goal with |- context [try_finally ?b ?f ?s0] =>
    assert (B : exists s1 p m, b s0 = (Normal tt, s1) /\
              emitted s1 = emitted s ++
                [DownloadOutput
                   (if is_base64 (DownloadFile.encoding inp) then base64_encode bs
                    else utf8_decode bs)
                   (DownloadFile.sourcePath inp) (Z.of_nat (length bs)) p m])
  end.
  { unfold DownloadFile.body.
    rewrite (bind_normal _ _ _ _ _ (ssh_connect_reachable _ _ _ _ _ _ Hr)).
    cbn [bind Date_now Math_random36 assign_tempFilePath].
    match goal with |- context [ssh_getFile _ ?p _] => set (path := p) end.
    erewrite bind_normal
      by (apply ssh_getFile_run; [exact Ht|reflexivity|exact Hfile]).
    erewrite bind_normal
      by (apply fs_readFile_run; [exact Hf|projections; apply lookup_insert_eq]).
    erewrite bind_normal
      by (apply fs_stat_run; [exact Hf|projections; apply lookup_insert_eq]).
    match goal with |- context [bind (ssh_execCommand ?e ?c None) _ ?s0] =>
      destruct (Hst s0) as (r & t & R & Hp & Hrange);
      rewrite (bind_normal _ _ _ _ _
                 (ssh_execCommand_answered e c None s0 r eq_refl R))
    end.
    rewrite Hp. cbn [option_map Date_toISOString].
    replace (Z.abs (t * 1000) <=? 8640000000000000)%Z with true
      by (symmetry; apply Z.leb_le; exact Hrange).
    cbn [bind ret events_emit]. eexists _, _, _. split; [reflexivity|].
    projections. reflexivity. }
  destruct B as (s1 & p & m & B & Em).
  eexists _, p, m. split.
  - eapply try_finally_run;
      [exact B|apply never_throws_run, DownloadFile_cleanup_never_throws].
  - now rewrite keeps_emitted_DownloadFile_cleanup.
Qed.

Lemma Sample_stat_answered ms unlinkFails path :
  stat_answered (Sample.env ms (Sample.ok Sample.statLine 0) unlinkFails) path.
Proof. intros s. exists (mkExec Sample.statLine "" (Some 0)), 1700000000. now split. Qed.

(** C3, as stated, fails for text: a string that holds a surrogate on its
    own is written as the three bytes of U+FFFD, and U+FFFD is what the
    download returns. *)
Lemma lone_surrogate_does_not_round_trip : ~ text_roundtrip_for_all_strings.
Proof.
  intros H.
  set (env := Sample.env 1 (Sample.ok Sample.statLine 0) false).
  set (up := UploadFile.mkInput "h" 22 [0xD800%N] "/srv/a.txt" None (Some "text") None).
  set (down := DownloadFile.mkInput "h" 22 "/srv/a.txt" None (Some "text")).
  set (s1 := snd (UploadFile.onEvent env Sample.app up Sample.start)).
  set (s2 := snd (DownloadFile.onEvent env Sample.app down s1)).
  assert (E1 : UploadFile.onEvent env Sample.app up Sample.start = (Normal tt, s1))
    by (vm_compute; reflexivity).
  assert (E2 : DownloadFile.onEvent env Sample.app down s1 = (Normal tt, s2))
    by (vm_compute; reflexivity).
  assert (E3 : emitted s2 = emitted s1 ++
                 [DownloadOutput [0xFFFD%N] "/srv/a.txt" 3 "644"
                    "2023-11-14T22:13:20.000Z"])
    by (vm_compute; reflexivity).
  specialize (H env Sample.app "h" 22 None "/srv/a.txt" None Sample.start
                [0xD800%N] s1 s2 [0xFFFD%N] 3 "644" "2023-11-14T22:13:20.000Z"
                E1 E2 E3).
  discriminate H.
Qed.

(** C3, amended. Where the server is reached, transfers and staging files
    do not fail, the permission change (if one is asked for) is answered and
    leaves the file alone, and [stat] answers with a well-formed line:
    - uploading a well-formed string [C] as text and then downloading the
      path as text completes normally both times and returns [C];
    - uploading the base64 text of any bytes [B] as base64 puts exactly [B]
      at the path, and downloading the path as base64 returns the base64
      text of [B] again. *)
Theorem upload_download_roundtrip
    (env : Env) (app : App.Config) (host : string) (port : Z)
    (user : option string) (path : string) (perms : option string) (s : State) :
  truthy (App.privateKey app) = true ->
  truthy (js_or user (App.username app)) = true ->
  reachable env host port (str (js_or user (App.username app)))
    (str (App.privateKey app)) ->
  transfers_succeed env ->
  files_succeed env ->
  (truthy perms = true ->
   answered env (UploadFile.chmodCommand (str perms) path) /\
   leaves_alone env (UploadFile.chmodCommand (str perms) path) path) ->
  stat_answered env path ->
  (forall C : jsstring,
     well_formed C = true ->
     exists s1 s2 size p m,
       UploadFile.onEvent env app
         (UploadFile.mkInput host port C path user (Some "text") perms) s
       = (Normal tt, s1) /\
       DownloadFile.onEvent env app
         (DownloadFile.mkInput host port path user (Some "text")) s1
       = (Normal tt, s2) /\
       emitted s2 = emitted s1 ++ [DownloadOutput C path size p m]) /\
  (forall B : list byte,
     exists s1 s2 size p m,
       UploadFile.onEvent env app
         (UploadFile.mkInput host port (base64_encode B) path user
            (Some "base64") perms) s
       = (Normal tt, s1) /\
       remoteFs s1 !! path = Some B /\
       DownloadFile.onEvent env app
         (DownloadFile.mkInput host port path user (Some "base64")) s1
       = (Normal tt, s2) /\
       emitted s2 = emitted s1 ++
         [DownloadOutput (base64_encode B) path size p m]).
Proof.
  intros Hk Hu Hr Ht Hf Hc Hst. split.
  - intros C Hw.
    destruct (Upload_run env app
                (UploadFile.mkInput host port C path user (Some "text") perms)
                s Hk Hu Hr Ht Hf (fun H => proj1 (Hc H)))
      as (s1 & E1 & _ & Hfile).
    specialize (Hfile (fun H => proj2 (Hc H))).
    destruct (Download_run env app
                (DownloadFile.mkInput host port path user (Some "text"))
                s1 _ Hk Hu Hr Ht Hf Hst Hfile)
      as (s2 & p & m & E2 & Em).
    exists s1, s2, (Z.of_nat (length (utf8_encode C))), p, m.
    split; [exact E1|]. split; [exact E2|].
    rewrite Em. cbn [DownloadFile.encoding is_base64 String.eqb].
    unfold UploadFile.fileContent.
    cbn [UploadFile.encoding UploadFile.content is_base64 DownloadFile.sourcePath].
    replace (String.eqb "text" "base64") with false by reflexivity.
    now rewrite (utf8_roundtrip C Hw).
  - intros B.
    destruct (Upload_run env app
                (UploadFile.mkInput host port (base64_encode B) path user
                   (Some "base64") perms)
                s Hk Hu Hr Ht Hf (fun H => proj1 (Hc H)))
      as (s1 & E1 & _ & Hfile).
    specialize (Hfile (fun H => proj2 (Hc H))).
    unfold UploadFile.fileContent in Hfile.
    cbn [UploadFile.encoding UploadFile.content UploadFile.destinationPath
         is_base64] in Hfile.
    replace (String.eqb "base64" "base64") with true in Hfile by reflexivity.
    rewrite base64_roundtrip in Hfile.
    destruct (Download_run env app
                (DownloadFile.mkInput host port path user (Some "base64"))
                s1 _ Hk Hu Hr Ht Hf Hst Hfile)
      as (s2 & p & m & E2 & Em).
    exists s1, s2, (Z.of_nat (length B)), p, m.
    split; [exact E1|]. split; [exact Hfile|]. split; [exact E2|].
    rewrite Em. cbn [DownloadFile.encoding is_base64 DownloadFile.sourcePath].
    now replace (String.eqb "base64" "base64") with true by reflexivity.
Qed.

Lemma upload_download_roundtrip_witness :
  exists s1 s2 size p m,
    UploadFile.onEvent (Sample.env 1 (Sample.ok Sample.statLine 0) false)
      Sample.app
      (UploadFile.mkInput "h" 22 [104; 233; 0xD83D; 0xDE00]%N "/srv/a.txt" None
         (Some "text") (Some "0644")) Sample.start
    = (Normal tt, s1) /\
    DownloadFile.onEvent (Sample.env 1 (Sample.ok Sample.statLine 0) false)
      Sample.app (DownloadFile.mkInput "h" 22 "/srv/a.txt" None (Some "text")) s1
    = (Normal tt, s2) /\
    emitted s2 = emitted s1 ++
      [DownloadOutput [104; 233; 0xD83D; 0xDE00]%N "/srv/a.txt" size p m].
Proof.
  apply (proj1 (upload_download_roundtrip
                  (Sample.env 1 (Sample.ok Sample.statLine 0) false)
                  Sample.app "h" 22 None "/srv/a.txt" (Some "0644")
                  Sample.start eq_refl eq_refl
                  (Sample_reachable _ _ _ _ _)
                  (Sample_transfers_succeed _ _ _)
                  (Sample_files_succeed _ _ _)
                  (fun _ => conj (Sample_answered _ _ _ _ _)
                                 (Sample_leaves_alone _ _ _ _ _))
                  (Sample_stat_answered _ _ _))).
  reflexivity.
Defined.

(* ===================================================================== *)
(** * What a block emits                                                  *)
(* ===================================================================== *)

Lemma emits_once_events_emit o : emits_once (events_emit o).
Proof. intros s. now exists o. Qed.

Lemma emits_once_throw {A} e : emits_once (@throw A e).
Proof. now intros s. Qed.

Lemma emits_once_bind {A B} (m : M A) (k : A -> M B) :
  keeps emitted m -> (forall a, emits_once (k a)) -> emits_once (bind m k).
Proof.
  intros Hm Hk s. unfold bind. specialize (Hm s).
  destruct (m s) as [[a|e] s1]; cbn [fst snd] in *.
  - specialize (Hk a s1). rewrite Hm in Hk. exact Hk.
  - exact Hm.
Qed.

Lemma emits_once_try_finally {A} (body : M A) (fin : M unit) :
  emits_once body -> keeps emitted fin -> never_throws fin ->
  emits_once (try_finally body fin).
Proof.
  intros Hb Hk Hn s. rewrite try_finally_completion by exact Hn.
  rewrite snd_try_finally, Hk. apply Hb.
Qed.

Lemma emits_once_if {A} (b : bool) (m1 m2 : M A) :
  emits_once m1 -> emits_once m2 -> emits_once (if b then m1 else m2).
Proof. now destruct b. Qed.

(** Settles [emits_once] for an event handler from its syntax: every step
    before the last keeps the payloads, the last one emits. *)
Ltac emit_once :=
  autounfold with blocks;
  repeat
    match goal with
    | |- forall _, _ => intro
    | |- emits_once (if _ then _ else _) => apply emits_once_if
    | |- emits_once (let _ := _ in _) => cbv zeta
    | |- emits_once (throw _) => apply emits_once_throw
    | |- emits_once (events_emit _) => apply emits_once_events_emit
    | |- emits_once (try_finally _ _) => apply emits_once_try_finally
    | |- emits_once (bind _ _) => apply emits_once_bind
    | |- never_throws (ssh_dispose _) => apply ssh_dispose_never_throws
    | |- never_throws (bind (ssh_dispose _) _) =>
        apply UploadFile_cleanup_never_throws
    | |- never_throws (bind (try_catch _ _) _) =>
        apply ExecuteScript_cleanup_never_throws
    | |- keeps emitted _ => solve [ keep ]
    end.

(** X1. Each of the four event blocks emits exactly one payload when it
    completes normally and none when it throws: no result is emitted twice,
    and no error follows a result. *)
Theorem event_blocks_emit_once
    (env : Env) (app : App.Config)
    (cmd : ExecuteCommand.Input) (scr : ExecuteScript.Input)
    (up : UploadFile.Input) (down : DownloadFile.Input) :
  emits_once (ExecuteCommand.onEvent env app cmd) /\
  emits_once (ExecuteScript.onEvent env app scr) /\
  emits_once (UploadFile.onEvent env app up) /\
  emits_once (DownloadFile.onEvent env app down).
Proof.
  split; [|split; [|split]]; emit_once.
Qed.

(* ===================================================================== *)
(** * The calls a block makes                                             *)
(* ===================================================================== *)

Lemma only_refl Q s : only Q s s.
Proof. exists []. split; [symmetry; apply app_nil_r|constructor]. Qed.

Lemma only_trans Q s1 s2 s3 : only Q s1 s2 -> only Q s2 s3 -> only Q s1 s3.
Proof.
  intros (l1 & E1 & F1) (l2 & E2 & F2). exists (l1 ++ l2).
  split; [now rewrite E2, E1, app_assoc|]. apply Forall_app. now split.
Qed.

Lemma only_same_trace Q s0 s s' : trace s0 = trace s -> only Q s0 s' -> only Q s s'.
Proof. intros E (l & El & F). exists l. split; [now rewrite <- E|exact F]. Qed.

Lemma only_weaken (Q Q' : Event -> Prop) s s' :
  (forall e, Q e -> Q' e) -> only Q s s' -> only Q' s s'.
Proof.
  intros H (l & El & F). exists l. split; [exact El|].
  eapply Forall_impl; [exact F|exact H].
Qed.

(** Settles [respects (only Q)] for a primitive: the one call it may add
    passes the test, by [solveQ]. *)
Ltac only_primitive solveQ :=
  let s := fresh "s" in
  intros s;
  unfold only, new_NodeSSH, Date_now, Math_random36, assign_tempFilePath,
    read_tempFilePath, console_warn, events_emit, ssh_connect,
    ssh_execCommand, ssh_putFile, ssh_getFile, ssh_dispose, fs_writeFile,
    fs_readFile, fs_stat, fs_unlink, Date_toISOString, ret, throw;
  repeat match goal with
         | |- context [match ?x with _ => _ end] =>
             lazymatch x with
             | context [match _ with _ => _ end] => fail
             | _ => destruct x
             end
         end;
  cbn [fst snd]; projections;
  first [ exists []; split; [ symmetry; apply app_nil_r | constructor ]
        | eexists [_]; split;
          [ reflexivity | constructor; [ solveQ | constructor ] ] ].

(** Settles [respects (only Q)] for a handler from its syntax. *)
Ltac only_calls solveQ :=
  repeat
    match goal with
    | |- forall _ _ _, only _ _ _ -> only _ _ _ -> only _ _ _ =>
        exact (only_trans _)
    | |- forall _, only _ _ _ => exact (only_refl _)
    | |- forall _, _ => intro
    | |- respects (only _) (bind _ _) => apply respects_bind
    | |- respects (only _) (try_finally _ _) => apply respects_try_finally
    | |- respects (only _) (try_catch _ _) => apply respects_try_catch
    | |- respects (only _) (if _ then _ else _) => apply respects_if
    | |- respects (only _) (match ?x with _ => _ end) => destruct x
    | |- respects (only _) (let _ := _ in _) => cbv zeta
    | |- respects (only _) _ => solve [ only_primitive solveQ ]
    end.

Ltac solve_allowed :=
  cbn [allowed request_host request_port request_username];
  unfold upload_staging, download_staging, metadataCommands,
    ExecuteScript.create, ExecuteScript.chmod, ExecuteScript.run,
    ExecuteScript.tempFile, ExecuteScript.at_connect;
  cbn [In clock set_session session];
  first [ reflexivity | solve [ intuition eauto 12 ] ].

Lemma ExecuteCommand_calls env app inp s :
  only (allowed env app (executeCommand inp) s) s
    (snd (ExecuteCommand.onEvent env app inp s)).
Proof.
  assert (H : respects (only (allowed env app (executeCommand inp) s))
                (ExecuteCommand.onEvent env app inp)).
  { autounfold with blocks. only_calls solve_allowed. }
  apply H.
Qed.

Lemma HostMetadata_calls P env app cfg s :
  only (allowed env app (hostMetadata cfg) s) s
    (snd (HostMetadata.onSync P env app cfg s)).
Proof.
  assert (H : respects (only (allowed env app (hostMetadata cfg) s))
                (HostMetadata.onSync P env app cfg)).
  { autounfold with blocks. only_calls solve_allowed. }
  apply H.
Qed.

Lemma ExecuteScript_calls env app inp s :
  only (allowed env app (executeScript inp) s) s
    (snd (ExecuteScript.onEvent env app inp s)).
Proof.
  unfold ExecuteScript.onEvent.
  destruct (truthy (App.privateKey app)); cbn [negb]; [|apply only_refl].
  destruct (truthy (js_or _ _)); cbn [negb]; [|apply only_refl].
  cbn [bind new_NodeSSH Date_now Math_random36].
  apply (only_same_trace _ (set_session false s)); [reflexivity|].
  match goal with |- only ?Q ?s0 (snd (?m ?s0)) =>
    assert (H : respects (only Q) m); [|apply H]
  end.
  unfold ExecuteScript.body, ExecuteScript.cleanup.
  only_calls solve_allowed.
Qed.

(** The name in [tempFilePath] when a file block leaves its try block is
    the one it had on entry, or that of a staging file. *)
Lemma UploadFile_body_tempFilePath env app inp u s0 :
  tempFilePath (snd (UploadFile.body env app inp u s0)) = tempFilePath s0 \/
  exists p, tempFilePath (snd (UploadFile.body env app inp u s0)) = Some p /\
            upload_staging env p.
Proof.
  unfold UploadFile.body.
  match goal with |- context [bind (ssh_connect ?e ?c) _ ?s] =>
    destruct (ssh_connect_cases e c s) as [(e0 & E & T)|E] end.
  - rewrite (bind_throws _ _ _ _ _ E). now left.
  - rewrite (bind_normal _ _ _ _ _ E).
    cbn [bind Date_now Math_random36 assign_tempFilePath].
    match goal with |- context [fs_writeFile _ ?p _] => set (path := p) end.
    match goal with |- context [snd (?m ?s)] =>
      assert (H : respects (stages path) m) by stage;
      destruct (H s) as [HT _]
    end.
    right. exists path. split; [rewrite HT; reflexivity|].
    unfold upload_staging, path. eauto.
Qed.

Lemma DownloadFile_body_tempFilePath env app inp u s0 :
  tempFilePath (snd (DownloadFile.body env app inp u s0)) = tempFilePath s0 \/
  exists p, tempFilePath (snd (DownloadFile.body env app inp u s0)) = Some p /\
            download_staging env p.
Proof.
  unfold DownloadFile.body.
  match goal with |- context [bind (ssh_connect ?e ?c) _ ?s] =>
    destruct (ssh_connect_cases e c s) as [(e0 & E & T)|E] end.
  - rewrite (bind_throws _ _ _ _ _ E). now left.
  - rewrite (bind_normal _ _ _ _ _ E).
    cbn [bind Date_now Math_random36 assign_tempFilePath].
    match goal with |- context [ssh_getFile _ ?p _] => set (path := p) end.
    match goal with |- context [snd (?m ?s)] =>
      assert (H : respects (stages path) m) by stage;
      destruct (H s) as [HT _]
    end.
    right. exists path. split; [rewrite HT; reflexivity|].
    unfold download_staging, path. eauto.
Qed.

(** The finaliser of a file block closes the session and removes the file
    named in [tempFilePath], if any. *)
Lemma file_cleanup_calls (Q : Event -> Prop) env s1 :
  Q EvDispose ->
  (forall p, tempFilePath s1 = Some p -> Q (EvUnlink p)) ->
  only Q s1 (snd (UploadFile.cleanup env s1)).
Proof.
  intros Hd Hu.
  unfold UploadFile.cleanup, bind, try_catch, ssh_dispose, read_tempFilePath,
    fs_unlink, ret, only.
  cbn beta iota. projections.
  destruct (tempFilePath s1) as [p|] eqn:Hp; cbn [truthy str].
  - specialize (Hu p eq_refl).
    repeat match goal with
           | |- context [match ?x with _ => _ end] =>
               lazymatch x with
               | context [match _ with _ => _ end] => fail
               | _ => destruct x
               end
           end;
      cbn [fst snd]; projections;
      first [ exists [EvDispose; EvUnlink p]; split;
              [ now rewrite <- app_assoc | repeat constructor; assumption ]
            | exists [EvDispose]; split;
              [ reflexivity | repeat constructor; assumption ] ].
  - cbn [fst snd]. projections.
    exists [EvDispose]. split; [reflexivity|repeat constructor; assumption].
Qed.

Lemma UploadFile_calls env app inp s :
  only (allowed env app (uploadFile inp) s) s
    (snd (UploadFile.onEvent env app inp s)).
Proof.
  unfold UploadFile.onEvent.
  destruct (truthy (App.privateKey app)); cbn [negb]; [|apply only_refl].
  destruct (truthy (js_or _ _)); cbn [negb]; [|apply only_refl].
  cbn [bind new_NodeSSH assign_tempFilePath]. rewrite snd_try_finally.
  set (s0 := set_tempFilePath None (set_session false s)).
  apply (only_same_trace _ s0); [reflexivity|].
  match goal with |- only _ _ (snd (_ (snd (?m ?s)))) =>
    apply (only_trans _ _ (snd (m s)))
  end.
  - match goal with |- only ?Q ?s0 (snd (?m ?s0)) =>
      assert (H : respects (only Q) m); [|apply H]
    end.
    unfold UploadFile.body.
    destruct (truthy (UploadFile.permissions inp)) eqn:Hp;
      only_calls solve_allowed.
  - apply file_cleanup_calls; [exact I|].
    intros p Hp.
    destruct (UploadFile_body_tempFilePath env app inp
                (js_or (UploadFile.username inp) (App.username app)) s0)
      as [H|(p' & H & Hs)]; rewrite H in Hp.
    + discriminate.
    + injection Hp as <-. exact Hs.
Qed.

Lemma DownloadFile_calls env app inp s :
  only (allowed env app (downloadFile inp) s) s
    (snd (DownloadFile.onEvent env app inp s)).
Proof.
  unfold DownloadFile.onEvent.
  destruct (truthy (App.privateKey app)); cbn [negb]; [|apply only_refl].
  destruct (truthy (js_or _ _)); cbn [negb]; [|apply only_refl].
  cbn [bind new_NodeSSH assign_tempFilePath]. rewrite snd_try_finally.
  set (s0 := set_tempFilePath None (set_session false s)).
  apply (only_same_trace _ s0); [reflexivity|].
  match goal with |- only _ _ (snd (_ (snd (?m ?s)))) =>
    apply (only_trans _ _ (snd (m s)))
  end.
  - match goal with |- only ?Q ?s0 (snd (?m ?s0)) =>
      assert (H : respects (only Q) m); [|apply H]
    end.
    unfold DownloadFile.body. only_calls solve_allowed.
  - apply (file_cleanup_calls _ env); [exact I|].
    intros p Hp.
    destruct (DownloadFile_body_tempFilePath env app inp
                (js_or (DownloadFile.username inp) (App.username app)) s0)
      as [H|(p' & H & Hs)]; rewrite H in Hp.
    + discriminate.
    + injection Hp as <-. exact Hs.
Qed.

(** X2. Whatever the environment answers, the calls a block makes are
    those of its own protocol, with its own arguments: it connects with the
    options of the request only; Execute Command sends the caller's command
    and nothing else; Execute Script sends its four commands on its one
    script file; Upload File and Download File touch no local file but a
    staging file, transfer to the destination (from the source) only, and
    send [chmod] (only when permissions are given) and [stat]; Host
    Metadata sends its seven fixed commands and touches no file. *)
Theorem blocks_make_only_their_calls
    (P : HostMetadata.Parsers) (env : Env) (app : App.Config) (r : Request)
    (s : State) :
  only (allowed env app r s) s (snd (handle P env app r s)).
Proof.
  rewrite handle_state. destruct r.
  - apply ExecuteCommand_calls.
  - apply ExecuteScript_calls.
  - apply UploadFile_calls.
  - apply DownloadFile_calls.
  - apply HostMetadata_calls.
Qed.

(* ===================================================================== *)
(** * One session for each operation                                      *)
(* ===================================================================== *)

Lemma filter_no_session (l : list Event) :
  Forall no_session_call l -> List.filter is_session_event l = [].
Proof.
  induction 1 as [|e l He _ IH]; [reflexivity|].
  cbn [List.filter]. now rewrite He.
Qed.

Lemma ssh_connect_trace env c s :
  trace (snd (ssh_connect env c s)) = trace s ++ [EvConnect c].
Proof.
  unfold ssh_connect.
  repeat match goal with
         | |- context [match ?x with _ => _ end] =>
             lazymatch x with
             | context [match _ with _ => _ end] => fail
             | _ => destruct x
             end
         end; reflexivity.
Qed.

(** A try block that connects and then makes no call on the session,
    under a finaliser that closes it once. *)
Lemma one_session_try_finally {A} env c (rest : M A) (fin : M unit) s :
  respects (only no_session_call) rest ->
  respects closes fin ->
  one_session c s
    (snd (try_finally (bind (ssh_connect env c) (fun _ => rest)) fin s)).
Proof.
  intros Hr Hf. rewrite snd_try_finally.
  assert (Hb : exists l,
             trace (snd (bind (ssh_connect env c) (fun _ => rest) s))
             = trace s ++ EvConnect c :: l /\ Forall no_session_call l).
  { unfold bind. pose proof (ssh_connect_trace env c s) as T.
    destruct (ssh_connect env c s) as [[[]|e] s1]; cbn [snd] in *.
    - destruct (Hr s1) as (l & E & F). exists l.
      split; [now rewrite E, T, <- app_assoc|exact F].
    - exists []. split; [exact T|constructor]. }
  destruct Hb as (l1 & E1 & F1).
  destruct (Hf (snd (bind (ssh_connect env c) (fun _ => rest) s)))
    as (l2 & E2 & F2).
  exists (l1 ++ l2). split.
  - rewrite E2, E1, <- app_assoc. reflexivity.
  - rewrite List.filter_app, (filter_no_session _ F1). exact F2.
Qed.

Lemma closes_ssh_dispose env : respects closes (ssh_dispose env).
Proof. intros s. exists [EvDispose]. split; reflexivity. Qed.

Lemma file_cleanup_trace env s :
  trace (snd (UploadFile.cleanup env s)) = trace s ++ [EvDispose] \/
  exists p, tempFilePath s = Some p /\
            trace (snd (UploadFile.cleanup env s))
            = trace s ++ [EvDispose; EvUnlink p].
Proof.
  unfold UploadFile.cleanup, bind, try_catch, ssh_dispose, read_tempFilePath,
    fs_unlink, ret.
  cbn beta iota. projections.
  destruct (tempFilePath s) as [p|] eqn:Hp; cbn [truthy str].
  - repeat match goal with
           | |- context [match ?x with _ => _ end] =>
               lazymatch x with
               | context [match _ with _ => _ end] => fail
               | _ => destruct x
               end
           end;
      cbn [fst snd]; projections;
      first [ now left
            | right; exists p; split; [reflexivity|now rewrite <- app_assoc] ].
  - cbn [fst snd]. projections. now left.
Qed.

Lemma closes_file_cleanup env : respects closes (UploadFile.cleanup env).
Proof.
  intros s. destruct (file_cleanup_trace env s) as [E|(p & _ & E)].
  - exists [EvDispose]. split; [exact E|reflexivity].
  - exists [EvDispose; EvUnlink p]. split; [exact E|reflexivity].
Qed.

Lemma closes_script_cleanup env tempFile :
  respects closes (ExecuteScript.cleanup env tempFile).
Proof.
  intros s.
  unfold ExecuteScript.cleanup, bind, try_catch, ssh_execCommand, console_warn,
    ssh_dispose, ret, closes.
  destruct (session s).
  - destruct (remoteExec env _ _ s) as [[e|r] fs]; cbn [fst snd]; projections;
      eexists [_; _]; (split; [now rewrite <- app_assoc|reflexivity]).
  - cbn [fst snd]. projections. exists [EvDispose]. split; reflexivity.
Qed.

Lemma one_session_same_trace c s0 s s' :
  trace s0 = trace s -> one_session c s0 s' -> one_session c s s'.
Proof. intros E (l & El & F). exists l. split; [now rewrite <- E|exact F]. Qed.

Ltac no_session := only_calls ltac:(reflexivity).

Lemma ExecuteCommand_one_session env app inp s :
  truthy (App.privateKey app) = true ->
  truthy (js_or (ExecuteCommand.username inp) (App.username app)) = true ->
  one_session (ExecuteCommand.options app inp) s
    (snd (ExecuteCommand.onEvent env app inp s)).
Proof.
  intros Hk Hu. unfold ExecuteCommand.onEvent. rewrite Hk, Hu. cbn [negb].
  cbn [bind new_NodeSSH Date_now].
  apply (one_session_same_trace _ (set_session false s)); [reflexivity|].
  unfold ExecuteCommand.body, ExecuteCommand.options.
  apply one_session_try_finally; [no_session|apply closes_ssh_dispose].
Qed.

Lemma ExecuteScript_one_session env app inp s :
  truthy (App.privateKey app) = true ->
  truthy (js_or (ExecuteScript.username inp) (App.username app)) = true ->
  one_session (ExecuteScript.options app inp) s
    (snd (ExecuteScript.onEvent env app inp s)).
Proof.
  intros Hk Hu. unfold ExecuteScript.onEvent. rewrite Hk, Hu. cbn [negb].
  cbn [bind new_NodeSSH Date_now Math_random36].
  apply (one_session_same_trace _ (set_session false s)); [reflexivity|].
  unfold ExecuteScript.body, ExecuteScript.options.
  apply one_session_try_finally; [no_session|apply closes_script_cleanup].
Qed.

Lemma UploadFile_one_session env app inp s :
  truthy (App.privateKey app) = true ->
  truthy (js_or (UploadFile.username inp) (App.username app)) = true ->
  one_session
    (mkConnect (UploadFile.host inp)
       (str (js_or (UploadFile.username inp) (App.username app)))
       (UploadFile.port inp) (str (App.privateKey app)) None) s
    (snd (UploadFile.onEvent env app inp s)).
Proof.
  intros Hk Hu. unfold UploadFile.onEvent. rewrite Hk, Hu. cbn [negb].
  cbn [bind new_NodeSSH assign_tempFilePath].
  apply (one_session_same_trace _ (set_tempFilePath None (set_session false s)));
    [reflexivity|].
  unfold UploadFile.body.
  apply one_session_try_finally; [no_session|apply closes_file_cleanup].
Qed.

Lemma DownloadFile_one_session env app inp s :
  truthy (App.privateKey app) = true ->
  truthy (js_or (DownloadFile.username inp) (App.username app)) = true ->
  one_session
    (mkConnect (DownloadFile.host inp)
       (str (js_or (DownloadFile.username inp) (App.username app)))
       (DownloadFile.port inp) (str (App.privateKey app)) None) s
    (snd (DownloadFile.onEvent env app inp s)).
Proof.
  intros Hk Hu. unfold DownloadFile.onEvent. rewrite Hk, Hu. cbn [negb].
  cbn [bind new_NodeSSH assign_tempFilePath].
  apply (one_session_same_trace _ (set_tempFilePath None (set_session false s)));
    [reflexivity|].
  unfold DownloadFile.body.
  apply one_session_try_finally; [no_session|apply (closes_file_cleanup env)].
Qed.

Lemma snd_try_catch_ret {A} (body : M A) (f : JsError -> A) s :
  snd (try_catch body (fun e => ret (f e)) s) = snd (body s).
Proof. unfold try_catch. now destruct (body s) as [[a|e] s1]. Qed.

Lemma HostMetadata_one_session P env app cfg s :
  truthy (App.privateKey app) = true ->
  truthy (js_or (HostMetadata.username cfg) (App.username app)) = true ->
  one_session
    (mkConnect (HostMetadata.host cfg)
       (str (js_or (HostMetadata.username cfg) (App.username app)))
       (HostMetadata.port cfg) (str (App.privateKey app)) None) s
    (snd (HostMetadata.onSync P env app cfg s)).
Proof.
  intros Hk Hu. unfold HostMetadata.onSync. rewrite Hk, Hu. cbn [negb].
  cbn [bind new_NodeSSH].
  apply (one_session_same_trace _ (set_session false s)); [reflexivity|].
  rewrite snd_try_finally, snd_try_catch_ret, <- snd_try_finally.
  unfold HostMetadata.body.
  apply one_session_try_finally; [|apply closes_ssh_dispose].
  autounfold with blocks. no_session.
Qed.

(** X3. An operation with a private key and a username opens exactly one
    session and closes it exactly once: its first call is [ssh.connect]
    with the options of the request, and among all the calls after it
    there is one [ssh.dispose] and no second [ssh.connect], whatever
    fails in between. *)
Theorem one_session_per_operation
    (P : HostMetadata.Parsers) (env : Env) (app : App.Config) (r : Request)
    (s : State) :
  truthy (App.privateKey app) = true ->
  truthy (js_or (request_username r) (App.username app)) = true ->
  one_session (connect_options app r) s (snd (handle P env app r s)).
Proof.
  intros Hk Hu. rewrite handle_state. unfold connect_options.
  rewrite <- js_or_effective.
  destruct r; cbn [request_username request_host request_port] in *.
  - now apply ExecuteCommand_one_session.
  - now apply ExecuteScript_one_session.
  - now apply UploadFile_one_session.
  - now apply DownloadFile_one_session.
  - now apply HostMetadata_one_session.
Qed.

Lemma one_session_per_operation_witness :
  truthy (App.privateKey Sample.app) = true /\
  truthy (js_or (request_username (executeScript Sample.script))
            (App.username Sample.app)) = true /\
  one_session (connect_options Sample.app (executeScript Sample.script))
    Sample.start
    (snd (handle Sample.parsers (Sample.env 1 (Sample.ok "" 0) false)
            Sample.app (executeScript Sample.script) Sample.start)).
Proof.
  split; [reflexivity|]. split; [reflexivity|].
  apply (one_session_per_operation Sample.parsers
           (Sample.env 1 (Sample.ok "" 0) false) Sample.app
           (executeScript Sample.script) Sample.start); reflexivity.
Defined.

(* ===================================================================== *)
(** * What Host Metadata reports                                          *)
(* ===================================================================== *)

Lemma ssh_connect_unverified_cases env h u p k s :
  (exists e,
     ssh_connect env (mkConnect h u p k None) s
     = (Throws e, record env (EvConnect (mkConnect h u p k None)) s)
     /\ ConnectFault env h p e) \/
  ssh_connect env (mkConnect h u p k None) s
  = (Normal tt,
     set_session true (record env (EvConnect (mkConnect h u p k None)) s)).
Proof.
  unfold ssh_connect, ConnectFault. cbn [cc_host cc_port cc_hostVerifier
    cc_username cc_privateKey].
  destruct (resolve env h p s) as [e0|srv] eqn:R.
  - left. exists e0. split; [reflexivity|]. left. now exists s.
  - destruct (authorizes srv u k); [now right|].
    left. eexists. split; [reflexivity|]. now right.
Qed.

Lemma ssh_execCommand_channel env cmd cwd s :
  session s = true ->
  let s' := set_remoteFs (snd (remoteExec env cmd cwd s))
              (record env (EvExec cmd cwd) s) in
  (exists e, ssh_execCommand env cmd cwd s = (Throws e, s')
             /\ fst (remoteExec env cmd cwd s) = inl e) \/
  (exists r, ssh_execCommand env cmd cwd s = (Normal r, s')
             /\ fst (remoteExec env cmd cwd s) = inr r).
Proof.
  intros Hs. unfold ssh_execCommand. rewrite Hs.
  destruct (remoteExec env cmd cwd s) as [[e|r] fs] eqn:R; cbn [fst snd].
  - left. now exists e.
  - right. now exists r.
Qed.

(** Runs the next unguarded probe on both of its completions. *)
Ltac step_probe :=
  match goal with
  | |- context [bind (ssh_execCommand ?e ?c ?w) _ ?s0] =>
      let E := fresh "E" in
      let T := fresh "T" in
      let e0 := fresh "e" in
      let r := fresh "r" in
      destruct (ssh_execCommand_channel e c w s0 eq_refl)
        as [(e0 & E & T)|(r & E & _)];
      [ rewrite (bind_throws _ _ _ _ _ E)
      | rewrite (bind_normal _ _ _ _ _ E) ]
  end.

(** Runs the guarded steps of the collection, none of which throws. *)
Ltac step_guarded :=
  match goal with
  | |- context [bind (HostMetadata.probeLoadAverage ?P ?e) _ ?s0] =>
      let l := fresh "l" in
      let El := fresh "El" in
      destruct (probeLoadAverage_never_throws P e s0) as [l El];
      rewrite (bind_normal _ _ _ _ _ (normal_run _ _ _ El))
  | |- context [bind (HostMetadata.probeMemory ?P ?e) _ ?s0] =>
      let m := fresh "m" in
      let Em := fresh "Em" in
      destruct (probeMemory_never_throws P e s0) as [m Em];
      rewrite (bind_normal _ _ _ _ _ (normal_run _ _ _ Em))
  | |- context [bind (HostMetadata.parseUptime ?P ?r) _ ?s0] =>
      let u := fresh "u" in
      let Eu := fresh "Eu" in
      destruct (parseUptime_never_throws P r s0) as [u Eu];
      rewrite (bind_normal _ _ _ _ _ (normal_run _ _ _ Eu))
  end.

(** X4. The sync of Host Metadata never throws: it always returns a
    status.  The status is [failed] with one of the two configuration
    messages, or [failed] with the message of an error behind the prefix
    of a connection failure, or [ready].  The error so reported is that of
    a connection that could not be opened or of a break of the channel of
    one of the five commands sent outside a [try] of their own; an error
    of the load average or of the memory probe is never reported.  The
    status is [ready] only with a private key and a username. *)
Theorem sync_always_reports
    (P : HostMetadata.Parsers) (env : Env) (app : App.Config)
    (cfg : HostMetadata.Config) (s : State) :
  exists r,
    fst (HostMetadata.onSync P env app cfg s) = Normal r /\
    match r with
    | HostMetadata.Failed d =>
        (absent (App.privateKey app) /\ d = msg_no_key) \/
        (absent (js_or (HostMetadata.username cfg) (App.username app)) /\
         d = msg_no_user_block) \/
        exists e,
          d = "Failed to connect to host: " +:+ message e /\
          (ConnectFault env (HostMetadata.host cfg) (HostMetadata.port cfg) e \/
           ChannelFault env unguardedCommands e)
    | HostMetadata.Ready _ =>
        truthy (App.privateKey app) = true /\
        truthy (js_or (HostMetadata.username cfg) (App.username app)) = true
    end.
Proof.
  unfold HostMetadata.onSync, absent.
  destruct (truthy (App.privateKey app)) eqn:Hk; cbn [negb];
    [|eexists; split; [reflexivity|]; now left].
  destruct (truthy (js_or _ _)) eqn:Hu; cbn [negb];
    [|eexists; split; [reflexivity|]; right; now left].
  cbn [bind new_NodeSSH].
  rewrite try_finally_completion by apply ssh_dispose_never_throws.
  unfold try_catch, HostMetadata.body.
  assert (Hc : forall cmd s1 e,
             In cmd unguardedCommands ->
             fst (remoteExec env cmd None s1) = inl e ->
             exists e0 : JsError,
               "Failed to connect to host: " +:+ message e
               = "Failed to connect to host: " +:+ message e0 /\
               (ConnectFault env (HostMetadata.host cfg) (HostMetadata.port cfg) e0 \/
                ChannelFault env unguardedCommands e0)).
  { intros cmd s1 e Hi He. exists e. split; [reflexivity|]. right.
    now exists cmd, s1. }
  match goal with |- context [bind (ssh_connect ?e (mkConnect ?h ?u ?p ?k None)) _ ?s0] =>
    destruct (ssh_connect_unverified_cases e h u p k s0) as [(e0 & E & T)|E] end.
  - rewrite (bind_throws _ _ _ _ _ E). cbn [fst ret].
    eexists; split; [reflexivity|]. right. right. eauto.
  - rewrite (bind_normal _ _ _ _ _ E).
    do 5 (step_probe;
          [ cbn [fst ret]; eexists; split; [reflexivity|]; right; right;
            eapply Hc; [|eassumption]; cbn; tauto |]).
    do 3 step_guarded.
    cbn [fst ret]. eexists; split; [reflexivity|]. now split.
Qed.

(** ** The guarded steps, run *)

Lemma probeLoadAverage_run P env s :
  session s = true ->
  exists la s',
    HostMetadata.probeLoadAverage P env s = (Normal la, s') /\
    session s' = true /\
    (exists l, console s' = console s ++ l) /\
    (forall e, fst (remoteExec env Sample.loadavgCommand None s) = inl e ->
               la = HostMetadata.zeroLoad P /\
               console s' = console s
                              ++ ["Failed to get load average: " +:+ message e]).
Proof.
  intros Hs.
  unfold HostMetadata.probeLoadAverage, try_catch, bind, ssh_execCommand,
    console_warn, ret.
  rewrite Hs. fold Sample.loadavgCommand.
  destruct (remoteExec env Sample.loadavgCommand None s) as [[e|r] fs];
    cbn [fst snd].
  - eexists _, _. split; [reflexivity|]. projections.
    split; [exact Hs|]. split; [now eexists|].
    intros e' [= <-]. now split.
  - assert (H : forall la : HostMetadata.LoadAverage P,
               exists la' s',
                 (Normal la, set_remoteFs fs (record env (EvExec Sample.loadavgCommand None) s))
                 = (Normal la', s') /\
                 session s' = true /\
                 (exists l, console s' = console s ++ l) /\
                 (forall e : JsError, @inr JsError _ r = inl e ->
                    la' = HostMetadata.zeroLoad P /\
                    console s' = console s
                      ++ ["Failed to get load average: " +:+ message e])).
    { intros la. eexists _, _. split; [reflexivity|]. projections.
      split; [exact Hs|]. split; [exists []; now rewrite app_nil_r|].
      discriminate. }
    destruct (HostMetadata.usable r); [|apply H].
    destruct (3 <=? length _)%nat; apply H.
Qed.

Lemma probeMemory_run P env s :
  session s = true ->
  exists m s',
    HostMetadata.probeMemory P env s = (Normal m, s') /\
    session s' = true /\
    (exists l, console s' = console s ++ l) /\
    (forall e, fst (remoteExec env memoryCommand None s) = inl e ->
               m = (0, 0) /\
               console s' = console s
                              ++ ["Failed to get memory info: " +:+ message e]).
Proof.
  intros Hs.
  unfold HostMetadata.probeMemory, try_catch, bind, ssh_execCommand,
    console_warn, ret.
  rewrite Hs. fold memoryCommand.
  destruct (remoteExec env memoryCommand None s) as [[e|r] fs];
    cbn [fst snd].
  - eexists _, _. split; [reflexivity|]. projections.
    split; [exact Hs|]. split; [now eexists|].
    intros e' [= <-]. now split.
  - destruct (HostMetadata.usable r);
      (eexists _, _; split; [reflexivity|]; projections;
       split; [exact Hs|]; split; [exists []; now rewrite app_nil_r|];
       discriminate).
Qed.

Lemma parseUptime_run P r s :
  exists u,
    HostMetadata.parseUptime P r s = (Normal u, s) /\
    (HostMetadata.usable r = false -> u = HostMetadata.ofZ P 0).
Proof.
  unfold HostMetadata.parseUptime, try_catch, ret.
  destruct (HostMetadata.usable r).
  - destruct (HostMetadata.matchProcUptime P _) as [v|];
      [|destruct (HostMetadata.matchUptime P _) as [[[d h] m]|]];
      eexists; (split; [reflexivity|discriminate]).
  - eexists. split; reflexivity.
Qed.

(** The collection on a host that is reached and answers the five
    unguarded commands: the results it reads, the states in which the two
    guarded probes run, and what it returns. *)
Lemma HostMetadata_run P env app cfg s :
  truthy (App.privateKey app) = true ->
  truthy (js_or (HostMetadata.username cfg) (App.username app)) = true ->
  reachable env (HostMetadata.host cfg) (HostMetadata.port cfg)
    (str (js_or (HostMetadata.username cfg) (App.username app)))
    (str (App.privateKey app)) ->
  Forall (answered env) unguardedCommands ->
  exists r1 r2 r3 r4 r5 s5 la sl m sm u,
    (exists s1, fst (remoteExec env "hostname" None s1) = inr r1) /\
    (exists s2, fst (remoteExec env "uname -s" None s2) = inr r2) /\
    (exists s3, fst (remoteExec env "uname -r" None s3) = inr r3) /\
    (exists s4, fst (remoteExec env "uname -m" None s4) = inr r4) /\
    (exists s0, fst (remoteExec env "cat /proc/uptime 2>/dev/null || uptime"
                       None s0) = inr r5) /\
    session s5 = true /\ console s5 = console s /\
    HostMetadata.probeLoadAverage P env s5 = (Normal la, sl) /\
    HostMetadata.probeMemory P env sl = (Normal m, sm) /\
    HostMetadata.parseUptime P r5 sm = (Normal u, sm) /\
    HostMetadata.onSync P env app cfg s
    = (Normal
         (HostMetadata.Ready
            (HostMetadata.mkSignals
               (if HostMetadata.succeeded r1 then trim (stdout r1) else "")
               (if HostMetadata.succeeded r2
                then toLowerCase (trim (stdout r2)) else "")
               (if HostMetadata.succeeded r3 then trim (stdout r3) else "")
               (if HostMetadata.succeeded r4 then trim (stdout r4) else "")
               u la (fst m) (snd m))),
       set_session false (record env EvDispose sm)).
Proof.
  intros Hk Hu Hr Ha.
  unfold unguardedCommands in Ha. rewrite !Forall_cons in Ha.
  destruct Ha as (A & A0 & A1 & A2 & A3 & _).
  unfold HostMetadata.onSync. rewrite Hk, Hu. cbn [negb].
  cbn [bind new_NodeSSH].
  unfold HostMetadata.body.
  pose proof (ssh_connect_reachable env _ _ _ _ (set_session false s) Hr) as Ec.
  match type of Ec with _ = (_, ?s0) =>
    destruct (ssh_execCommand_run env "hostname" s0 A eq_refl)
      as (r1 & R1 & E1) end.
  match type of E1 with _ = (_, ?s0) =>
    destruct (ssh_execCommand_run env "uname -s" s0 A0 eq_refl)
      as (r2 & R2 & E2) end.
  match type of E2 with _ = (_, ?s0) =>
    destruct (ssh_execCommand_run env "uname -r" s0 A1 eq_refl)
      as (r3 & R3 & E3) end.
  match type of E3 with _ = (_, ?s0) =>
    destruct (ssh_execCommand_run env "uname -m" s0 A2 eq_refl)
      as (r4 & R4 & E4) end.
  match type of E4 with _ = (_, ?s0) =>
    destruct (ssh_execCommand_run env "cat /proc/uptime 2>/dev/null || uptime"
                s0 A3 eq_refl) as (r5 & R5 & E5) end.
  match type of E5 with _ = (_, ?s5) =>
    destruct (probeLoadAverage_run P env s5 eq_refl) as (la & sl & El & Sl & _);
    destruct (probeMemory_run P env sl Sl) as (m & sm & Em & _);
    destruct (parseUptime_run P r5 sm) as (u & Eu & _);
    exists r1, r2, r3, r4, r5, s5, la, sl, m, sm, u
  end.
  repeat (split; [solve [eauto | reflexivity]|]).
  erewrite try_finally_run; [reflexivity| |reflexivity].
  unfold try_catch.
  rewrite (bind_normal _ _ _ _ _ Ec), (bind_normal _ _ _ _ _ E1),
    (bind_normal _ _ _ _ _ E2), (bind_normal _ _ _ _ _ E3),
    (bind_normal _ _ _ _ _ E4), (bind_normal _ _ _ _ _ E5),
    (bind_normal _ _ _ _ _ El), (bind_normal _ _ _ _ _ Em),
    (bind_normal _ _ _ _ _ Eu).
  reflexivity.
Qed.

Lemma replies_answered env cmd r : replies env cmd r -> answered env cmd.
Proof. intros H s. exists r. apply H. Qed.

Lemma replies_unique env cmd r r' s :
  replies env cmd r -> fst (remoteExec env cmd None s) = inr r' -> r' = r.
Proof. intros H E. rewrite H in E. now injection E. Qed.

(** X5. On a host that is reached and answers the five unguarded
    commands, the four identity commands in ASCII text, the sync is ready
    whatever the exit codes are: each of the four identity signals is the
    trimmed output of its own command when that command exits with 0, and
    the empty string otherwise, with the type of the system in lower case;
    an uptime command that exits with another code, or prints nothing,
    gives the uptime 0.  No exit code fails the sync or touches another
    signal. *)
Theorem sync_degrades_by_exit_code
    (P : HostMetadata.Parsers) (env : Env) (app : App.Config)
    (cfg : HostMetadata.Config) (s : State)
    (r1 r2 r3 r4 r5 : ExecResult) :
  truthy (App.privateKey app) = true ->
  truthy (js_or (HostMetadata.username cfg) (App.username app)) = true ->
  reachable env (HostMetadata.host cfg) (HostMetadata.port cfg)
    (str (js_or (HostMetadata.username cfg) (App.username app)))
    (str (App.privateKey app)) ->
  replies env "hostname" r1 ->
  replies env "uname -s" r2 ->
  replies env "uname -r" r3 ->
  replies env "uname -m" r4 ->
  replies env "cat /proc/uptime 2>/dev/null || uptime" r5 ->
  ascii_only (stdout r1) = true ->
  ascii_only (stdout r2) = true ->
  ascii_only (stdout r3) = true ->
  ascii_only (stdout r4) = true ->
  exists sig,
    fst (HostMetadata.onSync P env app cfg s) = Normal (HostMetadata.Ready sig) /\
    HostMetadata.hostname _ sig
    = (if HostMetadata.succeeded r1 then trim (stdout r1) else "") /\
    HostMetadata.osType _ sig
    = (if HostMetadata.succeeded r2 then toLowerCase (trim (stdout r2)) else "") /\
    HostMetadata.osRelease _ sig
    = (if HostMetadata.succeeded r3 then trim (stdout r3) else "") /\
    HostMetadata.architecture _ sig
    = (if HostMetadata.succeeded r4 then trim (stdout r4) else "") /\
    (HostMetadata.usable r5 = false ->
     HostMetadata.uptime _ sig = HostMetadata.ofZ P 0).
Proof.
  intros Hk Hu Hr H1 H2 H3 H4 H5 _ _ _ _.
  destruct (HostMetadata_run P env app cfg s Hk Hu Hr)
    as (q1 & q2 & q3 & q4 & q5 & s5 & la & sl & m & sm & u
        & [? Q1] & [? Q2] & [? Q3] & [? Q4] & [? Q5] & _ & _ & _ & _ & Eu & E).
  { unfold unguardedCommands.
    repeat constructor; eapply replies_answered; eassumption. }
  apply (replies_unique _ _ _ _ _ H1) in Q1.
  apply (replies_unique _ _ _ _ _ H2) in Q2.
  apply (replies_unique _ _ _ _ _ H3) in Q3.
  apply (replies_unique _ _ _ _ _ H4) in Q4.
  apply (replies_unique _ _ _ _ _ H5) in Q5. subst.
  eexists. rewrite E. cbn [fst]. split; [reflexivity|].
  cbn [HostMetadata.hostname HostMetadata.osType HostMetadata.osRelease
       HostMetadata.architecture HostMetadata.uptime].
  repeat (split; [reflexivity|]).
  intros Hn. destruct (parseUptime_run P r5 sm) as (u' & Eu' & Hu').
  rewrite Eu in Eu'. injection Eu' as ->. now apply Hu'.
Qed.

Lemma Probes_replies ms unlinkFails cmd r :
  Probes.reply cmd = inr r ->
  replies (Sample.env ms Probes.reply unlinkFails) cmd r.
Proof. intros H s. exact H. Qed.

Lemma sync_degrades_by_exit_code_witness :
  exists sig,
    fst (HostMetadata.onSync Sample.parsers (Sample.env 1 Probes.reply false)
           Sample.app Sample.target Sample.start)
    = Normal (HostMetadata.Ready sig) /\
    HostMetadata.hostname _ sig = "Linux" /\
    HostMetadata.osType _ sig = "linux" /\
    HostMetadata.osRelease _ sig = "" /\
    HostMetadata.architecture _ sig = "Linux" /\
    (HostMetadata.usable (mkExec " Linux " "" (Some 0)) = false ->
     HostMetadata.uptime _ sig = HostMetadata.ofZ Sample.parsers 0).
Proof.
  apply (sync_degrades_by_exit_code Sample.parsers
           (Sample.env 1 Probes.reply false) Sample.app Sample.target
           Sample.start
           (mkExec " Linux " "" (Some 0)) (mkExec " Linux " "" (Some 0))
           (mkExec "" "not found" (Some 127)) (mkExec " Linux " "" (Some 0))
           (mkExec " Linux " "" (Some 0)));
    first [ reflexivity | apply Sample_reachable
          | apply Probes_replies; reflexivity ].
Defined.

(** X6. On a host that is reached and answers the five unguarded
    commands, a break of the channel of the load average command or of the
    memory command does not fail the sync: the status is [ready], the load
    averages are 0 (the memory figures are 0), and the console has the
    warning of the probe. *)
Theorem guarded_probe_failures_are_local
    (P : HostMetadata.Parsers) (env : Env) (app : App.Config)
    (cfg : HostMetadata.Config) (s : State) :
  truthy (App.privateKey app) = true ->
  truthy (js_or (HostMetadata.username cfg) (App.username app)) = true ->
  reachable env (HostMetadata.host cfg) (HostMetadata.port cfg)
    (str (js_or (HostMetadata.username cfg) (App.username app)))
    (str (App.privateKey app)) ->
  Forall (answered env) unguardedCommands ->
  exists sig s',
    HostMetadata.onSync P env app cfg s = (Normal (HostMetadata.Ready sig), s') /\
    (forall e,
       breaks env Sample.loadavgCommand e ->
       HostMetadata.loadAverage _ sig = HostMetadata.zeroLoad P /\
       exists detail,
         In ("Failed to get load average: " +:+ detail) (console s')) /\
    (forall e,
       breaks env memoryCommand e ->
       HostMetadata.memoryTotal _ sig = 0 /\
       HostMetadata.memoryFree _ sig = 0 /\
       exists detail,
         In ("Failed to get memory info: " +:+ detail) (console s')).
Proof.
  intros Hk Hu Hr Ha.
  destruct (HostMetadata_run P env app cfg s Hk Hu Hr Ha)
    as (q1 & q2 & q3 & q4 & q5 & s5 & la & sl & m & sm & u
        & _ & _ & _ & _ & _ & S5 & _ & El & Em & _ & E).
  destruct (probeLoadAverage_run P env s5 S5)
    as (la' & sl' & El' & Sl & _ & Hl).
  rewrite El in El'. injection El' as <- <-.
  destruct (probeMemory_run P env sl Sl) as (m' & sm' & Em' & _ & [l Cm] & Hm).
  rewrite Em in Em'. injection Em' as <- <-.
  eexists _, _. split; [exact E|].
  cbn [HostMetadata.loadAverage HostMetadata.memoryTotal HostMetadata.memoryFree].
  projections. split.
  - intros e He. destruct (Hl e (He s5)) as [-> C]. split; [reflexivity|].
    exists (message e).
    rewrite Cm, C. apply in_or_app. left. apply in_or_app. right. now left.
  - intros e He. destruct (Hm e (He sl)) as [-> C]. split; [reflexivity|].
    split; [reflexivity|]. exists (message e).
    rewrite C. apply in_or_app. right. now left.
Qed.

Lemma Probes_guarded_break_answered ms unlinkFails :
  Forall (answered (Sample.env ms Probes.guarded_break unlinkFails))
    unguardedCommands.
Proof. repeat constructor; intros s; now eexists. Qed.

Lemma guarded_probe_failures_are_local_witness :
  exists sig s',
    HostMetadata.onSync Sample.parsers
      (Sample.env 1 Probes.guarded_break false) Sample.app Sample.target
      Sample.start
    = (Normal (HostMetadata.Ready sig), s') /\
    (forall e,
       breaks (Sample.env 1 Probes.guarded_break false)
         Sample.loadavgCommand e ->
       HostMetadata.loadAverage _ sig = HostMetadata.zeroLoad Sample.parsers /\
       exists detail,
         In ("Failed to get load average: " +:+ detail) (console s')) /\
    (forall e,
       breaks (Sample.env 1 Probes.guarded_break false) memoryCommand e ->
       HostMetadata.memoryTotal _ sig = 0 /\
       HostMetadata.memoryFree _ sig = 0 /\
       exists detail,
         In ("Failed to get memory info: " +:+ detail) (console s')).
Proof.
  apply (guarded_probe_failures_are_local Sample.parsers
           (Sample.env 1 Probes.guarded_break false) Sample.app Sample.target
           Sample.start);
    first [ reflexivity | apply Sample_reachable
          | apply Probes_guarded_break_answered ].
Defined.

(* ===================================================================== *)
(** * Execute Command and Execute Script                                  *)
(* ===================================================================== *)

(** X7. The duration Execute Command emits counts from before the
    connection is opened: it is the time of connecting and the time of the
    command, added up, not the time of the command alone. *)
Theorem command_duration_spans_connect_and_command
    (env : Env) (app : App.Config) (inp : ExecuteCommand.Input) (s : State)
    (r : ExecResult) :
  truthy (App.privateKey app) = true ->
  truthy (js_or (ExecuteCommand.username inp) (App.username app)) = true ->
  fst (ssh_connect env (ExecuteCommand.options app inp)
         (ExecuteCommand.at_connect s)) = Normal tt ->
  fst (ssh_execCommand env (ExecuteCommand.command inp)
         (ExecuteCommand.workingDirectory inp)
         (ExecuteCommand.at_command env app inp s)) = Normal r ->
  exists s' out err c,
    ExecuteCommand.onEvent env app inp s = (Normal tt, s') /\
    emitted s' = emitted s ++
      [CommandOutput out err c
         (latency env (EvConnect (ExecuteCommand.options app inp))
            (ExecuteCommand.at_connect s)
          + latency env (EvExec (ExecuteCommand.command inp)
                           (ExecuteCommand.workingDirectory inp))
              (ExecuteCommand.at_command env app inp s))].
Proof.
  intros Hk Hu H0 H1.
  destruct (ExecuteCommand_run env app inp s r Hk Hu H0 H1) as (s' & E & Em).
  exists s', (stdout r), (stderr r), (code r). split; assumption.
Qed.

Lemma command_duration_spans_connect_and_command_witness :
  exists s' out err c,
    ExecuteCommand.onEvent (Sample.env 5 (Sample.ok "" 7) false) Sample.app
      Sample.command Sample.start = (Normal tt, s') /\
    emitted s' = emitted Sample.start ++ [CommandOutput out err c (5 + 5)].
Proof.
  apply (command_duration_spans_connect_and_command
           (Sample.env 5 (Sample.ok "" 7) false) Sample.app Sample.command
           Sample.start (mkExec "" "" (Some 7)));
    vm_compute; reflexivity.
Defined.

(** X8. When Execute Script cannot open the connection, it throws the
    error of the connection as it is and emits nothing; it sends no
    command, yet its finaliser still tries to remove the script file: the
    client refuses the call, and the console gets one warning of a failed
    clean-up. *)
Theorem script_connect_failure_warns
    (env : Env) (app : App.Config) (inp : ExecuteScript.Input) (s : State)
    (e : JsError) :
  truthy (App.privateKey app) = true ->
  truthy (js_or (ExecuteScript.username inp) (App.username app)) = true ->
  fst (ssh_connect env (ExecuteScript.options app inp)
         (ExecuteScript.at_connect s)) = Throws e ->
  exists s',
    ExecuteScript.onEvent env app inp s = (Throws e, s') /\
    trace s' = trace s ++ [EvConnect (ExecuteScript.options app inp); EvDispose] /\
    emitted s' = emitted s /\
    exists reason,
      console s' = console s ++
        ["Failed to clean up temporary script file "
           +:+ ExecuteScript.tempFile env s +:+ ": " +:+ reason].
Proof.
  intros Hk Hu Hc.
  unfold ExecuteScript.onEvent. rewrite Hk, Hu. cbn [negb].
  cbn [bind new_NodeSSH Date_now Math_random36].
  unfold ExecuteScript.options, ExecuteScript.at_connect in Hc.
  destruct (ssh_connect_cases env
              (mkConnect (ExecuteScript.host inp)
                 (str (js_or (ExecuteScript.username inp) (App.username app)))
                 (ExecuteScript.port inp) (str (App.privateKey app)) None)
              (set_session false s)) as [(e0 & E & _)|E];
    rewrite E in Hc; cbn [fst] in Hc; [|discriminate].
  injection Hc as ->.
  eexists. split.
  - eapply try_finally_run.
    + unfold ExecuteScript.body. apply (bind_throws _ _ _ _ _ E).
    + unfold ExecuteScript.cleanup, bind, try_catch, ssh_execCommand,
        console_warn, ssh_dispose.
      projections. reflexivity.
  - projections. unfold ExecuteScript.options.
    split; [now rewrite <- app_assoc|]. split; [reflexivity|].
    eexists. reflexivity.
Qed.

Lemma script_connect_failure_warns_witness :
  exists s',
    ExecuteScript.onEvent (Sample.env 1 (Sample.ok "" 0) false)
      Faults.wrongKey Sample.script Sample.start
    = (Throws (mkError "All configured authentication methods failed"), s') /\
    trace s' = trace Sample.start
                 ++ [EvConnect (ExecuteScript.options Faults.wrongKey Sample.script);
                     EvDispose] /\
    emitted s' = emitted Sample.start /\
    exists reason,
      console s' = console Sample.start ++
        ["Failed to clean up temporary script file "
           +:+ ExecuteScript.tempFile (Sample.env 1 (Sample.ok "" 0) false)
                 Sample.start
           +:+ ": " +:+ reason].
Proof.
  apply (script_connect_failure_warns (Sample.env 1 (Sample.ok "" 0) false)
           Faults.wrongKey Sample.script Sample.start
           (mkError "All configured authentication methods failed"));
    vm_compute; reflexivity.
Defined.

(* ===================================================================== *)
(** * Download File and Upload File                                       *)
(* ===================================================================== *)

Lemma grows_try_finally_cleanup env s :
  exists l, trace (snd (DownloadFile.cleanup env s)) = trace s ++ l.
Proof.
  destruct (file_cleanup_trace env s) as [E|(p & _ & E)]; eexists; exact E.
Qed.

(** X10. Download File reads the modification time from the second field
    of the output of [stat] without looking at the exit code.  When the
    output is ASCII text whose second field is not a number (the command
    printed nothing, or one field only), the block throws the range error
    of the date conversion and emits nothing, although by then the file
    has been transferred and read. *)
Theorem download_fails_on_unreadable_stat
    (env : Env) (app : App.Config) (inp : DownloadFile.Input) (s : State)
    (bs : list byte) (r : ExecResult) :
  truthy (App.privateKey app) = true ->
  truthy (js_or (DownloadFile.username inp) (App.username app)) = true ->
  reachable env (DownloadFile.host inp) (DownloadFile.port inp)
    (str (js_or (DownloadFile.username inp) (App.username app)))
    (str (App.privateKey app)) ->
  transfers_succeed env ->
  files_succeed env ->
  remoteFs s !! DownloadFile.sourcePath inp = Some bs ->
  replies env (DownloadFile.statCommand (DownloadFile.sourcePath inp)) r ->
  ascii_only (stdout r) = true ->
  parseInt (split_space (trim (stdout r)) !! 1%nat) = None ->
  exists s' path rest,
    DownloadFile.onEvent env app inp s
    = (Throws (mkError "Invalid time value"), s') /\
    emitted s' = emitted s /\
    download_staging env path /\
    trace s'
    = trace s
        ++ [EvConnect
              (mkConnect (DownloadFile.host inp)
                 (str (js_or (DownloadFile.username inp) (App.username app)))
                 (DownloadFile.port inp) (str (App.privateKey app)) None);
            EvGetFile path (DownloadFile.sourcePath inp);
            EvReadFile path; EvStat path;
            EvExec (DownloadFile.statCommand (DownloadFile.sourcePath inp)) None]
        ++ rest.
Proof.
  intros Hk Hu Hr Ht Hf Hfile Hst _ Hp.
  unfold DownloadFile.onEvent. rewrite Hk, Hu. cbn [negb].
  cbn [bind new_NodeSSH assign_tempFilePath].
  match goal with |- context [try_finally ?b ?f ?s0] =>
    assert (B : exists s1 path,
              b s0 = (Throws (mkError "Invalid time value"), s1) /\
              emitted s1 = emitted s /\
              download_staging env path /\
              trace s1
              = trace s
                  ++ [EvConnect
                        (mkConnect (DownloadFile.host inp)
                           (str (js_or (DownloadFile.username inp)
                                   (App.username app)))
                           (DownloadFile.port inp) (str (App.privateKey app))
                           None);
                      EvGetFile path (DownloadFile.sourcePath inp);
                      EvReadFile path; EvStat path;
                      EvExec (DownloadFile.statCommand
                                (DownloadFile.sourcePath inp)) None])
  end.
  { unfold DownloadFile.body.
    rewrite (bind_normal _ _ _ _ _ (ssh_connect_reachable _ _ _ _ _ _ Hr)).
    cbn [bind Date_now Math_random36 assign_tempFilePath].
    match goal with |- context [ssh_getFile _ ?p _] => set (path := p) end.
    erewrite bind_normal
      by (apply ssh_getFile_run; [exact Ht|reflexivity|exact Hfile]).
    erewrite bind_normal
      by (apply fs_readFile_run; [exact Hf|projections; apply lookup_insert_eq]).
    erewrite bind_normal
      by (apply fs_stat_run; [exact Hf|projections; apply lookup_insert_eq]).
    match goal with |- context [bind (ssh_execCommand ?e ?c None) _ ?s0] =>
      rewrite (bind_normal _ _ _ _ _
                 (ssh_execCommand_answered e c None s0 r eq_refl (Hst s0)))
    end.
    rewrite Hp. cbn [option_map Date_toISOString bind throw].
    eexists _, path. split; [reflexivity|]. projections.
    split; [reflexivity|]. split; [unfold download_staging, path; eauto|].
    rewrite <- !app_assoc. reflexivity. }
  destruct B as (s1 & path & B & Em & Hs & Tr).
  destruct (grows_try_finally_cleanup env s1) as [rest Hrest].
  eexists _, path, rest. split; [|split; [|split; [exact Hs|]]].
  - eapply try_finally_run;
      [exact B|apply never_throws_run, DownloadFile_cleanup_never_throws].
  - now rewrite keeps_emitted_DownloadFile_cleanup.
  - now rewrite Hrest, Tr, <- app_assoc.
Qed.

Lemma download_fails_on_unreadable_stat_witness :
  exists s' path rest,
    DownloadFile.onEvent (Sample.env 1 Faults.noStat false) Sample.app
      Faults.download Sample.binary
    = (Throws (mkError "Invalid time value"), s') /\
    emitted s' = emitted Sample.binary /\
    download_staging (Sample.env 1 Faults.noStat false) path /\
    trace s'
    = trace Sample.binary
        ++ [EvConnect (mkConnect "h" "deploy" 22 "KEY" None);
            EvGetFile path "/srv/blob"; EvReadFile path; EvStat path;
            EvExec (DownloadFile.statCommand "/srv/blob") None]
        ++ rest.
Proof.
  apply (download_fails_on_unreadable_stat (Sample.env 1 Faults.noStat false)
           Sample.app Faults.download Sample.binary [xff]
           (mkExec "" "stat: illegal option -- c" (Some 1)));
    first [ apply Sample_reachable | apply Sample_transfers_succeed
          | apply Sample_files_succeed | intros ?; reflexivity
          | vm_compute; reflexivity ].
Defined.

(** ** Text with surrogates on their own *)

Local Open Scope N_scope.

Lemma utf8_bytes_replacement (s : jsstring) :
  utf8_bytes (0xFFFD :: s) = utf8_of_codepoint 0xFFFD ++ utf8_bytes s.
Proof. reflexivity. Qed.

Lemma utf8_bytes_unit c (s : jsstring) :
  is_high c = false -> is_low c = false ->
  utf8_bytes (c :: s) = utf8_of_codepoint c ++ utf8_bytes s.
Proof. intros Hh Hl. cbn [utf8_bytes]. now rewrite Hh, Hl. Qed.

Lemma utf8_bytes_pair c d (s : jsstring) :
  is_high c = true -> is_low d = true ->
  utf8_bytes (c :: d :: s)
  = utf8_of_codepoint (0x10000 + (c - 0xD800) * 1024 + (d - 0xDC00))
      ++ utf8_bytes s.
Proof. intros Hh Hl. cbn [utf8_bytes]. now rewrite Hh, Hl. Qed.

(** Writing a string as UTF-8 is writing its well-formed version, which
    is well formed. *)
Lemma toWellFormed_spec (n : nat) (s : jsstring) :
  (length s <= n)%nat -> code_units s ->
  utf8_bytes (toWellFormed s) = utf8_bytes s /\
  well_formed (toWellFormed s) = true.
Proof.
  revert s. induction n as [|n IH]; intros s Hn Hs.
  - destruct s; [now split|cbn in Hn; lia].
  - destruct s as [|c rest]; [now split|].
    apply Forall_cons_1 in Hs. destruct Hs as [Hc Hs].
    cbn [toWellFormed].
    destruct (is_high c) eqn:Hh.
    + destruct rest as [|d rest'];
        [cbn [utf8_bytes]; rewrite Hh; now split|].
      destruct (is_low d) eqn:Hl.
      * apply Forall_cons_1 in Hs. destruct Hs as [_ Hs].
        destruct (IH rest') as [IH1 IH2]; [cbn [length] in *; lia|exact Hs|].
        split.
        -- now rewrite !utf8_bytes_pair, IH1.
        -- cbn [well_formed]. now rewrite Hh, Hl, IH2.
      * destruct (IH (d :: rest')) as [IH1 IH2]; [cbn [length] in *; lia|exact Hs|].
        split.
        -- rewrite utf8_bytes_replacement, IH1.
           cbn [utf8_bytes]. now rewrite Hh, Hl.
        -- remember (toWellFormed (d :: rest')) as t.
           cbn [well_formed]. now rewrite IH2.
    + destruct (IH rest) as [IH1 IH2]; [cbn [length] in *; lia|exact Hs|].
      destruct (is_low c) eqn:Hl.
      * split.
        -- rewrite utf8_bytes_replacement, IH1.
           cbn [utf8_bytes]. now rewrite Hh, Hl.
        -- remember (toWellFormed rest) as t.
           cbn [well_formed]. now rewrite IH2.
      * split.
        -- now rewrite !utf8_bytes_unit, IH1.
        -- remember (toWellFormed rest) as t.
           cbn [well_formed]. rewrite Hh, Hl, IH2.
           apply N.ltb_lt in Hc. now rewrite Hc.
Qed.

Lemma utf8_decode_encode (s : jsstring) :
  code_units s -> utf8_decode (utf8_encode s) = toWellFormed s.
Proof.
  intros Hs.
  destruct (toWellFormed_spec (length s) s (le_n _) Hs) as [Hb Hw].
  rewrite <- (utf8_roundtrip _ Hw). unfold utf8_encode. now rewrite Hb.
Qed.

Local Close Scope N_scope.

(** X11. What a text round trip returns for any string: uploading [C] as
    text and downloading the path as text gives [C] with every surrogate
    that is not half of a pair replaced by U+FFFD, and that result is well
    formed, so that a second round trip returns it unchanged. *)
Theorem text_round_trip_replaces_lone_surrogates
    (env : Env) (app : App.Config) (host : string) (port : Z)
    (user : option string) (path : string) (perms : option string) (s : State)
    (C : jsstring) :
  truthy (App.privateKey app) = true ->
  truthy (js_or user (App.username app)) = true ->
  reachable env host port (str (js_or user (App.username app)))
    (str (App.privateKey app)) ->
  transfers_succeed env ->
  files_succeed env ->
  (truthy perms = true ->
   answered env (UploadFile.chmodCommand (str perms) path) /\
   leaves_alone env (UploadFile.chmodCommand (str perms) path) path) ->
  stat_answered env path ->
  code_units C ->
  well_formed (toWellFormed C) = true /\
  exists s1 s2 size p m,
    UploadFile.onEvent env app
      (UploadFile.mkInput host port C path user (Some "text") perms) s
    = (Normal tt, s1) /\
    DownloadFile.onEvent env app
      (DownloadFile.mkInput host port path user (Some "text")) s1
    = (Normal tt, s2) /\
    emitted s2 = emitted s1 ++ [DownloadOutput (toWellFormed C) path size p m].
Proof.
  intros Hk Hu Hr Ht Hf Hc Hst HC.
  split; [apply (toWellFormed_spec (length C) C (le_n _) HC)|].
  destruct (Upload_run env app
              (UploadFile.mkInput host port C path user (Some "text") perms)
              s Hk Hu Hr Ht Hf (fun H => proj1 (Hc H)))
    as (s1 & E1 & _ & Hfile).
  specialize (Hfile (fun H => proj2 (Hc H))).
  destruct (Download_run env app
              (DownloadFile.mkInput host port path user (Some "text"))
              s1 _ Hk Hu Hr Ht Hf Hst Hfile)
    as (s2 & p & m & E2 & Em).
  exists s1, s2, (Z.of_nat (length (utf8_encode C))), p, m.
  split; [exact E1|]. split; [exact E2|].
  rewrite Em. cbn [DownloadFile.encoding is_base64 String.eqb].
  unfold UploadFile.fileContent.
  cbn [UploadFile.encoding UploadFile.content is_base64 DownloadFile.sourcePath].
  replace (String.eqb "text" "base64") with false by reflexivity.
  now rewrite (utf8_decode_encode C HC).
Qed.

Lemma text_round_trip_replaces_lone_surrogates_witness :
  well_formed (toWellFormed [104; 0xDE00; 105]%N) = true /\
  exists s1 s2 size p m,
    UploadFile.onEvent (Sample.env 1 (Sample.ok Sample.statLine 0) false)
      Sample.app
      (UploadFile.mkInput "h" 22 [104; 0xDE00; 105]%N "/srv/a.txt" None
         (Some "text") None) Sample.start
    = (Normal tt, s1) /\
    DownloadFile.onEvent (Sample.env 1 (Sample.ok Sample.statLine 0) false)
      Sample.app (DownloadFile.mkInput "h" 22 "/srv/a.txt" None (Some "text")) s1
    = (Normal tt, s2) /\
    emitted s2 = emitted s1 ++
      [DownloadOutput [104; 0xFFFD; 105]%N "/srv/a.txt" size p m].
Proof.
  apply (text_round_trip_replaces_lone_surrogates
           (Sample.env 1 (Sample.ok Sample.statLine 0) false)
           Sample.app "h" 22 None "/srv/a.txt" None Sample.start
           [104; 0xDE00; 105]%N eq_refl eq_refl
           (Sample_reachable _ _ _ _ _)
           (Sample_transfers_succeed _ _ _)
           (Sample_files_succeed _ _ _)
           (fun _ => conj (Sample_answered _ _ _ _ _)
                          (Sample_leaves_alone _ _ _ _ _))
           (Sample_stat_answered _ _ _)).
  repeat constructor.
Defined.

(** X12. Download, then upload, copies a file: downloading a file as
    base64 and uploading the content so emitted as base64 to a destination
    puts there, byte for byte, the file that was read, whatever bytes it
    holds; the size each block reports is the number of those bytes. *)
Theorem download_upload_copies
    (env : Env) (app : App.Config) (host : string) (port : Z)
    (user : option string) (src dst : string) (perms : option string)
    (s : State) (B : list byte) :
  truthy (App.privateKey app) = true ->
  truthy (js_or user (App.username app)) = true ->
  reachable env host port (str (js_or user (App.username app)))
    (str (App.privateKey app)) ->
  transfers_succeed env ->
  files_succeed env ->
  (truthy perms = true ->
   answered env (UploadFile.chmodCommand (str perms) dst) /\
   leaves_alone env (UploadFile.chmodCommand (str perms) dst) dst) ->
  stat_answered env src ->
  remoteFs s !! src = Some B ->
  exists s1 s2 content p m,
    DownloadFile.onEvent env app
      (DownloadFile.mkInput host port src user (Some "base64")) s
    = (Normal tt, s1) /\
    emitted s1 = emitted s ++
      [DownloadOutput content src (Z.of_nat (length B)) p m] /\
    UploadFile.onEvent env app
      (UploadFile.mkInput host port content dst user (Some "base64") perms) s1
    = (Normal tt, s2) /\
    emitted s2 = emitted s1 ++ [UploadOutput dst (Z.of_nat (length B))] /\
    remoteFs s2 !! dst = Some B.
Proof.
  intros Hk Hu Hr Ht Hf Hc Hst Hfile.
  destruct (Download_run env app
              (DownloadFile.mkInput host port src user (Some "base64"))
              s B Hk Hu Hr Ht Hf Hst Hfile)
    as (s1 & p & m & E1 & Em1).
  cbn [DownloadFile.encoding is_base64 DownloadFile.sourcePath] in Em1.
  replace (String.eqb "base64" "base64") with true in Em1 by reflexivity.
  destruct (Upload_run env app
              (UploadFile.mkInput host port (base64_encode B) dst user
                 (Some "base64") perms)
              s1 Hk Hu Hr Ht Hf (fun H => proj1 (Hc H)))
    as (s2 & E2 & Em2 & Hdst).
  specialize (Hdst (fun H => proj2 (Hc H))).
  unfold UploadFile.fileContent in Em2, Hdst.
  cbn [UploadFile.encoding UploadFile.content UploadFile.destinationPath
       is_base64] in Em2, Hdst.
  replace (String.eqb "base64" "base64") with true in Em2, Hdst by reflexivity.
  rewrite base64_roundtrip in Em2, Hdst.
  exists s1, s2, (base64_encode B), p, m.
  repeat split; assumption.
Qed.

Lemma download_upload_copies_witness :
  exists s1 s2 content p m,
    DownloadFile.onEvent (Sample.env 1 (Sample.ok Sample.statLine 0) false)
      Sample.app (DownloadFile.mkInput "h" 22 "/srv/blob" None (Some "base64"))
      Sample.binary
    = (Normal tt, s1) /\
    emitted s1 = emitted Sample.binary ++
      [DownloadOutput content "/srv/blob" (Z.of_nat (length [xff])) p m] /\
    UploadFile.onEvent (Sample.env 1 (Sample.ok Sample.statLine 0) false)
      Sample.app
      (UploadFile.mkInput "h" 22 content "/srv/copy" None (Some "base64") None)
      s1
    = (Normal tt, s2) /\
    emitted s2 = emitted s1 ++ [UploadOutput "/srv/copy" (Z.of_nat (length [xff]))] /\
    remoteFs s2 !! "/srv/copy" = Some [xff].
Proof.
  apply (download_upload_copies
           (Sample.env 1 (Sample.ok Sample.statLine 0) false)
           Sample.app "h" 22 None "/srv/blob" "/srv/copy" None Sample.binary
           [xff] eq_refl eq_refl
           (Sample_reachable _ _ _ _ _)
           (Sample_transfers_succeed _ _ _)
           (Sample_files_succeed _ _ _)
           (fun _ => conj (Sample_answered _ _ _ _ _)
                          (Sample_leaves_alone _ _ _ _ _))
           (Sample_stat_answered _ _ _)).
  vm_compute. reflexivity.
Defined.

(* ===================================================================== *)
(** * The sync of the app and the checks of the blocks                    *)
(* ===================================================================== *)

(** X13. The sync of the app checks the private key and nothing else, and
    the blocks check the key before the username.  Without a key the app
    is [failed] and every block reports the missing key, also when the
    username is missing too.  With a key the app is [ready] whether or not
    a username is configured; with no username in the app nor in the
    request, a block then reports the missing username: the event blocks
    in the wording for an input, Host Metadata in the wording for a block.
    In both cases no call is made. *)
Theorem app_sync_checks_the_key_only
    (P : HostMetadata.Parsers) (env : Env) (app : App.Config) (r : Request)
    (s : State) :
  (App.onSync app = App.ready <-> truthy (App.privateKey app) = true) /\
  (App.onSync app <> App.ready ->
   failure (fst (handle P env app r s)) = Some msg_no_key /\
   snd (handle P env app r s) = s) /\
  (App.onSync app = App.ready ->
   absent (request_username r) -> absent (App.username app) ->
   failure (fst (handle P env app r s))
   = Some (match r with
           | hostMetadata _ => msg_no_user_block
           | _ => msg_no_user_input
           end) /\
   snd (handle P env app r s) = s).
Proof.
  unfold App.onSync.
  destruct (truthy (App.privateKey app)) eqn:Hk; cbn [negb].
  - split; [tauto|]. split; [congruence|].
    intros _ Hr Ha.
    assert (Hu : truthy (js_or (request_username r) (App.username app)) = false)
      by (apply truthy_js_or_false; now split).
    destruct r; cbn [handle request_username] in *; unfold bind;
      [ unfold ExecuteCommand.onEvent | unfold ExecuteScript.onEvent
      | unfold UploadFile.onEvent | unfold DownloadFile.onEvent
      | unfold HostMetadata.onSync ];
      rewrite Hk, Hu; cbn; now split.
  - split; [split; discriminate|]. split; [|discriminate].
    intros _.
    destruct r; cbn [handle] in *; unfold bind;
      [ unfold ExecuteCommand.onEvent | unfold ExecuteScript.onEvent
      | unfold UploadFile.onEvent | unfold DownloadFile.onEvent
      | unfold HostMetadata.onSync ];
      rewrite Hk; cbn; now split.
Qed.

Lemma app_sync_checks_the_key_only_witness :
  failure (fst (handle Sample.parsers (Sample.env 1 (Sample.ok "" 0) false)
                  Sample.keyless (hostMetadata Sample.target) Sample.start))
  = Some msg_no_key /\
  snd (handle Sample.parsers (Sample.env 1 (Sample.ok "" 0) false)
         Sample.keyless (hostMetadata Sample.target) Sample.start)
  = Sample.start.
Proof.
  apply (proj1 (proj2 (app_sync_checks_the_key_only Sample.parsers
                         (Sample.env 1 (Sample.ok "" 0) false)
                         Sample.keyless (hostMetadata Sample.target)
                         Sample.start))).
  discriminate.
Defined.

(* ===================================================================== *)
(** * The order of the calls, and where a block stops                     *)
(* ===================================================================== *)

Lemma performs_nil {A} (Q : Completion A -> Prop) tail (m : M A) :
  (forall s,
     session s = true ->
     session (snd (m s)) = true /\
     tempFilePath (snd (m s)) = tempFilePath s /\
     trace (snd (m s)) = trace s ++ tail /\
     Q (fst (m s))) ->
  performs Q tail [] m.
Proof.
  intros H s Hs. destruct (H s Hs) as (S & F & T & HQ).
  split; [exact S|]. split; [exact F|]. cbn [attempt app]. now split.
Qed.

Lemma performs_cons {A B} (Q : Completion B -> Prop) tail ev (m : M A)
    (k : A -> M B) rest :
  (forall s,
     session s = true ->
     trace (snd (m s)) = trace s ++ [ev] /\
     session (snd (m s)) = true /\
     tempFilePath (snd (m s)) = tempFilePath s) ->
  (forall a, performs Q tail rest (k a)) ->
  performs Q tail (call ev m :: rest) (bind m k).
Proof.
  intros Hm Hk s Hs. destruct (Hm s Hs) as (T & S & F).
  unfold bind. cbn [attempt call].
  destruct (m s) as [[a|e] s1]; cbn [fst snd] in *.
  - destruct (Hk a s1 S) as (S2 & F2 & H2).
    split; [exact S2|]. split; [congruence|].
    destruct (attempt rest s1) as [l [e|]]; destruct H2 as [T2 C2];
      (split; [|exact C2]); rewrite T2, T, <- !app_assoc; reflexivity.
  - split; [exact S|]. split; [exact F|]. now split.
Qed.

(** A call whose result the handler drops before it goes on. *)
Lemma performs_dropped {A B C} (Q : Completion C -> Prop) tail ev (m : M A)
    (b : B) (k : B -> M C) rest :
  performs Q tail (call ev m :: rest) (bind m (fun _ => k b)) ->
  performs Q tail (call ev m :: rest) (bind (bind m (fun _ => ret b)) k).
Proof.
  intros H s Hs. specialize (H s Hs).
  assert (E : bind (bind m (fun _ => ret b)) k s = bind m (fun _ => k b) s).
  { unfold bind, ret. now destruct (m s) as [[a|e] s1]. }
  now rewrite E.
Qed.

(** The finaliser of a file block, once the staging file has its name:
    the session is closed, then the removal of the file is tried. *)
Lemma file_cleanup_named env s path :
  tempFilePath s = Some path -> truthy (Some path) = true ->
  trace (snd (UploadFile.cleanup env s))
  = trace s ++ [EvDispose; EvUnlink path].
Proof.
  intros Hp Ht.
  unfold UploadFile.cleanup, bind, try_catch, ssh_dispose, read_tempFilePath,
    fs_unlink, ret.
  cbn beta iota. projections. rewrite Hp, Ht. cbn [str].
  repeat match goal with
         | |- context [match ?x with _ => _ end] =>
             lazymatch x with
             | context [match _ with _ => _ end] => fail
             | _ => destruct x
             end
         end;
    cbn [fst snd]; projections; now rewrite <- app_assoc.
Qed.

(** The mark a call leaves, however it completes. *)
Ltac call_primitive :=
  let s := fresh "s" in
  let Hs := fresh "Hs" in
  intros s Hs;
  unfold ssh_execCommand, ssh_putFile, ssh_getFile, fs_writeFile, fs_readFile,
    fs_stat;
  rewrite ?Hs;
  repeat match goal with
         | |- context [match ?x with _ => _ end] =>
             lazymatch x with
             | context [match _ with _ => _ end] => fail
             | _ => destruct x
             end
         end;
  cbn [fst snd]; projections; auto.

(** A last step that makes no call. *)
Ltac quiet_end :=
  apply performs_nil;
  let s := fresh "s" in
  let Hs := fresh "Hs" in
  intros s Hs; cbn [events_emit ret fst snd app]; projections;
  rewrite ?app_nil_r; auto.

(** X9. Once Execute Script has opened the connection, it sends its three
    commands in order (create the script file, mark it executable, run it
    with the interpreter, the working directory passed to the run only)
    and stops at the first whose call is rejected: it then makes no
    further call of the three and throws the error of that call; when none
    is rejected it completes normally.  Wherever it stops, the last two
    calls are the removal of the script file and the closing of the
    session. *)
Theorem script_file_removed_once_connected
    (env : Env) (app : App.Config) (inp : ExecuteScript.Input) (s : State) :
  truthy (App.privateKey app) = true ->
  truthy (js_or (ExecuteScript.username inp) (App.username app)) = true ->
  fst (ssh_connect env (ExecuteScript.options app inp)
         (ExecuteScript.at_connect s)) = Normal tt ->
  trace (snd (ExecuteScript.onEvent env app inp s))
  = trace s
      ++ EvConnect (ExecuteScript.options app inp)
      :: fst (attempt (scriptCalls env inp s)
                (ExecuteScript.at_create env app inp s))
      ++ [EvExec (ExecuteScript.removeCommand (ExecuteScript.tempFile env s))
            None;
          EvDispose] /\
  fst (ExecuteScript.onEvent env app inp s)
  = match snd (attempt (scriptCalls env inp s)
                 (ExecuteScript.at_create env app inp s)) with
    | Some e => Throws e
    | None => Normal tt
    end.
Proof.
  intros Hk Hu Hc.
  unfold ExecuteScript.onEvent. rewrite Hk, Hu. cbn [negb].
  cbn [bind new_NodeSSH Date_now Math_random36].
  rewrite try_finally_completion by apply ExecuteScript_cleanup_never_throws.
  rewrite snd_try_finally.
  assert (Hrm : forall s1,
             session s1 = true ->
             trace (snd (ExecuteScript.cleanup env
                           (ExecuteScript.tempFile env s) s1))
             = trace s1
                 ++ [EvExec (ExecuteScript.removeCommand
                               (ExecuteScript.tempFile env s)) None;
                     EvDispose]).
  { intros s1 H1.
    unfold ExecuteScript.cleanup, bind, try_catch, ssh_execCommand,
      console_warn, ssh_dispose, ret.
    rewrite H1.
    destruct (remoteExec env _ _ s1) as [[e|r] fs]; cbn [fst snd]; projections;
      now rewrite <- app_assoc. }
  change (ExecuteScript.tempFileName (clock (set_session false s))
            (random36 env (set_session false s)))
    with (ExecuteScript.tempFile env s).
  unfold ExecuteScript.body.
  unfold ExecuteScript.options, ExecuteScript.at_connect in Hc.
  rewrite (bind_normal _ _ _ _ _ (normal_run _ _ _ Hc)).
  match goal with |- context [snd (bind ?m ?k ?s1)] =>
    assert (HP : performs (fun c => c = Normal tt) [] (scriptCalls env inp s)
                   (bind m k));
      [|destruct (HP s1) as (S & _ & H)]
  end.
  { unfold scriptCalls.
    apply performs_cons; [call_primitive|intros r1].
    apply performs_cons; [call_primitive|intros r2].
    apply performs_cons; [call_primitive|intros r3].
    quiet_end. }
  { now rewrite (ssh_connect_normal _ _ _ Hc). }
  change (snd (ssh_connect env
                 (mkConnect (ExecuteScript.host inp)
                    (str (js_or (ExecuteScript.username inp)
                            (App.username app)))
                    (ExecuteScript.port inp) (str (App.privateKey app)) None)
                 (set_session false s)))
    with (ExecuteScript.at_create env app inp s) in *.
  assert (T0 : trace (ExecuteScript.at_create env app inp s)
               = trace s ++ [EvConnect (ExecuteScript.options app inp)]).
  { unfold ExecuteScript.at_create, ExecuteScript.options,
      ExecuteScript.at_connect.
    now rewrite (ssh_connect_normal _ _ _ Hc). }
  rewrite (Hrm _ S).
  destruct (attempt (scriptCalls env inp s)
              (ExecuteScript.at_create env app inp s)) as [l [e|]];
    destruct H as [T C]; cbn [fst snd];
    (split; [|exact C]); rewrite T, T0, ?app_nil_r, <- !app_assoc;
    reflexivity.
Qed.

Lemma script_file_removed_once_connected_witness :
  trace (snd (ExecuteScript.onEvent Breaks.onChmod Sample.app Sample.script
                Sample.start))
  = trace Sample.start
      ++ EvConnect (ExecuteScript.options Sample.app Sample.script)
      :: fst (attempt (scriptCalls Breaks.onChmod Sample.script Sample.start)
                (ExecuteScript.at_create Breaks.onChmod Sample.app
                   Sample.script Sample.start))
      ++ [EvExec (ExecuteScript.removeCommand
                    (ExecuteScript.tempFile Breaks.onChmod Sample.start))
            None;
          EvDispose] /\
  fst (ExecuteScript.onEvent Breaks.onChmod Sample.app Sample.script
         Sample.start)
  = match snd (attempt (scriptCalls Breaks.onChmod Sample.script Sample.start)
                 (ExecuteScript.at_create Breaks.onChmod Sample.app
                    Sample.script Sample.start)) with
    | Some e => Throws e
    | None => Normal tt
    end.
Proof.
  apply (script_file_removed_once_connected Breaks.onChmod Sample.app
           Sample.script Sample.start);
    vm_compute; reflexivity.
Defined.

Lemma performs_skipped {B C} (Q : Completion C -> Prop) tail calls (b : B)
    (k : B -> M C) :
  performs Q tail calls (k b) -> performs Q tail calls (bind (ret b) k).
Proof. intros H. exact H. Qed.

(** X14. Once the server is reached, Upload File makes its calls in order
    (write the staging file, transfer it to the destination, set the
    permissions when given, read the size) and stops at the first that is
    rejected: it then makes no further call of these and throws the error
    of that call; when none is rejected it completes normally.  Wherever
    it stops, the session is closed next and the removal of the staging
    file is the last call. *)
Theorem upload_follows_protocol
    (env : Env) (app : App.Config) (inp : UploadFile.Input) (s : State) :
  truthy (App.privateKey app) = true ->
  truthy (js_or (UploadFile.username inp) (App.username app)) = true ->
  reachable env (UploadFile.host inp) (UploadFile.port inp)
    (str (js_or (UploadFile.username inp) (App.username app)))
    (str (App.privateKey app)) ->
  trace (snd (UploadFile.onEvent env app inp s))
  = trace s
      ++ EvConnect
           (mkConnect (UploadFile.host inp)
              (str (js_or (UploadFile.username inp) (App.username app)))
              (UploadFile.port inp) (str (App.privateKey app)) None)
      :: fst (attempt (uploadCalls env inp (uploadPath env app inp s))
                (uploadStart env app inp s))
      ++ [EvDispose; EvUnlink (uploadPath env app inp s)] /\
  fst (UploadFile.onEvent env app inp s)
  = match snd (attempt (uploadCalls env inp (uploadPath env app inp s))
                 (uploadStart env app inp s)) with
    | Some e => Throws e
    | None => Normal tt
    end.
Proof.
  intros Hk Hu Hr.
  unfold uploadStart, uploadPath, uploadConnected.
  unfold UploadFile.onEvent. rewrite Hk, Hu. cbn [negb].
  cbn [bind new_NodeSSH assign_tempFilePath].
  rewrite try_finally_completion by apply UploadFile_cleanup_never_throws.
  rewrite snd_try_finally.
  unfold UploadFile.body.
  rewrite (bind_normal _ _ _ _ _ (ssh_connect_reachable _ _ _ _ _ _ Hr)).
  cbn [bind Date_now Math_random36 assign_tempFilePath].
  match goal with |- context [fs_writeFile _ ?p _] => set (path := p) end.
  match goal with |- context [snd (bind ?m ?k ?s2)] =>
    assert (HP : performs (fun c => c = Normal tt) []
                   (uploadCalls env inp path) (bind m k));
      [|destruct (HP s2 eq_refl) as (S & F & H)]
  end.
  { unfold uploadCalls.
    destruct (truthy (UploadFile.permissions inp)); cbn [List.app].
    - apply performs_cons; [call_primitive|intros _].
      apply performs_cons; [call_primitive|intros _].
      apply performs_dropped.
      apply performs_cons; [call_primitive|intros _].
      apply performs_cons; [call_primitive|intros size].
      quiet_end.
    - apply performs_cons; [call_primitive|intros _].
      apply performs_cons; [call_primitive|intros _].
      apply performs_skipped.
      apply performs_cons; [call_primitive|intros size].
      quiet_end. }
  rewrite (file_cleanup_named env _ path);
    [|rewrite F; reflexivity|apply tempName_truthy_upload].
  match goal with |- context [attempt ?c ?s2] =>
    destruct (attempt c s2) as [l [e|]]
  end;
    destruct H as [T C]; cbn [fst snd];
    (split; [|exact C]); rewrite T; projections;
    rewrite ?app_nil_r, <- !app_assoc; reflexivity.
Qed.

Lemma upload_follows_protocol_witness :
  trace (snd (UploadFile.onEvent Breaks.onTransfer Sample.app Sample.upload
                Sample.start))
  = trace Sample.start
      ++ EvConnect (mkConnect "h" "deploy" 22 "KEY" None)
      :: fst (attempt
                (uploadCalls Breaks.onTransfer Sample.upload
                   (uploadPath Breaks.onTransfer Sample.app Sample.upload
                      Sample.start))
                (uploadStart Breaks.onTransfer Sample.app Sample.upload
                   Sample.start))
      ++ [EvDispose;
          EvUnlink (uploadPath Breaks.onTransfer Sample.app Sample.upload
                      Sample.start)] /\
  fst (UploadFile.onEvent Breaks.onTransfer Sample.app Sample.upload
         Sample.start)
  = match snd (attempt
                 (uploadCalls Breaks.onTransfer Sample.upload
                    (uploadPath Breaks.onTransfer Sample.app Sample.upload
                       Sample.start))
                 (uploadStart Breaks.onTransfer Sample.app Sample.upload
                    Sample.start)) with
    | Some e => Throws e
    | None => Normal tt
    end.
Proof.
  apply (upload_follows_protocol Breaks.onTransfer Sample.app Sample.upload
           Sample.start);
    first [ reflexivity | intros s; exists Sample.server; now split ].
Defined.

(** X15. Once the server is reached, Download File makes its calls in
    order (transfer the file to the staging file, read the staging file,
    take its size, send [stat] for the source) and stops at the first that
    is rejected: it then makes no further call of these and throws the
    error of that call; when none is rejected it completes normally,
    unless the date conversion of the modification time throws.  Wherever
    it stops, the session is closed next and the removal of the staging
    file is the last call. *)
Theorem download_follows_protocol
    (env : Env) (app : App.Config) (inp : DownloadFile.Input) (s : State) :
  truthy (App.privateKey app) = true ->
  truthy (js_or (DownloadFile.username inp) (App.username app)) = true ->
  reachable env (DownloadFile.host inp) (DownloadFile.port inp)
    (str (js_or (DownloadFile.username inp) (App.username app)))
    (str (App.privateKey app)) ->
  trace (snd (DownloadFile.onEvent env app inp s))
  = trace s
      ++ EvConnect
           (mkConnect (DownloadFile.host inp)
              (str (js_or (DownloadFile.username inp) (App.username app)))
              (DownloadFile.port inp) (str (App.privateKey app)) None)
      :: fst (attempt (downloadCalls env inp (downloadPath env app inp s))
                (downloadStart env app inp s))
      ++ [EvDispose; EvUnlink (downloadPath env app inp s)] /\
  match snd (attempt (downloadCalls env inp (downloadPath env app inp s))
               (downloadStart env app inp s)) with
  | Some e => fst (DownloadFile.onEvent env app inp s) = Throws e
  | None =>
      fst (DownloadFile.onEvent env app inp s) = Normal tt \/
      fst (DownloadFile.onEvent env app inp s)
      = Throws (mkError "Invalid time value")
  end.
Proof.
  intros Hk Hu Hr.
  unfold downloadStart, downloadPath, downloadConnected.
  unfold DownloadFile.onEvent. rewrite Hk, Hu. cbn [negb].
  cbn [bind new_NodeSSH assign_tempFilePath].
  rewrite try_finally_completion by apply DownloadFile_cleanup_never_throws.
  rewrite snd_try_finally.
  unfold DownloadFile.body.
  rewrite (bind_normal _ _ _ _ _ (ssh_connect_reachable _ _ _ _ _ _ Hr)).
  cbn [bind Date_now Math_random36 assign_tempFilePath].
  match goal with |- context [ssh_getFile _ ?p _] => set (path := p) end.
  match goal with |- context [snd (bind ?m ?k ?s2)] =>
    assert (HP : performs
                   (fun c => c = Normal tt \/
                             c = Throws (mkError "Invalid time value"))
                   [] (downloadCalls env inp path) (bind m k));
      [|destruct (HP s2 eq_refl) as (S & F & H)]
  end.
  { unfold downloadCalls.
    apply performs_cons; [call_primitive|intros _].
    apply performs_cons; [call_primitive|intros buffer].
    apply performs_cons; [call_primitive|intros size].
    apply performs_cons; [call_primitive|intros r].
    apply performs_nil. intros s0 Hs. unfold bind, Date_toISOString.
    destruct (option_map _ _) as [ms|]; [destruct (_ <=? _)%Z|];
      cbn [ret throw events_emit fst snd]; projections;
      rewrite app_nil_r; auto. }
  rewrite (file_cleanup_named env _ path);
    [|rewrite F; reflexivity|apply tempName_truthy_download].
  match goal with |- context [attempt ?c ?s2] =>
    destruct (attempt c s2) as [l [e|]]
  end;
    destruct H as [T C]; cbn [fst snd];
    (split; [|exact C]); rewrite T; projections;
    rewrite ?app_nil_r, <- !app_assoc; reflexivity.
Qed.

Lemma download_follows_protocol_witness :
  trace (snd (DownloadFile.onEvent Breaks.onTransfer Sample.app
                Faults.download Sample.binary))
  = trace Sample.binary
      ++ EvConnect (mkConnect "h" "deploy" 22 "KEY" None)
      :: fst (attempt
                (downloadCalls Breaks.onTransfer Faults.download
                   (downloadPath Breaks.onTransfer Sample.app Faults.download
                      Sample.binary))
                (downloadStart Breaks.onTransfer Sample.app Faults.download
                   Sample.binary))
      ++ [EvDispose;
          EvUnlink (downloadPath Breaks.onTransfer Sample.app Faults.download
                      Sample.binary)] /\
  match snd (attempt
               (downloadCalls Breaks.onTransfer Faults.download
                  (downloadPath Breaks.onTransfer Sample.app Faults.download
                     Sample.binary))
               (downloadStart Breaks.onTransfer Sample.app Faults.download
                  Sample.binary)) with
  | Some e =>
      fst (DownloadFile.onEvent Breaks.onTransfer Sample.app Faults.download
             Sample.binary) = Throws e
  | None =>
      fst (DownloadFile.onEvent Breaks.onTransfer Sample.app Faults.download
             Sample.binary) = Normal tt \/
      fst (DownloadFile.onEvent Breaks.onTransfer Sample.app Faults.download
             Sample.binary) = Throws (mkError "Invalid time value")
  end.
Proof.
  apply (download_follows_protocol Breaks.onTransfer Sample.app
           Faults.download Sample.binary);
    first [ reflexivity | intros s; exists Sample.server; now split ].
Defined.

(* ===================================================================== *)
(** * The order of the probes of Host Metadata                            *)
(* ===================================================================== *)

Lemma probeLoadAverage_call P env s :
  session s = true ->
  exists la,
    fst (HostMetadata.probeLoadAverage P env s) = Normal la /\
    trace (snd (HostMetadata.probeLoadAverage P env s))
    = trace s ++ [EvExec Sample.loadavgCommand None] /\
    session (snd (HostMetadata.probeLoadAverage P env s)) = true /\
    tempFilePath (snd (HostMetadata.probeLoadAverage P env s))
    = tempFilePath s.
Proof.
  intros Hs.
  unfold HostMetadata.probeLoadAverage, try_catch, bind, ssh_execCommand,
    console_warn, ret.
  rewrite Hs. fold Sample.loadavgCommand.
  destruct (remoteExec env Sample.loadavgCommand None s) as [[e|r] fs];
    cbn [fst snd]; [projections; eauto|].
  destruct (HostMetadata.usable r); [destruct (3 <=? length _)%nat|];
    cbn [fst snd]; projections; eauto.
Qed.

Lemma probeMemory_call P env s :
  session s = true ->
  exists m,
    fst (HostMetadata.probeMemory P env s) = Normal m /\
    trace (snd (HostMetadata.probeMemory P env s))
    = trace s ++ [EvExec memoryCommand None] /\
    session (snd (HostMetadata.probeMemory P env s)) = true /\
    tempFilePath (snd (HostMetadata.probeMemory P env s)) = tempFilePath s.
Proof.
  intros Hs.
  unfold HostMetadata.probeMemory, try_catch, bind, ssh_execCommand,
    console_warn, ret.
  rewrite Hs. fold memoryCommand.
  destruct (remoteExec env memoryCommand None s) as [[e|r] fs];
    cbn [fst snd]; [projections; eauto|].
  destruct (HostMetadata.usable r); cbn [fst snd]; projections; eauto.
Qed.

(** X16. Once the server is reached, Host Metadata sends its five
    unguarded commands in order and stops at the first whose call is
    rejected: it then sends no further command and reports [failed] with
    the message of that error.  When none of the five is rejected it goes
    on to send the load average and the memory command, neither of which
    can stop it, and reports [ready].  The closing of the session is the
    last call in both cases. *)
Theorem host_metadata_follows_protocol
    (P : HostMetadata.Parsers) (env : Env) (app : App.Config)
    (cfg : HostMetadata.Config) (s : State) :
  truthy (App.privateKey app) = true ->
  truthy (js_or (HostMetadata.username cfg) (App.username app)) = true ->
  reachable env (HostMetadata.host cfg) (HostMetadata.port cfg)
    (str (js_or (HostMetadata.username cfg) (App.username app)))
    (str (App.privateKey app)) ->
  match attempt (unguardedCalls env) (metadataConnected env app cfg s) with
  | (l, Some e) =>
      trace (snd (HostMetadata.onSync P env app cfg s))
      = trace s
          ++ EvConnect
               (mkConnect (HostMetadata.host cfg)
                  (str (js_or (HostMetadata.username cfg) (App.username app)))
                  (HostMetadata.port cfg) (str (App.privateKey app)) None)
          :: l ++ [EvDispose] /\
      fst (HostMetadata.onSync P env app cfg s)
      = Normal (HostMetadata.Failed
                  ("Failed to connect to host: " +:+ message e))
  | (l, None) =>
      trace (snd (HostMetadata.onSync P env app cfg s))
      = trace s
          ++ EvConnect
               (mkConnect (HostMetadata.host cfg)
                  (str (js_or (HostMetadata.username cfg) (App.username app)))
                  (HostMetadata.port cfg) (str (App.privateKey app)) None)
          :: l
          ++ [EvExec Sample.loadavgCommand None; EvExec memoryCommand None;
              EvDispose] /\
      exists sig,
        fst (HostMetadata.onSync P env app cfg s)
        = Normal (HostMetadata.Ready sig)
  end.
Proof.
  intros Hk Hu Hr.
  unfold metadataConnected.
  unfold HostMetadata.onSync. rewrite Hk, Hu. cbn [negb].
  cbn [bind new_NodeSSH].
  rewrite try_finally_completion by apply ssh_dispose_never_throws.
  rewrite snd_try_finally, snd_try_catch_ret.
  unfold try_catch, HostMetadata.body.
  rewrite (bind_normal _ _ _ _ _ (ssh_connect_reachable _ _ _ _ _ _ Hr)).
  match goal with |- context [snd (bind ?m ?k ?s1)] =>
    assert (HP : performs
                   (fun c => exists sig, c = Normal (HostMetadata.Ready sig))
                   [EvExec Sample.loadavgCommand None;
                    EvExec memoryCommand None]
                   (unguardedCalls env) (bind m k));
      [|destruct (HP s1 eq_refl) as (S & F & H)]
  end.
  { unfold unguardedCalls, unguardedCommands. cbn [map].
    apply performs_cons; [call_primitive|intros r1].
    apply performs_cons; [call_primitive|intros r2].
    apply performs_cons; [call_primitive|intros r3].
    apply performs_cons; [call_primitive|intros r4].
    apply performs_cons; [call_primitive|intros r5].
    apply performs_nil. intros s0 Hs.
    destruct (probeLoadAverage_call P env s0 Hs) as (la & El & Tl & Sl & Fl).
    rewrite (bind_normal _ _ _ _ _ (normal_run _ _ _ El)).
    destruct (probeMemory_call P env _ Sl) as (m & Em & Tm & Sm & Fm).
    rewrite (bind_normal _ _ _ _ _ (normal_run _ _ _ Em)).
    match goal with |- context [bind (HostMetadata.parseUptime ?P0 ?r) _ ?s2] =>
      destruct (parseUptime_run P0 r s2) as (u & Eu & _)
    end.
    rewrite (bind_normal _ _ _ _ _ Eu). cbn [ret fst snd].
    split; [exact Sm|]. split; [congruence|].
    split; [now rewrite Tm, Tl, <- app_assoc|eauto]. }
  match goal with |- context [attempt ?c ?s1] =>
    destruct (attempt c s1) as [l [e|]]
  end;
    destruct H as [T C];
    match goal with |- context [bind ?m ?k ?s1] =>
      destruct (bind m k s1) as [[a|e'] s2]
    end; cbn [fst snd ret] in *; unfold ssh_dispose; cbn [snd]; projections.
  - discriminate.
  - injection C as ->. split; [|reflexivity].
    rewrite T. projections. now rewrite <- !app_assoc.
  - destruct C as [sig C]. split; [|eauto].
    rewrite T. projections. now rewrite <- !app_assoc.
  - destruct C as [sig C]. discriminate.
Qed.

Lemma host_metadata_follows_protocol_witness :
  match attempt (unguardedCalls (Sample.env 1 Probes.guarded_break false))
          (metadataConnected (Sample.env 1 Probes.guarded_break false)
             Sample.app Sample.target Sample.start) with
  | (l, Some e) =>
      trace (snd (HostMetadata.onSync Sample.parsers
                    (Sample.env 1 Probes.guarded_break false) Sample.app
                    Sample.target Sample.start))
      = trace Sample.start
          ++ EvConnect (mkConnect "h" "deploy" 22 "KEY" None)
          :: l ++ [EvDispose] /\
      fst (HostMetadata.onSync Sample.parsers
             (Sample.env 1 Probes.guarded_break false) Sample.app
             Sample.target Sample.start)
      = Normal (HostMetadata.Failed
                  ("Failed to connect to host: " +:+ message e))
  | (l, None) =>
      trace (snd (HostMetadata.onSync Sample.parsers
                    (Sample.env 1 Probes.guarded_break false) Sample.app
                    Sample.target Sample.start))
      = trace Sample.start
          ++ EvConnect (mkConnect "h" "deploy" 22 "KEY" None)
          :: l
          ++ [EvExec Sample.loadavgCommand None; EvExec memoryCommand None;
              EvDispose] /\
      exists sig,
        fst (HostMetadata.onSync Sample.parsers
               (Sample.env 1 Probes.guarded_break false) Sample.app
               Sample.target Sample.start)
        = Normal (HostMetadata.Ready sig)
  end.
Proof.
  apply (host_metadata_follows_protocol Sample.parsers
           (Sample.env 1 Probes.guarded_break false) Sample.app Sample.target
           Sample.start);
    first [ reflexivity | apply Sample_reachable ].
Defined.

(* ===================================================================== *)
(** * What an upload changes on the server                                *)
(* ===================================================================== *)

(** X17. An upload without permissions changes nothing on the remote
    disk but the destination: every other path holds on every completion
    what it held before, whatever fails and whatever a failed transfer
    leaves behind; and when the block completes normally, the destination
    holds the bytes of the content. *)
Theorem upload_writes_destination_only
    (env : Env) (app : App.Config) (inp : UploadFile.Input) (s : State) :
  truthy (UploadFile.permissions inp) = false ->
  (forall p,
     p <> UploadFile.destinationPath inp ->
     remoteFs (snd (UploadFile.onEvent env app inp s)) !! p = remoteFs s !! p) /\
  (fst (UploadFile.onEvent env app inp s) = Normal tt ->
   remoteFs (snd (UploadFile.onEvent env app inp s))
     !! UploadFile.destinationPath inp
   = Some (UploadFile.fileContent inp)).
Proof.
  intros Hp. unfold UploadFile.onEvent.
  destruct (truthy (App.privateKey app)); cbn [negb];
    [|split; [reflexivity|discriminate]].
  destruct (truthy (js_or _ _)); cbn [negb];
    [|split; [reflexivity|discriminate]].
  cbn [bind new_NodeSSH assign_tempFilePath].
  rewrite try_finally_completion by apply UploadFile_cleanup_never_throws.
  rewrite snd_try_finally, keeps_remoteFs_UploadFile_cleanup.
  unfold UploadFile.body. rewrite Hp.
  step_connect; [split; [reflexivity|discriminate]|].
  cbn [bind Date_now Math_random36 assign_tempFilePath snd].
  match goal with |- context [fs_writeFile _ ?p _] => set (path := p) end.
  unfold bind, fs_writeFile, ssh_putFile, fs_stat, events_emit, ret.
  repeat (projections; rewrite ?lookup_insert_eq; cbn [fst snd];
          try match goal with
              | |- context [match ?x with _ => _ end] =>
                  lazymatch x with
                  | context [match _ with _ => _ end] => fail
                  | _ => destruct x
                  end
              end);
    rewrite ?snd_try_finally, ?keeps_remoteFs_UploadFile_cleanup;
    projections;
    (split;
     [ intros q Hq; rewrite ?snd_try_finally, ?keeps_remoteFs_UploadFile_cleanup;
       projections; rewrite ?lookup_insert_ne by congruence
     | ]);
    try reflexivity; try discriminate;
    intros _; apply lookup_insert_eq.
Qed.

Lemma upload_writes_destination_only_witness :
  (forall p,
     p <> "/srv/a.txt" ->
     remoteFs (snd (UploadFile.onEvent (Sample.env 1 (Sample.ok "" 0) false)
                      Sample.app
                      (UploadFile.mkInput "h" 22 [104; 105]%N "/srv/a.txt"
                         None (Some "text") None) Sample.binary)) !! p
     = remoteFs Sample.binary !! p) /\
  (fst (UploadFile.onEvent (Sample.env 1 (Sample.ok "" 0) false) Sample.app
          (UploadFile.mkInput "h" 22 [104; 105]%N "/srv/a.txt" None
             (Some "text") None) Sample.binary) = Normal tt ->
   remoteFs (snd (UploadFile.onEvent (Sample.env 1 (Sample.ok "" 0) false)
                    Sample.app
                    (UploadFile.mkInput "h" 22 [104; 105]%N "/srv/a.txt" None
                       (Some "text") None) Sample.binary)) !! "/srv/a.txt"
   = Some [x68; x69]).
Proof.
  apply (upload_writes_destination_only (Sample.env 1 (Sample.ok "" 0) false)
           Sample.app
           (UploadFile.mkInput "h" 22 [104; 105]%N "/srv/a.txt" None
              (Some "text") None) Sample.binary).
  reflexivity.
Defined.
